(** * OpenAI multi-account switcher: a shallow embedding of the plugin

    The repository holds three revisions of one OpenCode plugin.  The
    development follows the newest one (the revision with the verbs
    [list], [save], [load], [del], XDG path resolution and the
    name-collision check) function by function; module [Older] embeds the
    revision with the menu-style verbs so that the places where the two
    disagree can be stated as lemmas.

    JavaScript values are modelled as parsed JSON data, strings as byte
    strings.  Everything the plugin does to its surroundings (probing,
    reading and writing the two JSON files, toasts, [client.auth.set],
    assigning [output.parts]) is threaded through an explicit world. *)

From stdpp Require Import gmap strings list fin_maps sorting pretty.
From Stdlib Require Import ZArith Ascii String.

#[local] Set Warnings "-register-all".
#[local] Open Scope Z_scope.
#[local] Open Scope string_scope.

(** ** Strings as the runtime sees them *)

Module Js.

(** White space recognised by [trim], [\s] and [parseInt]; only the ASCII
    members of the class exist in byte strings. *)
Definition is_space (c : ascii) : bool :=
  let n := nat_of_ascii c in
  ((9 <=? n) && (n <=? 13))%nat || (n =? 32)%nat.

Definition lower_ascii (c : ascii) : ascii :=
  let n := nat_of_ascii c in
  if ((65 <=? n) && (n <=? 90))%nat then ascii_of_nat (n + 32) else c.

(** [s.toLowerCase()] on the ASCII range. *)
Fixpoint toLowerCase (s : string) : string :=
  match s with
  | EmptyString => EmptyString
  | String c s' => String (lower_ascii c) (toLowerCase s')
  end.

Fixpoint rev_onto (s acc : string) : string :=
  match s with
  | EmptyString => acc
  | String c s' => rev_onto s' (String c acc)
  end.

Definition rev (s : string) : string := rev_onto s EmptyString.

Fixpoint trimStart (s : string) : string :=
  match s with
  | EmptyString => EmptyString
  | String c s' => if is_space c then trimStart s' else s
  end.

(** [s.trim()] *)
Definition trim (s : string) : string := rev (trimStart (rev (trimStart s))).

(** [s.replace(/^\//, "")]: drops one leading slash. *)
Definition strip_slash (s : string) : string :=
  match s with
  | String "/" s' => s'
  | _ => s
  end.

(** [s.split(sep)] for a one-character separator: [cur] holds the piece
    under construction, reversed. *)
Fixpoint split_char (sep : ascii) (cur s : string) : list string :=
  match s with
  | EmptyString => [rev cur]
  | String c s' =>
      if Ascii.eqb c sep then rev cur :: split_char sep EmptyString s'
      else split_char sep (String c cur) s'
  end.

(** [s.split(/\s+/)]: a maximal run of white space is one separator;
    [in_sep] tells that the previous character belonged to a run. *)
Fixpoint split_spaces (in_sep : bool) (cur s : string) : list string :=
  match s with
  | EmptyString => [rev cur]
  | String c s' =>
      if is_space c then
        if in_sep then split_spaces true cur s'
        else rev cur :: split_spaces true EmptyString s'
      else split_spaces false (String c cur) s'
  end.

(** [s.replace(/c/g, d)] *)
Fixpoint replace_all (c d : ascii) (s : string) : string :=
  match s with
  | EmptyString => EmptyString
  | String x s' => String (if Ascii.eqb x c then d else x) (replace_all c d s')
  end.

(** [s.slice(n)] for [0 <= n]. *)
Fixpoint slice (n : nat) (s : string) : string :=
  match n, s with
  | O, _ => s
  | S n', String _ s' => slice n' s'
  | S _, EmptyString => EmptyString
  end.

(** [l.join(sep)] *)
Fixpoint join (sep : string) (l : list string) : string :=
  match l with
  | [] => ""
  | [x] => x
  | x :: l' => x +:+ sep +:+ join sep l'
  end.

Definition digit_of (c : ascii) : option Z :=
  let n := nat_of_ascii c in
  if ((48 <=? n) && (n <=? 57))%nat then Some (Z.of_nat (n - 48)) else None.

(** The digits at the front of [s], folded into [acc]; [seen] records
    whether a digit was consumed. *)
Fixpoint leading_digits (acc : Z) (seen : bool) (s : string) : option Z :=
  match s with
  | EmptyString => if seen then Some acc else None
  | String c s' =>
      match digit_of c with
      | Some d => leading_digits (10 * acc + d) true s'
      | None => if seen then Some acc else None
      end
  end.

(** The value of a string made of decimal digits only. *)
Fixpoint digits_only (acc : Z) (seen : bool) (s : string) : option Z :=
  match s with
  | EmptyString => if seen then Some acc else None
  | String c s' =>
      match digit_of c with
      | Some d => digits_only (10 * acc + d) true s'
      | None => None
      end
  end.

(** [parseInt(s, 10)]: leading white space is skipped, one sign is
    accepted, the longest run of decimal digits is read and whatever
    follows is ignored; [None] is NaN.  The result is only ever compared
    with [0] and with an array length, where the exact integer and its
    nearest double agree. *)
Definition parseInt (s : string) : option Z :=
  match trimStart s with
  | String "-" s' => Z.opp <$> leading_digits 0 false s'
  | String "+" s' => leading_digits 0 false s'
  | s' => leading_digits 0 false s'
  end.

End Js.

(** ** Values

    Both files hold JSON, and every object the plugin builds is written
    out as JSON, so the values of the embedding are JSON data.  Arrays are
    left out: neither file's schema has one and the plugin builds none.
    An object is a finite map from its own property names to values;
    members inherited from [Object.prototype] are not part of the model.
    JSON numbers are doubles; the ones that matter here (the version tag,
    the expiry timestamp) are integers. *)

Inductive json :=
| JNull
| JBool (b : bool)
| JNum (n : Z)
| JStr (s : string)
| JObj (m : gmap string json).

(** A JavaScript value: [None] is [undefined]. *)
Abbreviation jsval := (option json).

Inductive error :=
| Error (message : string)   (* throw new Error(message) *)
| TypeError (message : string)   (* property access on null or undefined *)
| SyntaxError (message : string).   (* malformed JSON text *)

Definition error_message (e : error) : string :=
  match e with
  | Error m | TypeError m | SyntaxError m => m
  end.

Inductive result (A : Type) :=
| Ok (a : A)
| Throw (e : error).
Arguments Ok {A} a.
Arguments Throw {A} e.

Definition rbind {A B} (r : result A) (k : A -> result B) : result B :=
  match r with
  | Ok a => k a
  | Throw e => Throw e
  end.

Fixpoint rmap {A B} (f : A -> result B) (l : list A) : result (list B) :=
  match l with
  | [] => Ok []
  | x :: l' => rbind (f x) (fun y => rbind (rmap f l') (fun ys => Ok (y :: ys)))
  end.

Definition typeof (v : jsval) : string :=
  match v with
  | None => "undefined"
  | Some JNull => "object"
  | Some (JBool _) => "boolean"
  | Some (JNum _) => "number"
  | Some (JStr _) => "string"
  | Some (JObj _) => "object"
  end.

(** Truthiness, as tested by [!v], [v ? _ : _] and [&&]. *)
Definition truthy (v : jsval) : bool :=
  match v with
  | None | Some JNull => false
  | Some (JBool b) => b
  | Some (JNum n) => negb (Z.eqb n 0)
  | Some (JStr s) => negb (String.eqb s "")
  | Some (JObj _) => true
  end.

(** [v === w].  Two objects are equal only when they are the same
    object; the comparisons of the plugin set a value read from one
    freshly parsed file against a constant or against a value read from
    another, never an object against itself. *)
Definition strict_eq (v w : jsval) : bool :=
  match v, w with
  | None, None => true
  | Some JNull, Some JNull => true
  | Some (JBool a), Some (JBool b) => Bool.eqb a b
  | Some (JNum a), Some (JNum b) => Z.eqb a b
  | Some (JStr a), Some (JStr b) => String.eqb a b
  | _, _ => false
  end.

(** [v[k]] and [v.k]: reading a property of [null] or [undefined]
    throws, a primitive has none of the properties asked for here.  An
    object answers with the members of its own: a name that every
    object inherits from [Object.prototype] and that the object does not
    hold itself is outside the embedding, and the theorems about a name
    looked up in the vault leave these names out. *)
Definition get (v : jsval) (k : string) : result jsval :=
  match v with
  | None => Throw (TypeError ("undefined is not an object (reading '" +:+ k +:+ "')"))
  | Some JNull => Throw (TypeError ("null is not an object (reading '" +:+ k +:+ "')"))
  | Some (JObj m) => Ok (m !! k)
  | Some _ => Ok None
  end.

(** [v?.k] *)
Definition get_opt (v : jsval) (k : string) : jsval :=
  match v with
  | Some (JObj m) => m !! k
  | _ => None
  end.

(** [v[k] = x] on a value held in a variable: the updated value. *)
Definition set (v : jsval) (k : string) (x : json) : result json :=
  match v with
  | None => Throw (TypeError ("undefined is not an object (writing '" +:+ k +:+ "')"))
  | Some JNull => Throw (TypeError ("null is not an object (writing '" +:+ k +:+ "')"))
  | Some (JObj m) => Ok (JObj (<[k := x]> m))
  | Some _ => Throw (TypeError ("cannot create property '" +:+ k +:+ "'"))
  end.

(** [delete v[k]] *)
Definition delete_prop (v : jsval) (k : string) : result json :=
  match v with
  | None => Throw (TypeError ("undefined is not an object (deleting '" +:+ k +:+ "')"))
  | Some JNull => Throw (TypeError ("null is not an object (deleting '" +:+ k +:+ "')"))
  | Some (JObj m) => Ok (JObj (delete k m))
  | Some j => Ok j
  end.

(** [Object.keys(v)].  The order in which the runtime enumerates the
    keys is not kept by the map; every use sorts the result.  The keys
    of a string are its indices. *)
Definition Object_keys (v : jsval) : result (list string) :=
  match v with
  | None | Some JNull =>
      Throw (TypeError "cannot convert undefined or null to object")
  | Some (JObj m) => Ok (map_to_list m).*1
  | Some (JStr s) => Ok (pretty <$> seq 0 (String.length s))
  | Some _ => Ok []
  end.

(** ** The stored data *)

(** [StoredOAuthProfile["oauth"]] *)
Record OAuth := {
  refresh : string;
  access : string;
  expires : Z;
  enterpriseUrl : option string;
  accountId : option string;
}.

(** [StoredOAuthProfile] *)
Record StoredOAuthProfile := {
  name : string;
  oauth : OAuth;
  savedAt : string;
}.

Definition opt_field (k : string) (v : option string) (m : gmap string json)
  : gmap string json :=
  match v with
  | Some s => <[k := JStr s]> m
  | None => m
  end.

(** The object a credential is in memory and on disk: the optional
    members exist only when they are set. *)
Definition json_of_oauth (o : OAuth) : json :=
  JObj (opt_field "accountId" (accountId o)
         (opt_field "enterpriseUrl" (enterpriseUrl o)
           (<["refresh" := JStr (refresh o)]>
             (<["access" := JStr (access o)]>
               (<["expires" := JNum (expires o)]> ∅))))).

(** [{ name, oauth, savedAt }] *)
Definition json_of_profile (p : StoredOAuthProfile) : json :=
  JObj (<["name" := JStr (name p)]>
         (<["oauth" := json_of_oauth (oauth p)]>
           (<["savedAt" := JStr (savedAt p)]> ∅))).

(** [{ version: 1, profiles }] *)
Definition json_of_storage (profiles : gmap string json) : json :=
  JObj (<["version" := JNum 1]> (<["profiles" := JObj profiles]> ∅)).

Definition PROVIDER_ID : string := "openai".
Definition COMMAND : string := "oai".
Definition EMAIL_CLAIM_KEY : string := "https://api.openai.com/profile".

(** [String(v)], as spliced into a message.  This is the runtime's
    text for a safe integer and for an object without a member
    [toString] of its own; on an object that has one the runtime's
    conversion throws. *)
Definition String_of (v : jsval) : string :=
  match v with
  | None => "undefined"
  | Some JNull => "null"
  | Some (JBool b) => if b then "true" else "false"
  | Some (JNum n) => pretty n
  | Some (JStr s) => s
  | Some (JObj _) => "[object Object]"
  end.

(** ** The world of one command

    [files] maps a path to what [Bun.file(path)] would find there: no
    entry when the file is absent, [Unparsable] when its text is not
    JSON.  [parts] is [output.parts], a list of text parts.  [now] is
    what [new Date().toISOString()] returns.  [trace] records every call
    that leaves the plugin, oldest first. *)

Inductive content :=
| Unparsable
| Holds (j : json).

Record toast := {
  message : string;
  variant : string;
  duration : option Z;
}.

Inductive event :=
| FileExists (path : string)
| FileJson (path : string)
| FileWrite (path : string) (data : json)
| ShowToast (t : toast)
| AuthSet (id : string) (body : gmap string json).

Record world := {
  files : gmap string content;
  parts : list string;
  now : string;
  trace : list event;
}.

Definition M (A : Type) : Type := world -> result A * world.

Definition ret {A} (a : A) : M A := fun w => (Ok a, w).

Definition throw {A} (e : error) : M A := fun w => (Throw e, w).

Definition bind {A B} (m : M A) (k : A -> M B) : M B :=
  fun w =>
    match m w with
    | (Ok a, w') => k a w'
    | (Throw e, w') => (Throw e, w')
    end.

(** [try { m } catch (e) { h e }]: what [m] did before it threw stays
    done. *)
Definition try_catch {A} (m : M A) (h : error -> M A) : M A :=
  fun w =>
    match m w with
    | (Ok a, w') => (Ok a, w')
    | (Throw e, w') => h e w'
    end.

Definition lift {A} (r : result A) : M A := fun w => (r, w).

Notation "'let*' x := m 'in' k" := (bind m (fun x => k))
  (at level 10, x pattern, m at level 100, k at level 200).
Notation "m ';;' k" := (bind m (fun _ => k))
  (at level 100, k at level 200, right associativity).
Notation "'let?' x := r 'in' k" := (rbind r (fun x => k))
  (at level 10, x pattern, r at level 100, k at level 200).

Definition emit (e : event) (w : world) : world :=
  {| files := files w; parts := parts w; now := now w; trace := trace w ++ [e] |}.

Definition with_parts (l : list string) (w : world) : world :=
  {| files := files w; parts := l; now := now w; trace := trace w |}.

Definition with_file (path : string) (data : json) (w : world) : world :=
  {| files := <[path := Holds data]> (files w); parts := parts w; now := now w;
     trace := trace w |}.

Definition log (e : event) : M unit := fun w => (Ok tt, emit e w).

(** [await Bun.file(path).exists()] *)
Definition file_exists (path : string) : M bool :=
  log (FileExists path);;
  fun w => (Ok (bool_decide (is_Some (files w !! path))), w).

(** [await Bun.file(path).json()] *)
Definition file_json (path : string) : M json :=
  log (FileJson path);;
  fun w =>
    match files w !! path with
    | None => (Throw (Error ("ENOENT: no such file or directory, open '" +:+ path +:+ "'")), w)
    | Some Unparsable => (Throw (SyntaxError "JSON Parse error"), w)
    | Some (Holds j) => (Ok j, w)
    end.

(** [await Bun.write(path, JSON.stringify(data, null, 2) + "\n")]: the
    file then parses back to [data]. *)
Definition Bun_write (path : string) (data : json) : M unit :=
  log (FileWrite path data);;
  fun w => (Ok tt, with_file path data w).

(** [await client.tui.showToast({ body: { message, variant }, duration })] *)
Definition showToast (t : toast) : M unit := log (ShowToast t).

(** [await client.auth.set({ path: { id }, body })] *)
Definition auth_set (id : string) (body : gmap string json) : M unit :=
  log (AuthSet id body).

(** [output.parts = l] *)
Definition set_parts (l : list string) : M unit :=
  fun w => (Ok tt, with_parts l w).

(** [new Date().toISOString()] *)
Definition Date_now : M string := fun w => (Ok (now w), w).

Definition toasts (w : world) : list toast :=
  omap (fun e => match e with ShowToast t => Some t | _ => None end) (trace w).

Definition auth_sets (w : world) : list (string * gmap string json) :=
  omap (fun e => match e with AuthSet id b => Some (id, b) | _ => None end) (trace w).

Definition writes (w : world) : list (string * json) :=
  omap (fun e => match e with FileWrite p d => Some (p, d) | _ => None end) (trace w).

(** ** Path resolution *)

Record env := {
  HOME : option string;
  XDG_CONFIG_HOME : option string;
  XDG_DATA_HOME : option string;
}.

Definition unset (v : option string) : bool :=
  match v with
  | None | Some "" => true
  | Some _ => false
  end.

Definition interp (v : option string) : string :=
  match v with
  | None => "undefined"
  | Some s => s
  end.

Definition resolveXdgPaths (e : env) : result (string * string) :=
  if unset (XDG_CONFIG_HOME e) && unset (XDG_DATA_HOME e) && unset (HOME e) then
    Throw (Error "Cannot resolve OpenCode paths: HOME, XDG_CONFIG_HOME, and XDG_DATA_HOME are all unset.")
  else
    Ok (default (interp (HOME e) +:+ "/.config") (XDG_CONFIG_HOME e),
        default (interp (HOME e) +:+ "/.local/share") (XDG_DATA_HOME e)).

(** The module-level constants [STORAGE_PATH] and [AUTH_PATH]. *)
Definition module_paths (e : env) : result (string * string) :=
  let? (configHome, dataHome) := resolveXdgPaths e in
  Ok (configHome +:+ "/opencode/openai-accounts.json",
      dataHome +:+ "/opencode/auth.json").

(** [parseArgs] *)
Definition parseArgs (raw : string) : list string :=
  filter (fun s => s ≠ "") (Js.split_spaces false "" (Js.trim raw)).

(** ** The plugin *)

Section Plugin.

(** The two module-level paths, the collation of [localeCompare], the
    decoder [Buffer.from(s, "base64").toString("utf8")] and [JSON.parse]
    ([None] when it throws) belong to the runtime. *)
Context (STORAGE_PATH AUTH_PATH : string).
Context (localeCompare : string -> string -> Z).
Context (base64_utf8 : string -> string).
Context (JSON_parse : string -> option json).

(** The comparator [(a, b) => a.localeCompare(b)] puts [a] no later
    than [b] when it returns at most zero. *)
Definition before (a b : string) : Prop := (localeCompare a b <= 0)%Z.

#[local] Instance before_dec : RelDecision before.
Proof. intros a b. unfold before. apply _. Defined.

(** [names.sort((a, b) => a.localeCompare(b))].  The runtime's sort is
    stable, and so is this insertion sort: a name goes in front of the
    first sorted name it is to come no later than.  Under a comparator
    that ranks the names consistently every stable sort gives the same
    list. *)
Fixpoint insert_name (x : string) (sorted : list string) : list string :=
  match sorted with
  | [] => [x]
  | y :: sorted' =>
      if decide (before x y) then x :: y :: sorted' else y :: insert_name x sorted'
  end.

Definition sort_names (names : list string) : list string :=
  foldr insert_name [] names.

Definition readJsonFile (path : string) : M json :=
  let* found := file_exists path in
  if negb found then throw (Error ("File not found: " +:+ path))
  else file_json path.

Definition writeJsonFile (path : string) (data : json) : M unit :=
  Bun_write path data.

Definition loadStorage : M json :=
  let* found := file_exists STORAGE_PATH in
  if negb found then ret (json_of_storage ∅)
  else
    let* parsed := file_json STORAGE_PATH in
    let* version := lift (get (Some parsed) "version") in
    let* profiles := lift (get (Some parsed) "profiles") in
    if negb (strict_eq version (Some (JNum 1)))
       || negb (String.eqb (typeof profiles) "object")
       || strict_eq profiles (Some JNull)
    then throw (Error ("Invalid storage format in " +:+ STORAGE_PATH))
    else ret parsed.

Definition saveStorage (storage : json) : M unit :=
  writeJsonFile STORAGE_PATH storage.

Definition string_field (v : jsval) : option string :=
  match v with
  | Some (JStr s) => Some s
  | _ => None
  end.

Definition readOpenAiAuthFromAuthFile (authFile : json) : result OAuth :=
  let? entry := get (Some authFile) PROVIDER_ID in
  if negb (truthy entry) then
    Throw (Error ("No auth entry for provider '" +:+ PROVIDER_ID +:+ "' in "
                  +:+ AUTH_PATH +:+ ". Run /connect first."))
  else
    let? type := get entry "type" in
    if negb (strict_eq type (Some (JStr "oauth"))) then
      Throw (Error ("Provider '" +:+ PROVIDER_ID +:+ "' auth is not oauth (got '"
                    +:+ String_of type +:+ "'). This plugin supports OAuth accounts."))
    else
      let? e_refresh := get entry "refresh" in
      let? e_access := get entry "access" in
      let? e_expires := get entry "expires" in
      match e_refresh, e_access, e_expires with
      | Some (JStr r), Some (JStr a), Some (JNum x) =>
          let? e_url := get entry "enterpriseUrl" in
          let? e_id := get entry "accountId" in
          Ok {| refresh := r; access := a; expires := x;
                enterpriseUrl := string_field e_url;
                accountId := string_field e_id |}
      | _, _, _ =>
          Throw (Error ("Invalid oauth payload for provider '" +:+ PROVIDER_ID
                        +:+ "' in " +:+ AUTH_PATH))
      end.

Definition base64UrlToUtf8 (input : string) : string :=
  let normalized := Js.replace_all "_" "/" (Js.replace_all "-" "+" input) in
  let padded :=
    normalized +:+ Js.slice ((String.length normalized + 3) mod 4) "===" in
  base64_utf8 padded.

Definition rcatch {A} (r : result A) (h : error -> result A) : result A :=
  match r with
  | Ok a => Ok a
  | Throw e => h e
  end.

Definition JSON_parse_or_throw (text : string) : result json :=
  match JSON_parse text with
  | Some j => Ok j
  | None => Throw (SyntaxError "JSON Parse error")
  end.

(** The argument is a string by its signature; the [load] action hands
    over whatever the vault file holds, and a value that is no string
    fails at [access.split]. *)
Definition extractEmailFromAccessToken (access : jsval) : result (option string) :=
  match access with
  | Some (JStr access) =>
      let parts := Js.split_char "." "" access in
      if (List.length parts <? 2)%nat then Ok None
      else
        rcatch
          (let payloadRaw := base64UrlToUtf8 (nth 1 parts "") in
           let? payload := JSON_parse_or_throw payloadRaw in
           let? profile := get (Some payload) EMAIL_CLAIM_KEY in
           let email := get_opt profile "email" in
           Ok (string_field email))
          (fun _ => Ok None)
  | v => Throw (TypeError ("access.split is not a function (access is " +:+ typeof v +:+ ")"))
  end.

(** Both arguments arrive as plain objects: [a] out of the vault file,
    [b] built by [readOpenAiAuthFromAuthFile] or missing. *)
Definition isSameOauth (a b : jsval) : result bool :=
  if negb (truthy b) then Ok false
  else
    let? a_id := get a "accountId" in
    let? both :=
      (if truthy a_id then let? b_id := get b "accountId" in Ok (truthy b_id)
       else Ok false) in
    if both : bool then
      let? b_id := get b "accountId" in Ok (strict_eq a_id b_id)
    else
      let? a_refresh := get a "refresh" in
      let? b_refresh := get b "refresh" in
      Ok (strict_eq a_refresh b_refresh).

(** *** The command hook *)

Record Input := {
  command : string;
  arguments : string;
}.

Inductive action := A_list | A_save | A_del | A_load | A_unknown.

(** Step 1 of the hook, "Normalize Action". *)
Definition normalize_action (rawSub : string) : action :=
  if String.eqb rawSub "" || String.eqb rawSub "list" then A_list
  else if String.eqb rawSub "save" then A_save
  else if String.eqb rawSub "del" then A_del
  else if String.eqb rawSub "load" then A_load
  else A_unknown.

Definition ensureActiveAuth : M OAuth :=
  try_catch
    (let* authFile := readJsonFile AUTH_PATH in
     lift (readOpenAiAuthFromAuthFile authFile))
    (fun _ => throw (Error "No active OpenAI login found. Run /connect first.")).

Definition loadStorageAndAuth : M (json * option OAuth) :=
  let* storage := loadStorage in
  let* activeOauth :=
    try_catch
      (let* auth := readJsonFile AUTH_PATH in
       let* entry := lift (get (Some auth) PROVIDER_ID) in
       if truthy entry then
         let* o := lift (readOpenAiAuthFromAuthFile auth) in ret (Some o)
       else ret None)
      (fun _ => ret None) in
  ret (storage, activeOauth).

(** [Object.keys(storage.profiles).sort((a, b) => a.localeCompare(b))] *)
Definition sorted_names (storage : json) : result (jsval * list string) :=
  let? profiles := get (Some storage) "profiles" in
  let? keys := Object_keys profiles in
  Ok (profiles, sort_names keys).

(** The number-or-name step shared by [del] and [load]: a token whose
    [parseInt] lies within [1 .. names.length] stands for the name at
    that position, any other token for itself. *)
Definition resolve_number (token : string) (names : list string) : string :=
  match Js.parseInt token with
  | Some asNum =>
      if (0 <? asNum)%Z && (asNum <=? Z.of_nat (List.length names))%Z
      then nth (Z.to_nat (asNum - 1)) names token
      else token
  | None => token
  end.

Definition list_entry (profiles : jsval) (activeOauth : option OAuth) (n : string)
  : result string :=
  let? p := get profiles n in
  let? active :=
    match activeOauth with
    | None => Ok false
    | Some o =>
        let? p_oauth := get p "oauth" in
        isSameOauth p_oauth (Some (json_of_oauth o))
    end in
  Ok (if active : bool then "[" +:+ n +:+ "]" else n).

Definition do_list : M unit :=
  let* (storage, activeOauth) := loadStorageAndAuth in
  let* (profiles, names) := lift (sorted_names storage) in
  (if (List.length names =? 0)%nat then
     showToast {| message := "No profiles. Use '/oai save <name>' to add one.";
                  variant := "info"; duration := Some 5000 |}
   else
     let* entries := lift (rmap (list_entry profiles activeOauth) names) in
     showToast {| message := "Profiles: " +:+ Js.join ", " entries
                             +:+ ". Use '/oai load <name>'.";
                  variant := "info"; duration := Some 8000 |});;
  set_parts [].

Definition with_email (text : string) (email : option string) : string :=
  match email with
  | Some e => if String.eqb e "" then text else text +:+ " (" +:+ e +:+ ")"
  | None => text
  end.

Definition do_save (argv : list string) : M unit :=
  let name := nth 1 argv "" in
  if String.eqb name "" then throw (Error "Usage: /oai save <name>")
  else
    let* oauth := ensureActiveAuth in
    if String.eqb (access oauth) "" || String.eqb (refresh oauth) "" then
      throw (Error "Active OpenAI auth seems invalid. Try /connect again.")
    else
      let* storage := loadStorage in
      let* profiles := lift (get (Some storage) "profiles") in
      let* existing := lift (get profiles name) in
      if truthy existing then
        throw (Error ("Profile '" +:+ name +:+ "' already exists. Use a different name."))
      else
        let* stamp := Date_now in
        let* profiles' :=
          lift (set profiles name
                    (json_of_profile {| name := name; oauth := oauth; savedAt := stamp |})) in
        let* storage' := lift (set (Some storage) "profiles" profiles') in
        saveStorage storage';;
        let* email := lift (extractEmailFromAccessToken (Some (JStr (access oauth)))) in
        showToast {| message := with_email ("Saved profile '" +:+ name +:+ "'") email;
                     variant := "success"; duration := None |};;
        set_parts [].

Definition do_del (argv : list string) : M unit :=
  let nameOrNum := nth 1 argv "" in
  if String.eqb nameOrNum "" then throw (Error "Usage: /oai del <name>")
  else
    let* storage := loadStorage in
    let* (profiles, names) := lift (sorted_names storage) in
    let targetName := resolve_number nameOrNum names in
    let* found := lift (get profiles targetName) in
    if negb (truthy found) then
      throw (Error ("Profile '" +:+ targetName +:+ "' not found."))
    else
      let* profiles' := lift (delete_prop profiles targetName) in
      let* storage' := lift (set (Some storage) "profiles" profiles') in
      saveStorage storage';;
      showToast {| message := "Removed profile '" +:+ targetName +:+ "'";
                   variant := "success"; duration := None |};;
      set_parts [].

Definition put (k : string) (v : jsval) (m : gmap string json) : gmap string json :=
  match v with
  | Some j => <[k := j]> m
  | None => m
  end.

(** The [body] of the [client.auth.set] call; a member whose value is
    [undefined] does not reach the host. *)
Definition auth_body (profile : jsval) : result (gmap string json) :=
  let? o1 := get profile "oauth" in
  let? p_refresh := get o1 "refresh" in
  let? o2 := get profile "oauth" in
  let? p_access := get o2 "access" in
  let? o3 := get profile "oauth" in
  let? p_expires := get o3 "expires" in
  let? o4 := get profile "oauth" in
  let? p_url := get o4 "enterpriseUrl" in
  Ok (put "enterpriseUrl" (if truthy p_url then p_url else None)
       (put "expires" p_expires
         (put "access" p_access
           (put "refresh" p_refresh {[ "type" := JStr "oauth" ]})))).

(** The selector step of [load]: from the sorted names to the profile
    found, or the "not found" error. *)
Definition select_profile (targetName : string) (storage : json)
  : result (string * jsval) :=
  let? (profiles, names) := sorted_names storage in
  let resolvedName := resolve_number targetName names in
  let? profile := get profiles resolvedName in
  if negb (truthy profile) then
    Throw (Error ("Profile '" +:+ resolvedName +:+ "' not found."))
  else Ok (resolvedName, profile).

Definition do_load (argv : list string) : M unit :=
  let targetName := nth 1 argv "" in
  if String.eqb targetName "" then throw (Error "Usage: /oai load <name>")
  else
    let* storage := loadStorage in
    let* (resolvedName, profile) := lift (select_profile targetName storage) in
    let* body := lift (auth_body profile) in
    auth_set PROVIDER_ID body;;
    let* p_oauth := lift (get profile "oauth") in
    let* p_access := lift (get p_oauth "access") in
    let* email := lift (extractEmailFromAccessToken p_access) in
    showToast {| message := with_email ("Active: " +:+ resolvedName) email;
                 variant := "success"; duration := None |};;
    set_parts [].

Definition do_unknown : M unit :=
  showToast {| message := "Unknown command. Available: list, save, load, del";
               variant := "error"; duration := Some 5000 |};;
  set_parts [].

(** The [catch] boundary: the error goes to a toast, the chat stays
    empty. *)
Definition on_error (e : error) : M unit :=
  showToast {| message := "Error: " +:+ error_message e;
               variant := "error"; duration := None |};;
  set_parts [].

Definition normalize_command (c : string) : string :=
  Js.toLowerCase (Js.strip_slash (Js.trim c)).

(** The body of the [try] block. *)
Definition run_action (action : action) (argv : list string) : M unit :=
  match action with
  | A_list => do_list
  | A_save => do_save argv
  | A_del => do_del argv
  | A_load => do_load argv
  | A_unknown => do_unknown
  end.

(** ["command.execute.before"] *)
Definition command_execute_before (input : Input) : M unit :=
  let cmd := normalize_command (command input) in
  if negb (String.eqb cmd COMMAND) then ret tt
  else
    let argv := parseArgs (arguments input) in
    let rawSub := Js.toLowerCase (nth 0 argv "") in
    let action := normalize_action rawSub in
    try_catch (run_action action argv) on_error.

End Plugin.

(** ** The older revision

    The revision with the menu-style verbs ([help], [switch], [list],
    [current], [save], [d]/[rm]/[remove], [use]) shares every helper with
    the newest one.  Its hook differs in four places: it announces
    itself with a toast before looking at the command, it has no
    name-collision check in [save], it has no "unknown command" branch
    (any other first token is taken as a selector) and some messages are
    worded differently. *)

Module Older.
Section Hook.

Context (STORAGE_PATH AUTH_PATH : string).
Context (localeCompare : string -> string -> Z).
Context (base64_utf8 : string -> string).
Context (JSON_parse : string -> option json).

(** "Backwards-compatible aliases." *)
Definition normalize_sub (sub : string) : string :=
  if String.eqb sub "help" then ""
  else if String.eqb sub "switch" then ""
  else if String.eqb sub "list" then "_list"
  else if String.eqb sub "current" then "_current"
  else sub.

Definition do_list : M unit :=
  let* (storage, activeOauth) := loadStorageAndAuth STORAGE_PATH AUTH_PATH in
  let* (profiles, names) := lift (sorted_names localeCompare storage) in
  (if (List.length names =? 0)%nat then
     showToast {| message := "No profiles. Use '/oai save <name>' to add one.";
                  variant := "info"; duration := Some 5000 |}
   else
     let* entries := lift (rmap (list_entry profiles activeOauth) names) in
     showToast {| message := "Profiles: " +:+ Js.join ", " entries
                             +:+ ". Use '/oai <name>' to switch.";
                  variant := "info"; duration := Some 8000 |});;
  set_parts [].

Definition do_save (argv : list string) : M unit :=
  let name := nth 1 argv "" in
  if String.eqb name "" then throw (Error "Usage: /oai save <profile_name>")
  else
    let* oauth := ensureActiveAuth AUTH_PATH in
    if String.eqb (access oauth) "" || String.eqb (refresh oauth) "" then
      throw (Error "Active OpenAI auth seems invalid (missing tokens). Try /connect again.")
    else
      let* storage := loadStorage STORAGE_PATH in
      let* profiles := lift (get (Some storage) "profiles") in
      let* stamp := Date_now in
      let* profiles' :=
        lift (set profiles name
                  (json_of_profile {| name := name; oauth := oauth; savedAt := stamp |})) in
      let* storage' := lift (set (Some storage) "profiles" profiles') in
      saveStorage STORAGE_PATH storage';;
      let* email :=
        lift (extractEmailFromAccessToken base64_utf8 JSON_parse
                (Some (JStr (access oauth)))) in
      showToast {| message := with_email ("Saved profile '" +:+ name +:+ "'") email;
                   variant := "success"; duration := None |};;
      set_parts [].

Definition do_remove (argv : list string) : M unit :=
  let selector := nth 1 argv "" in
  if String.eqb selector "" then throw (Error "Usage: /oai rm <name|number>")
  else
    let* storage := loadStorage STORAGE_PATH in
    let* (profiles, names) := lift (sorted_names localeCompare storage) in
    let name := resolve_number selector names in
    let* found := lift (get profiles name) in
    if negb (truthy found) then
      throw (Error ("Profile '" +:+ name +:+ "' not found."))
    else
      let* profiles' := lift (delete_prop profiles name) in
      let* storage' := lift (set (Some storage) "profiles" profiles') in
      saveStorage STORAGE_PATH storage';;
      showToast {| message := "Removed profile '" +:+ name +:+ "'";
                   variant := "success"; duration := None |};;
      set_parts [].

(** "USE (ACTIVATE)": the selector is the first token itself, also after
    [use] (the [argv.shift()] there changes an array that is not read
    again). *)
Definition do_use (selector : string) : M unit :=
  if String.eqb selector "" then throw (Error "Usage: /oai <name|number>")
  else
    let* storage := loadStorage STORAGE_PATH in
    let* (profiles, names) := lift (sorted_names localeCompare storage) in
    let name := resolve_number selector names in
    let* profile := lift (get profiles name) in
    if negb (truthy profile) then
      throw (Error ("Profile '" +:+ name +:+ "' not found. Use /oai to list."))
    else
      let* body := lift (auth_body profile) in
      auth_set PROVIDER_ID body;;
      let* p_oauth := lift (get profile "oauth") in
      let* p_access := lift (get p_oauth "access") in
      let* email := lift (extractEmailFromAccessToken base64_utf8 JSON_parse p_access) in
      showToast {| message := with_email ("Active: " +:+ name) email;
                   variant := "success"; duration := None |};;
      set_parts [].

Definition debug_toast (input : Input) : toast :=
  {| message := "OpenAIMultiAccountPlugin: command.execute.before called for command: "
                +:+ command input;
     variant := "info"; duration := Some 1000 |}.

Definition command_execute_before (input : Input) : M unit :=
  showToast (debug_toast input);;
  let cmd := normalize_command (command input) in
  if negb (String.eqb cmd COMMAND) then ret tt
  else
    let argv := parseArgs (arguments input) in
    let sub := nth 0 argv "" in
    let normalizedSub := normalize_sub sub in
    try_catch
      (if String.eqb normalizedSub "" || String.eqb normalizedSub "_list" then do_list
       else if String.eqb normalizedSub "save" then do_save argv
       else if String.eqb normalizedSub "d" || String.eqb normalizedSub "rm"
               || String.eqb normalizedSub "remove" then do_remove argv
       else do_use normalizedSub)
      on_error.

End Hook.
End Older.

(** ** The first revision

    The revision shipped under [plugins/] answers in the chat: every
    path assigns a text to [output.parts], and the [catch] boundary
    rethrows.  It compares the command with the keyword as it is, has no
    name-collision check, takes any other first token as a selector, and
    reads a selector as a number only when the token equals the printed
    form of its number.  Its [isSameOauth] declares the second argument
    as required and has no guard for a missing one.

    Two more pieces of the runtime appear: [canonical_number s] is
    [Number.isFinite(Number(s)) && String(Number(s)) === s], and
    [Date_toISOString v] is [new Date(v).toISOString()], [None] when it
    throws. *)

Module First.

Definition isSameOauth (a b : jsval) : result bool :=
  let? a_id := get a "accountId" in
  let? both :=
    (if truthy a_id then let? b_id := get b "accountId" in Ok (truthy b_id)
     else Ok false) in
  if both : bool then
    let? b_id := get b "accountId" in Ok (strict_eq a_id b_id)
  else
    let? a_refresh := get a "refresh" in
    let? b_refresh := get b "refresh" in
    Ok (strict_eq a_refresh b_refresh).

Definition assertNonEmpty (value label : string) : result unit :=
  if String.eqb (Js.trim value) "" then Throw (Error (label +:+ " must be non-empty"))
  else Ok tt.

Definition newline : string := String (ascii_of_nat 10) EmptyString.

(** [names[asNumber - 1]] for a token that equals the printed form of
    its number: there is an element only at an integer index, and such a
    token denotes an integer index only when it is made of digits. *)
Definition names_at_number (selector : string) (names : list string) : option string :=
  match Js.digits_only 0 false selector with
  | Some n => if (0 <? n)%Z then names !! Z.to_nat (n - 1) else None
  | None => None
  end.

Section Hook.

Context (STORAGE_PATH AUTH_PATH : string).
Context (localeCompare : string -> string -> Z).
Context (base64_utf8 : string -> string).
Context (JSON_parse : string -> option json).
Context (canonical_number : string -> bool).
Context (Date_toISOString : jsval -> option string).

Definition toISOString (v : jsval) : result string :=
  match Date_toISOString v with
  | Some s => Ok s
  | None => Throw (Error "Invalid time value")
  end.

Definition email_part (before_ after_ : string) (email : option string) : string :=
  match email with
  | Some e => if String.eqb e "" then "" else before_ +:+ e +:+ after_
  | None => ""
  end.

Definition formatProfileLine (p : jsval) : result string :=
  let? o1 := get p "oauth" in
  let? p_expires := get o1 "expires" in
  let? exp := toISOString p_expires in
  let? o2 := get p "oauth" in
  let? p_id := get o2 "accountId" in
  let acct := if truthy p_id then " accountId=" +:+ String_of p_id else "" in
  let? o3 := get p "oauth" in
  let? p_access := get o3 "access" in
  let? email := extractEmailFromAccessToken base64_utf8 JSON_parse p_access in
  let? p_name := get p "name" in
  let? p_savedAt := get p "savedAt" in
  Ok ("- " +:+ String_of p_name +:+ email_part " email=" "" email +:+ " (expires=" +:+ exp
      +:+ acct +:+ ", savedAt=" +:+ String_of p_savedAt +:+ ")").

Definition menu_line (profiles activeOauth : jsval) (idx : nat) (name : string)
  : result string :=
  let? p := get profiles name in
  let? p_oauth := get p "oauth" in
  let? same := isSameOauth p_oauth activeOauth in
  let? o2 := get p "oauth" in
  let? p_access := get o2 "access" in
  let? email := extractEmailFromAccessToken base64_utf8 JSON_parse p_access in
  Ok ((if same : bool then "*" else " ") +:+ " " +:+ pretty (idx + 1)%nat +:+ ") " +:+ name
      +:+ email_part " (" ")" email).

Fixpoint rmapi {A B} (f : nat -> A -> result B) (i : nat) (l : list A)
  : result (list B) :=
  match l with
  | [] => Ok []
  | x :: l' =>
      let? y := f i x in
      let? ys := rmapi f (S i) l' in
      Ok (y :: ys)
  end.

Definition buildMenuText (names : list string) (profiles activeOauth : jsval)
  : result string :=
  let? lines := rmapi (menu_line profiles activeOauth) 0 names in
  Ok (Js.join newline
        ["OpenAI accounts:";
         if (List.length lines =? 0)%nat then "(no saved profiles)"
         else Js.join newline lines;
         "";
         "Actions:";
         "- /oai <number|name>        activate";
         "- /oai d <number>           delete";
         "- /oai save <name>          save current OpenAI OAuth"]).

Definition list_line (profiles activeOauth : jsval) (n : string) : result string :=
  let? p := get profiles n in
  let? p_oauth := get p "oauth" in
  let? same := isSameOauth p_oauth activeOauth in
  let? line := formatProfileLine p in
  Ok ((if same : bool then "* " else "  ") +:+ line).

Definition readActiveOauth : M OAuth :=
  let* authFile := readJsonFile AUTH_PATH in
  lift (readOpenAiAuthFromAuthFile AUTH_PATH authFile).

Definition do_menu : M unit :=
  let* storage := loadStorage STORAGE_PATH in
  let* activeOauth := readActiveOauth in
  let* (profiles, names) := lift (sorted_names localeCompare storage) in
  let* text := lift (buildMenuText names profiles (Some (json_of_oauth activeOauth))) in
  set_parts [text].

Definition do_list : M unit :=
  let* storage := loadStorage STORAGE_PATH in
  let* activeOauth := readActiveOauth in
  let* (profiles, names) := lift (sorted_names localeCompare storage) in
  let* lines :=
    lift (rmap (list_line profiles (Some (json_of_oauth activeOauth))) names) in
  set_parts [if (List.length lines =? 0)%nat then "No saved profiles."
             else Js.join newline ("Saved OpenAI profiles:" :: lines)].

Definition do_current : M unit :=
  let* oauth := readActiveOauth in
  let* exp := lift (toISOString (Some (JNum (expires oauth)))) in
  set_parts ["Active OpenAI auth: oauth (expires=" +:+ exp
             +:+ match accountId oauth with
                 | Some i => if String.eqb i "" then "" else ", accountId=" +:+ i
                 | None => ""
                 end +:+ ")"].

Definition do_save (argv : list string) : M unit :=
  let name := nth 1 argv "" in
  lift (assertNonEmpty name "Profile name");;
  let* oauth := readActiveOauth in
  let* storage := loadStorage STORAGE_PATH in
  let* profiles := lift (get (Some storage) "profiles") in
  let* stamp := Date_now in
  let* profiles' :=
    lift (set profiles name
              (json_of_profile {| name := name; oauth := oauth; savedAt := stamp |})) in
  let* storage' := lift (set (Some storage) "profiles" profiles') in
  saveStorage STORAGE_PATH storage';;
  set_parts ["Saved profile '" +:+ name +:+ "' to " +:+ STORAGE_PATH];;
  let* email :=
    lift (extractEmailFromAccessToken base64_utf8 JSON_parse (Some (JStr (access oauth)))) in
  showToast {| message := with_email ("OpenAI profile saved: " +:+ name) email;
               variant := "success"; duration := None |}.

Definition falsy_name (name : option string) : bool :=
  match name with
  | Some n => String.eqb n ""
  | None => true
  end.

Definition do_remove (argv : list string) : M unit :=
  let selector := nth 1 argv "" in
  lift (assertNonEmpty selector "Profile number");;
  let* storage := loadStorage STORAGE_PATH in
  let* (profiles, names) := lift (sorted_names localeCompare storage) in
  let name :=
    if canonical_number selector then names_at_number selector names else None in
  if falsy_name name then
    throw (Error ("Invalid selection '" +:+ selector +:+ "'. Use: /oai"))
  else
    let name := default "" name in
    let* found := lift (get profiles name) in
    if negb (truthy found) then
      throw (Error ("Unknown profile '" +:+ name +:+ "'. Use: /oai"))
    else
      let* profiles' := lift (delete_prop profiles name) in
      let* storage' := lift (set (Some storage) "profiles" profiles') in
      saveStorage STORAGE_PATH storage';;
      set_parts ["Removed profile '" +:+ name +:+ "'"];;
      showToast {| message := "OpenAI profile removed: " +:+ name;
                   variant := "success"; duration := None |}.

(** "Activate": the selector is the first token itself, also after
    [use] (the [argv.shift()] there changes an array that is not read
    again). *)
Definition do_activate (selector : string) : M unit :=
  lift (assertNonEmpty selector "Profile name or number");;
  let* storage := loadStorage STORAGE_PATH in
  let* (profiles, names) := lift (sorted_names localeCompare storage) in
  let name :=
    if canonical_number selector then names_at_number selector names
    else Some selector in
  if falsy_name name then
    throw (Error ("Invalid selection '" +:+ selector +:+ "'. Use: /oai"))
  else
    let name := default "" name in
    let* profile := lift (get profiles name) in
    if negb (truthy profile) then
      throw (Error ("Unknown profile '" +:+ name +:+ "'. Use: /oai"))
    else
      let* body := lift (auth_body profile) in
      auth_set PROVIDER_ID body;;
      let* p_oauth := lift (get profile "oauth") in
      let* p_access := lift (get p_oauth "access") in
      let* email := lift (extractEmailFromAccessToken base64_utf8 JSON_parse p_access) in
      set_parts [match email with
                 | Some e =>
                     if String.eqb e "" then
                       "Switched active OpenAI account to profile '" +:+ name +:+ "'"
                     else "OpenAI active: " +:+ e
                 | None => "Switched active OpenAI account to profile '" +:+ name +:+ "'"
                 end];;
      showToast {| message :=
                     match email with
                     | Some e =>
                         if String.eqb e "" then "OpenAI active profile: " +:+ name
                         else "OpenAI active: " +:+ e
                     | None => "OpenAI active profile: " +:+ name
                     end;
                   variant := "success"; duration := None |}.

(** The body of the [try] block. *)
Definition run_sub (normalizedSub : string) (argv : list string) : M unit :=
  if String.eqb normalizedSub "" then do_menu
  else if String.eqb normalizedSub "_list" then do_list
  else if String.eqb normalizedSub "_current" then do_current
  else if String.eqb normalizedSub "save" then do_save argv
  else if String.eqb normalizedSub "d" || String.eqb normalizedSub "rm"
          || String.eqb normalizedSub "remove" then do_remove argv
  else do_activate normalizedSub.

(** The [catch] boundary: the message goes to the chat, a toast is
    shown, and the error is thrown again. *)
Definition on_error (e : error) : M unit :=
  set_parts ["OpenAI multi-account error: " +:+ error_message e];;
  showToast {| message := "OpenAI multi-account error"; variant := "error";
               duration := None |};;
  throw e.

Definition command_execute_before (input : Input) : M unit :=
  if negb (String.eqb (command input) COMMAND) then ret tt
  else
    let argv := parseArgs (arguments input) in
    let sub := nth 0 argv "" in
    let normalizedSub := Older.normalize_sub sub in
    try_catch (run_sub normalizedSub argv) on_error.

End Hook.
End First.

(** ** The resolution rule in the words of the specification

    "If [token] parses as a positive integer literal equal to its own
    round-tripped string form, it is a 1-based ordinal index into
    [orderedNames]; otherwise [token] is taken literally as a name.
    Fails with [InvalidSelectionError] if the ordinal is out of range or
    the literal name is not present in the vault."  [None] stands for the
    failure. *)



(** The error names of the specification, as the messages the plugin
    throws. *)
Definition NameTakenError (name : string) : error :=
  Error ("Profile '" +:+ name +:+ "' already exists. Use a different name.").

Definition CorruptError (STORAGE_PATH : string) : error :=
  Error ("Invalid storage format in " +:+ STORAGE_PATH).

Definition InvalidSelectionError (name : string) : error :=
  Error ("Profile '" +:+ name +:+ "' not found.").

Definition UnknownVerb_toast : toast :=
  {| message := "Unknown command. Available: list, save, load, del";
     variant := "error"; duration := Some 5000 |}.

Definition error_toast (e : error) : toast :=
  {| message := "Error: " +:+ error_message e; variant := "error"; duration := None |}.

(** ** An instance to run the examples on

    Byte order stands in for the collation (they agree on lower-case
    ASCII names), a decoder of well-formed base64 for [Buffer], and a
    parser that knows the two payloads the examples use for
    [JSON.parse]. *)

Module Demo.

Definition STORAGE_PATH : string := "/home/u/.config/opencode/openai-accounts.json".
Definition AUTH_PATH : string := "/home/u/.local/share/opencode/auth.json".

Definition localeCompare (a b : string) : Z :=
  match String.compare a b with
  | Lt => -1
  | Eq => 0
  | Gt => 1
  end.

Definition sextet (c : ascii) : option N :=
  let n := N_of_ascii c in
  if ((65 <=? n) && (n <=? 90))%N then Some (n - 65)%N
  else if ((97 <=? n) && (n <=? 122))%N then Some (n - 71)%N
  else if ((48 <=? n) && (n <=? 57))%N then Some (n + 4)%N
  else if (n =? 43)%N then Some 62%N
  else if (n =? 47)%N then Some 63%N
  else None.

Definition flush (bits : N) (count : nat) : string :=
  match count with
  | 2%nat => String (ascii_of_N (bits / 16)) EmptyString
  | 3%nat => String (ascii_of_N (bits / 1024))
               (String (ascii_of_N ((bits / 4) mod 256)) EmptyString)
  | _ => EmptyString
  end.

(** [bits] holds the [count] sextets read since the last full group. *)
Fixpoint decode (bits : N) (count : nat) (s : string) : string :=
  match s with
  | EmptyString => flush bits count
  | String c s' =>
      match sextet c with
      | None => flush bits count
      | Some v =>
          let bits' := (bits * 64 + v)%N in
          match count with
          | 3%nat =>
              String (ascii_of_N (bits' / 65536))
                (String (ascii_of_N ((bits' / 256) mod 256))
                  (String (ascii_of_N (bits' mod 256)) (decode 0 0 s')))
          | _ => decode bits' (S count) s'
          end
      end
  end.

Definition base64_utf8 (s : string) : string := decode 0 0 s.

Definition dq : string := String (ascii_of_nat 34) EmptyString.

(** [{"https://api.openai.com/profile":{"email":"ann@example.com"}}] *)
Definition email_payload_text : string :=
  "{" +:+ dq +:+ "https://api.openai.com/profile" +:+ dq +:+ ":{" +:+ dq +:+ "email"
  +:+ dq +:+ ":" +:+ dq +:+ "ann@example.com" +:+ dq +:+ "}}".

Definition email_payload : json :=
  JObj {[ EMAIL_CLAIM_KEY := JObj {[ "email" := JStr "ann@example.com" ]} ]}.

(** [{"sub":"u1"}] *)
Definition plain_payload_text : string :=
  "{" +:+ dq +:+ "sub" +:+ dq +:+ ":" +:+ dq +:+ "u1" +:+ dq +:+ "}".

Definition plain_payload : json := JObj {[ "sub" := JStr "u1" ]}.

Definition JSON_parse (text : string) : option json :=
  if String.eqb text email_payload_text then Some email_payload
  else if String.eqb text plain_payload_text then Some plain_payload
  else None.

(** A token whose payload carries the e-mail claim, one whose payload
    does not, and one whose payload is no JSON. *)
Definition token_ann : string :=
  "hdr.eyJodHRwczovL2FwaS5vcGVuYWkuY29tL3Byb2ZpbGUiOnsiZW1haWwiOiJhbm5AZXhhbXBsZS5jb20ifX0.sig".
Definition token_plain : string := "hdr.eyJzdWIiOiJ1MSJ9.sig".
Definition token_broken : string := "hdr.bm90IGpzb24.sig".

Definition cred (r a : string) (id : option string) : OAuth :=
  {| refresh := r; access := a; expires := 1000; enterpriseUrl := None; accountId := id |}.

Definition profile (n r a : string) (id : option string) : StoredOAuthProfile :=
  {| name := n; oauth := cred r a id; savedAt := "2026-01-01T00:00:00.000Z" |}.

(** A vault with the profiles [a], [b] and [c]. *)
Definition profiles_abc : gmap string json :=
  <["a" := json_of_profile (profile "a" "ra" token_ann None)]>
    (<["b" := json_of_profile (profile "b" "rb" token_plain None)]>
      (<["c" := json_of_profile (profile "c" "rc" "opaque" None)]> ∅)).


(** A vault whose only profile is named [0]. *)
Definition profiles_0 : gmap string json :=
  {[ "0" := json_of_profile (profile "0" "r0" "opaque" None) ]}.

Definition live_entry (o : OAuth) : json :=
  match json_of_oauth o with
  | JObj m => JObj (<["type" := JStr "oauth"]> m)
  | j => j
  end.

(** The host's file with [o] as the live credential. *)
Definition auth_file (o : OAuth) : json := JObj {[ PROVIDER_ID := live_entry o ]}.

Definition world_of (vault : option content) (auth : option content) : world :=
  {| files :=
       match vault with Some c => <[STORAGE_PATH := c]> | None => id end
         (match auth with Some c => <[AUTH_PATH := c]> ∅ | None => ∅ end);
     parts := ["left over"];
     now := "2026-02-02T00:00:00.000Z";
     trace := [] |}.

Definition world_abc : world :=
  world_of (Some (Holds (json_of_storage profiles_abc)))
           (Some (Holds (auth_file (cred "rb" token_plain None)))).

Definition run (input : Input) : M unit :=
  command_execute_before STORAGE_PATH AUTH_PATH localeCompare base64_utf8 JSON_parse input.

Definition run_older (input : Input) : M unit :=
  Older.command_execute_before STORAGE_PATH AUTH_PATH localeCompare base64_utf8
    JSON_parse input.

(** Right on tokens without a fraction or an exponent. *)
Definition canonical_number (s : string) : bool :=
  match Js.parseInt s with
  | Some n => String.eqb (pretty n) s
  | None => false
  end.

(** The examples print no date. *)
Definition Date_toISOString (v : jsval) : option string := None.

Definition run_first (input : Input) : M unit :=
  First.command_execute_before STORAGE_PATH AUTH_PATH localeCompare base64_utf8
    JSON_parse canonical_number Date_toISOString input.

Definition oai (args : string) : Input := {| command := "oai"; arguments := args |}.

End Demo.

(** ** Vocabulary of the statements *)

(** The account identifier a credential carries: a missing or empty
    [accountId] is none. *)
Definition stable_id (o : OAuth) : option string :=
  match accountId o with
  | Some i => if String.eqb i "" then None else Some i
  | None => None
  end.

(** Account identifiers when both sides carry one, refresh tokens
    otherwise. *)
Definition active_rule (a b : OAuth) : bool :=
  match stable_id a, stable_id b with
  | Some i, Some j => String.eqb i j
  | _, _ => String.eqb (refresh a) (refresh b)
  end.

(** The e-mail claim of a decoded payload. *)
Definition email_claim (payload : json) : option string :=
  match payload with
  | JObj m =>
      match m !! EMAIL_CLAIM_KEY with
      | Some (JObj profile) =>
          match profile !! "email" with
          | Some (JStr e) => Some e
          | _ => None
          end
      | _ => None
      end
  | _ => None
  end.

(** A computation that shows no toast, and one that either returns
    having shown exactly one toast and emptied [output.parts] or throws
    having shown none. *)
Definition silent {A} (m : M A) : Prop :=
  forall w, toasts (m w).2 = toasts w.

Definition toasts_once (m : M unit) : Prop :=
  forall w,
    match m w with
    | (Ok _, w') => exists t, toasts w' = (toasts w ++ [t])%list
    | (Throw _, w') => toasts w' = toasts w
    end.

Definition reports (m : M unit) : Prop :=
  forall w,
    match m w with
    | (Ok _, w') => parts w' = [] /\ exists t, toasts w' = (toasts w ++ [t])%list
    | (Throw _, w') => toasts w' = toasts w
    end.

(** The validation [loadStorage] applies to what it parsed. *)
Definition check_storage (STORAGE_PATH : string) (parsed : json) : result json :=
  let? version := get (Some parsed) "version" in
  let? profiles := get (Some parsed) "profiles" in
  if negb (strict_eq version (Some (JNum 1)))
     || negb (String.eqb (typeof profiles) "object")
     || strict_eq profiles (Some JNull)
  then Throw (CorruptError STORAGE_PATH)
  else Ok parsed.

(** What [load] hands to the host for a stored credential. *)
Definition live_body (o : OAuth) : gmap string json :=
  let base : gmap string json :=
    <["expires" := JNum (expires o)]>
      (<["access" := JStr (access o)]>
        (<["refresh" := JStr (refresh o)]> {[ "type" := JStr "oauth" ]})) in
  match enterpriseUrl o with
  | Some u => if String.eqb u "" then base else <["enterpriseUrl" := JStr u]> base
  | None => base
  end.

(** The four traces of the probes and reads an action starts with. *)
Definition read_vault (STORAGE_PATH : string) (w : world) : world :=
  emit (FileJson STORAGE_PATH) (emit (FileExists STORAGE_PATH) w).

Definition read_auth (AUTH_PATH : string) (w : world) : world :=
  emit (FileJson AUTH_PATH) (emit (FileExists AUTH_PATH) w).

(** A computation whose only traces are file probes and reads: it
    writes no file, shows no toast, sets no credential and leaves
    [output.parts] alone. *)
Definition is_probe (e : event) : Prop :=
  match e with
  | FileExists _ | FileJson _ => True
  | _ => False
  end.

Definition emit_all (evs : list event) (w : world) : world :=
  {| files := files w; parts := parts w; now := now w; trace := (trace w ++ evs)%list |}.

Definition probes_only {A} (m : M A) : Prop :=
  forall w, exists evs, (m w).2 = emit_all evs w /\ Forall is_probe evs.


(** ** Vocabulary of the further properties *)

(** A string without white space, and the characters of a string that
    are no white space, in order. *)
Fixpoint blank_free (s : string) : bool :=
  match s with
  | EmptyString => true
  | String c s' => negb (Js.is_space c) && blank_free s'
  end.

Fixpoint without_blanks (s : string) : string :=
  match s with
  | EmptyString => EmptyString
  | String c s' => if Js.is_space c then without_blanks s' else String c (without_blanks s')
  end.

(** A token as [parseArgs] produces them. *)
Definition is_token (t : string) : Prop := t <> "" /\ blank_free t = true.

(** The files as the writes among [evs] leave them. *)
Definition apply_event (fs : gmap string content) (e : event) : gmap string content :=
  match e with
  | FileWrite p d => <[p := Holds d]> fs
  | _ => fs
  end.

Definition replay (evs : list event) (fs : gmap string content) : gmap string content :=
  foldl apply_event fs evs.

(** A storage that passes the validation of [loadStorage]. *)
Definition valid_storage (s : json) : Prop :=
  exists top profiles : gmap string json,
    s = JObj top /\ top !! "version" = Some (JNum 1) /\
    top !! "profiles" = Some (JObj profiles).

(** A computation all of whose outside calls satisfy [P], whose writes
    are the only changes to the files, and whose result, when it
    returns, satisfies [Q]. *)
Definition emits {A} (P : event -> Prop) (Q : A -> Prop) (m : M A) : Prop :=
  forall w, exists evs,
    trace (m w).2 = (trace w ++ evs)%list /\ Forall P evs /\
    files (m w).2 = replay evs (files w) /\ now (m w).2 = now w /\
    match (m w).1 with
    | Ok a => Q a
    | Throw _ => True
    end.

(** The outside calls an action may make: every action may probe and
    read the vault file and show toasts; only [list] and [save] look at
    the host's file; only [save] and [del] write, and then a valid
    storage to the vault file; only [load] sets a credential, and then
    that of the provider. *)
Definition action_event (STORAGE_PATH AUTH_PATH : string) (a : action) (e : event) : Prop :=
  match e with
  | FileExists p | FileJson p =>
      p = STORAGE_PATH \/ (p = AUTH_PATH /\ (a = A_list \/ a = A_save))
  | FileWrite p d => (a = A_save \/ a = A_del) /\ p = STORAGE_PATH /\ valid_storage d
  | ShowToast _ => True
  | AuthSet id _ => a = A_load /\ id = PROVIDER_ID
  end.

(** The names every object inherits from [Object.prototype].  The
    values of the embedding have their own members only, so a statement
    about a name looked up and not found is a statement about the names
    outside this list. *)
Definition inherited : list string :=
  ["constructor"; "__proto__"; "hasOwnProperty"; "isPrototypeOf"; "propertyIsEnumerable";
   "toLocaleString"; "toString"; "valueOf"; "__defineGetter__"; "__defineSetter__";
   "__lookupGetter__"; "__lookupSetter__"].

(** Whether [String(v)] is the text [String_of] gives.  The conversion
    of an object calls its [toString]: an object read from JSON with a
    member of that name of its own has no function there, and the
    conversion throws; an integer prints digit by digit as long as it
    is a safe one. *)
Definition stringifies (v : jsval) : bool :=
  match v with
  | Some (JObj m) => bool_decide (m !! "toString" = None)
  | Some (JNum n) => (Z.abs n <=? 9007199254740991)%Z
  | _ => true
  end.

(** What [loadStorage] finds in a world: the top-level members and the
    profiles of a valid vault file, those of the empty vault when there
    is no file. *)
Definition vault_holds (STORAGE_PATH : string) (w : world)
    (top profiles : gmap string json) : Prop :=
  match files w !! STORAGE_PATH with
  | None => top = <["version" := JNum 1]> (<["profiles" := JObj ∅]> ∅) /\ profiles = ∅
  | Some (Holds j) =>
      j = JObj top /\ top !! "version" = Some (JNum 1) /\
      top !! "profiles" = Some (JObj profiles)
  | Some Unparsable => False
  end.

(** The probe of the vault file, and the read that follows it when the
    file is there. *)
Definition vault_probes (STORAGE_PATH : string) (w : world) : list event :=
  match files w !! STORAGE_PATH with
  | None => [FileExists STORAGE_PATH]
  | Some _ => [FileExists STORAGE_PATH; FileJson STORAGE_PATH]
  end.

(** The live credential of a world: what [readOpenAiAuthFromAuthFile]
    makes of the host's file, if the file is there, parses and is
    accepted. *)
Definition live_credential (AUTH_PATH : string) (w : world) : option OAuth :=
  match files w !! AUTH_PATH with
  | Some (Holds auth) =>
      match readOpenAiAuthFromAuthFile AUTH_PATH auth with
      | Ok o => Some o
      | Throw _ => None
      end
  | _ => None
  end.

(** The storage with its profiles replaced. *)
Definition with_profiles (top profiles : gmap string json) : json :=
  JObj (<["profiles" := JObj profiles]> top).

(** Whether the character [c] occurs in [s]. *)
Fixpoint occurs (c : ascii) (s : string) : bool :=
  match s with
  | EmptyString => false
  | String x s' => Ascii.eqb x c || occurs c s'
  end.

(** The outside calls any revision of the hook may make: probes and
    reads of the two files, writes of a valid storage to the vault file,
    toasts, and credential updates for the provider. *)
Definition revision_event (STORAGE_PATH AUTH_PATH : string) (e : event) : Prop :=
  match e with
  | FileExists p | FileJson p => p = STORAGE_PATH \/ p = AUTH_PATH
  | FileWrite p d => p = STORAGE_PATH /\ valid_storage d
  | ShowToast _ => True
  | AuthSet id _ => id = PROVIDER_ID
  end.

(** A string of ASCII characters: on these the byte strings of the
    embedding and the strings of the runtime are the same, character by
    character, and so are their white space, their lower case and their
    lengths. *)
Fixpoint ascii_only (s : string) : bool :=
  match s with
  | EmptyString => true
  | String c s' => (nat_of_ascii c <? 128)%nat && ascii_only s'
  end.

(** * Properties *)

(** ** Reading the members of a stored credential *)

Lemma lookup_opt_field k k' v m :
  opt_field k v m !! k' =
  if decide (k = k') then
    match v with Some s => Some (JStr s) | None => m !! k' end
  else m !! k'.
Proof.
  unfold opt_field. destruct v; case_decide; subst; simplify_map_eq; done.
Qed.

Lemma oauth_members (o : OAuth) :
  exists m, json_of_oauth o = JObj m /\
    m !! "refresh" = Some (JStr (refresh o)) /\
    m !! "access" = Some (JStr (access o)) /\
    m !! "expires" = Some (JNum (expires o)) /\
    m !! "enterpriseUrl" = JStr <$> enterpriseUrl o /\
    m !! "accountId" = JStr <$> accountId o.
Proof.
  eexists. split; [reflexivity|].
  rewrite !lookup_opt_field.
  repeat split; repeat case_decide; try discriminate;
    simplify_map_eq; try done;
    destruct (enterpriseUrl o), (accountId o); done.
Qed.

(** ** The equality rule *)

Lemma isSameOauth_credentials (a b : OAuth) :
  isSameOauth (Some (json_of_oauth a)) (Some (json_of_oauth b)) = Ok (active_rule a b).
Proof.
  destruct (oauth_members a) as (ma & -> & Har & _ & _ & _ & Hai).
  destruct (oauth_members b) as (mb & -> & Hbr & _ & _ & _ & Hbi).
  unfold isSameOauth, active_rule, stable_id. simpl.
  rewrite Hai, Hbi, Har, Hbr.
  destruct (accountId a) as [i|], (accountId b) as [j|]; simpl; try done;
    destruct (String.eqb_spec i ""); simpl; try done;
    destruct (String.eqb_spec j ""); simpl; done.
Qed.

(** On two credentials the first revision applies the same rule. *)
Lemma first_isSameOauth_credentials (a b : OAuth) :
  First.isSameOauth (Some (json_of_oauth a)) (Some (json_of_oauth b))
  = Ok (active_rule a b).
Proof.
  rewrite <- isSameOauth_credentials. unfold isSameOauth.
  destruct (oauth_members b) as (mb & -> & _). reflexivity.
Qed.

(** C6.  For every pair of credentials the equality rule compares the
    account identifiers when both sides carry one and the refresh tokens
    otherwise; two credentials with the same account identifier and
    different refresh tokens are therefore equal under the rule.  The
    function of the first revision gives the same answers. *)
Theorem isSameOauth_prefers_account_id (a b : OAuth) :
  (forall i j, stable_id a = Some i -> stable_id b = Some j ->
     isSameOauth (Some (json_of_oauth a)) (Some (json_of_oauth b))
     = Ok (String.eqb i j)) /\
  (stable_id a = None \/ stable_id b = None ->
     isSameOauth (Some (json_of_oauth a)) (Some (json_of_oauth b))
     = Ok (String.eqb (refresh a) (refresh b))) /\
  (forall i, stable_id a = Some i -> stable_id b = Some i ->
     refresh a <> refresh b ->
     isSameOauth (Some (json_of_oauth a)) (Some (json_of_oauth b)) = Ok true) /\
  First.isSameOauth (Some (json_of_oauth a)) (Some (json_of_oauth b))
  = isSameOauth (Some (json_of_oauth a)) (Some (json_of_oauth b)).
Proof.
  rewrite first_isSameOauth_credentials, isSameOauth_credentials. unfold active_rule.
  split; [|split; [|split]].
  - intros i j -> ->. reflexivity.
  - intros [-> | ->]; [reflexivity|]. destruct (stable_id a); reflexivity.
  - intros i -> -> _. rewrite String.eqb_refl. reflexivity.
  - reflexivity.
Qed.

Lemma isSameOauth_prefers_account_id_witness :
  isSameOauth (Some (json_of_oauth (Demo.cred "r1" "a1" (Some "acct1"))))
              (Some (json_of_oauth (Demo.cred "r2" "a2" (Some "acct1")))) = Ok true
  /\ isSameOauth (Some (json_of_oauth (Demo.cred "r1" "a1" (Some "acct1"))))
                 (Some (json_of_oauth (Demo.cred "r1" "a2" (Some "acct2")))) = Ok false
  /\ isSameOauth (Some (json_of_oauth (Demo.cred "r1" "a1" None)))
                 (Some (json_of_oauth (Demo.cred "r1" "a2" (Some "acct2")))) = Ok true.
Proof.
  split; [|split].
  - apply (proj1 (proj2 (proj2 (isSameOauth_prefers_account_id
             (Demo.cred "r1" "a1" (Some "acct1")) (Demo.cred "r2" "a2" (Some "acct1")))))
           "acct1"); [reflexivity | reflexivity | discriminate].
  - apply (proj1 (isSameOauth_prefers_account_id
             (Demo.cred "r1" "a1" (Some "acct1")) (Demo.cred "r1" "a2" (Some "acct2")))
           "acct1" "acct2"); reflexivity.
  - apply (proj1 (proj2 (isSameOauth_prefers_account_id
             (Demo.cred "r1" "a1" None) (Demo.cred "r1" "a2" (Some "acct2"))))).
    left. reflexivity.
Defined.

(** C10.  With no live credential the rule answers [false] instead of
    failing, whatever the stored side is; and when the [accountId] of
    either side is present but empty, the rule compares the refresh
    tokens. *)
Theorem isSameOauth_edges :
  (forall a : jsval, isSameOauth a None = Ok false) /\
  (forall a b : OAuth,
     accountId a = Some "" \/ accountId b = Some "" ->
     isSameOauth (Some (json_of_oauth a)) (Some (json_of_oauth b))
     = Ok (String.eqb (refresh a) (refresh b))).
Proof.
  split; [reflexivity|].
  intros a b H. rewrite isSameOauth_credentials. unfold active_rule, stable_id.
  destruct H as [-> | ->]; simpl; [reflexivity|].
  destruct (accountId a) as [i|]; [destruct (String.eqb i "")|]; reflexivity.
Qed.

Lemma isSameOauth_edges_witness :
  isSameOauth (Some (json_of_oauth (Demo.cred "r1" "a1" (Some ""))))
              (Some (json_of_oauth (Demo.cred "r2" "a2" (Some "")))) = Ok false
  /\ isSameOauth (Some (json_of_oauth (Demo.cred "r1" "a1" (Some "acct1"))))
                 (Some (json_of_oauth (Demo.cred "r1" "a2" (Some "")))) = Ok true.
Proof.
  split.
  - apply (proj2 isSameOauth_edges (Demo.cred "r1" "a1" (Some "")) (Demo.cred "r2" "a2" (Some ""))).
    left. reflexivity.
  - apply (proj2 isSameOauth_edges (Demo.cred "r1" "a1" (Some "acct1"))
             (Demo.cred "r1" "a2" (Some ""))).
    right. reflexivity.
Defined.

(** The first revision has no guard for a missing live credential: the
    same call throws there. *)
Lemma first_isSameOauth_missing_live (a : OAuth) :
  exists m, First.isSameOauth (Some (json_of_oauth a)) None = Throw (TypeError m).
Proof.
  destruct (oauth_members a) as (ma & -> & Har & _ & _ & _ & Hai).
  unfold First.isSameOauth. simpl. rewrite Hai.
  destruct (accountId a) as [i|]; simpl; [destruct (String.eqb i ""); simpl|];
    rewrite ?Har; simpl; eauto.
Qed.

(** ** The token inspector *)

Lemma append_cons (c : ascii) (s t : string) : String c s +:+ t = String c (s +:+ t).
Proof. reflexivity. Qed.

Lemma length_append (s1 s2 : string) :
  String.length (s1 +:+ s2) = (String.length s1 + String.length s2)%nat.
Proof.
  induction s1 as [|c s1 IH]; [reflexivity|].
  rewrite append_cons. simpl. rewrite IH. reflexivity.
Qed.

Lemma length_replace_all (c d : ascii) (s : string) :
  String.length (Js.replace_all c d s) = String.length s.
Proof. induction s as [|x s IH]; simpl; [reflexivity|]. rewrite IH. reflexivity. Qed.

(** The [=] signs that bring a length to a multiple of four. *)
Lemma padding_of_length (n : nat) :
  let pad := Js.slice ((n + 3) mod 4) "===" in
  pad ∈ [""; "="; "=="; "==="] /\ ((n + String.length pad) mod 4 = 0)%nat.
Proof.
  intros pad. unfold pad.
  pose proof (Nat.mod_upper_bound (n + 3) 4 ltac:(discriminate)) as Hk.
  pose proof (Nat.div_mod_eq (n + 3) 4) as Hq.
  destruct ((n + 3) mod 4)%nat as [|[|[|[|k]]]] eqn:Ek; [| | | |lia];
    (split; [set_solver|]); simpl String.length.
  - replace (n + 3)%nat with (((n + 3) / 4) * 4)%nat by lia. apply Nat.Div0.mod_mul.
  - replace (n + 2)%nat with (((n + 3) / 4) * 4)%nat by lia. apply Nat.Div0.mod_mul.
  - replace (n + 1)%nat with (((n + 3) / 4) * 4)%nat by lia. apply Nat.Div0.mod_mul.
  - replace (n + 0)%nat with (((n + 3) / 4) * 4)%nat by lia. apply Nat.Div0.mod_mul.
Qed.

Section Inspector.

Context (base64_utf8 : string -> string) (JSON_parse : string -> option json).

Lemma email_of_payload (payload : json) :
  (let? profile := get (Some payload) EMAIL_CLAIM_KEY in
   Ok (string_field (get_opt profile "email")))
  = match payload with
    | JNull => Throw (TypeError ("null is not an object (reading '" +:+ EMAIL_CLAIM_KEY +:+ "')"))
    | _ => Ok (email_claim payload)
    end.
Proof.
  destruct payload as [| | | |m]; try reflexivity.
  simpl. destruct (m !! EMAIL_CLAIM_KEY) as [[| | | |p]|]; reflexivity.
Qed.

(** What the extraction returns, in terms of the text decoded. *)
Lemma extractEmail_run (access : string) :
  let parts := Js.split_char "." "" access in
  extractEmailFromAccessToken base64_utf8 JSON_parse (Some (JStr access))
  = Ok (if (List.length parts <? 2)%nat then None
        else match JSON_parse (base64UrlToUtf8 base64_utf8 (nth 1 parts "")) with
             | Some payload => email_claim payload
             | None => None
             end).
Proof.
  intros parts. unfold extractEmailFromAccessToken. fold parts.
  destruct (List.length parts <? 2)%nat; [reflexivity|].
  unfold JSON_parse_or_throw.
  destruct (JSON_parse _) as [payload|]; [|reflexivity].
  cbn [rbind]. rewrite email_of_payload.
  destruct payload; reflexivity.
Qed.

(** The extraction returns on every token. *)
Lemma extractEmail_returns (access : string) :
  exists r, extractEmailFromAccessToken base64_utf8 JSON_parse (Some (JStr access)) = Ok r.
Proof. rewrite extractEmail_run. eauto. Qed.

(** C5.  On every string the extraction returns and does not throw.
    It yields nothing when the token has fewer than two segments.
    Otherwise the text handed to the runtime's base64 decoder is the
    second segment with every [-] turned into [+] and every [_] into
    [/], followed by between zero and three [=] signs, which on a token
    of ASCII characters are as many as bring the length to a multiple of
    four; the extraction yields nothing when what the decoder returns is
    not JSON, and when the parsed payload lacks a string e-mail under
    the profile claim; otherwise it yields that e-mail. *)
Theorem extractEmail_never_throws (access : string) :
  let parts := Js.split_char "." "" access in
  let normalized := Js.replace_all "_" "/" (Js.replace_all "-" "+" (nth 1 parts "")) in
  (exists r, extractEmailFromAccessToken base64_utf8 JSON_parse (Some (JStr access)) = Ok r) /\
  exists pad,
    pad ∈ [""; "="; "=="; "==="] /\
    (ascii_only access = true -> (String.length (normalized +:+ pad) mod 4 = 0)%nat) /\
    extractEmailFromAccessToken base64_utf8 JSON_parse (Some (JStr access))
    = Ok (if (List.length parts <? 2)%nat then None
          else match JSON_parse (base64_utf8 (normalized +:+ pad)) with
               | Some payload => email_claim payload
               | None => None
               end).
Proof.
  intros parts normalized. split; [apply extractEmail_returns|].
  destruct (padding_of_length (String.length normalized)) as [Hin Hlen].
  exists (Js.slice ((String.length normalized + 3) mod 4) "===").
  split; [exact Hin|]. split.
  - intros _. rewrite length_append. exact Hlen.
  - apply extractEmail_run.
Qed.

End Inspector.

Example extractEmail_demo :
  extractEmailFromAccessToken Demo.base64_utf8 Demo.JSON_parse (Some (JStr Demo.token_ann))
    = Ok (Some "ann@example.com") /\
  extractEmailFromAccessToken Demo.base64_utf8 Demo.JSON_parse (Some (JStr Demo.token_plain))
    = Ok None /\
  extractEmailFromAccessToken Demo.base64_utf8 Demo.JSON_parse (Some (JStr Demo.token_broken))
    = Ok None /\
  extractEmailFromAccessToken Demo.base64_utf8 Demo.JSON_parse (Some (JStr "opaque"))
    = Ok None.
Proof. repeat split; vm_compute; reflexivity. Qed.

Lemma extractEmail_never_throws_witness :
  extractEmailFromAccessToken Demo.base64_utf8 Demo.JSON_parse (Some (JStr Demo.token_ann))
  = Ok (Some "ann@example.com").
Proof.
  destruct (extractEmail_never_throws Demo.base64_utf8 Demo.JSON_parse Demo.token_ann)
    as [_ (pad & Hin & Hlen & Hrun)].
  specialize (Hlen eq_refl). rewrite Hrun. clear Hrun.
  repeat (apply elem_of_cons in Hin as [->|Hin];
          [first [vm_compute in Hlen; discriminate Hlen | vm_compute; reflexivity]|]).
  apply elem_of_nil in Hin. destruct Hin.
Defined.

(** ** Running the primitives *)

Lemma toasts_emit e w :
  toasts (emit e w) = (toasts w ++ match e with ShowToast t => [t] | _ => [] end)%list.
Proof.
  unfold toasts, emit. simpl. rewrite omap_app. destruct e; reflexivity.
Qed.

Lemma toasts_with_parts l w : toasts (with_parts l w) = toasts w.
Proof. reflexivity. Qed.

Lemma toasts_with_file p d w : toasts (with_file p d w) = toasts w.
Proof. reflexivity. Qed.

Lemma bind_Ok {A B} (m : M A) (k : A -> M B) w a w' :
  m w = (Ok a, w') -> bind m k w = k a w'.
Proof. unfold bind. intros ->. reflexivity. Qed.

Lemma bind_Throw {A B} (m : M A) (k : A -> M B) w e w' :
  m w = (Throw e, w') -> bind m k w = (Throw e, w').
Proof. unfold bind. intros ->. reflexivity. Qed.

Lemma file_exists_run path w :
  file_exists path w
  = (Ok (bool_decide (is_Some (files w !! path))), emit (FileExists path) w).
Proof. reflexivity. Qed.

Lemma file_json_run path w :
  file_json path w
  = (match files w !! path with
     | None => Throw (Error ("ENOENT: no such file or directory, open '" +:+ path +:+ "'"))
     | Some Unparsable => Throw (SyntaxError "JSON Parse error")
     | Some (Holds j) => Ok j
     end, emit (FileJson path) w).
Proof.
  unfold file_json, bind, log. simpl.
  destruct (files w !! path) as [[|j]|]; reflexivity.
Qed.

(** ** Silence *)

Lemma silent_ret {A} (a : A) : silent (ret a).
Proof. intros w. reflexivity. Qed.

Lemma silent_throw {A} e : silent (@throw A e).
Proof. intros w. reflexivity. Qed.

Lemma silent_lift {A} (r : result A) : silent (lift r).
Proof. intros w. reflexivity. Qed.

Lemma silent_bind {A B} (m : M A) (k : A -> M B) :
  silent m -> (forall a, silent (k a)) -> silent (bind m k).
Proof.
  intros Hm Hk w. unfold bind. specialize (Hm w).
  destruct (m w) as [[a|e] w']; simpl in *; [|exact Hm].
  rewrite Hk. exact Hm.
Qed.

Lemma silent_try_catch {A} (m : M A) (h : error -> M A) :
  silent m -> (forall e, silent (h e)) -> silent (try_catch m h).
Proof.
  intros Hm Hh w. unfold try_catch. specialize (Hm w).
  destruct (m w) as [[a|e] w']; simpl in *; [exact Hm|].
  rewrite Hh. exact Hm.
Qed.

Lemma silent_file_exists path : silent (file_exists path).
Proof. intros w. rewrite file_exists_run. simpl. rewrite toasts_emit. apply app_nil_r. Qed.

Lemma silent_file_json path : silent (file_json path).
Proof. intros w. rewrite file_json_run. simpl. rewrite toasts_emit. apply app_nil_r. Qed.

Lemma silent_Bun_write path data : silent (Bun_write path data).
Proof.
  intros w. unfold Bun_write, bind, log. simpl.
  rewrite toasts_with_file, toasts_emit. apply app_nil_r.
Qed.

Lemma silent_auth_set id body : silent (auth_set id body).
Proof. intros w. unfold auth_set, log. simpl. rewrite toasts_emit. apply app_nil_r. Qed.

Lemma silent_Date_now : silent Date_now.
Proof. intros w. reflexivity. Qed.

Lemma silent_if {A} (b : bool) (m1 m2 : M A) :
  silent m1 -> silent m2 -> silent (if b then m1 else m2).
Proof. destruct b; auto. Qed.

Create HintDb silence.
#[local] Hint Resolve silent_ret silent_throw silent_lift silent_file_exists
  silent_file_json silent_Bun_write silent_auth_set silent_Date_now : silence.
#[local] Hint Extern 2 (silent (bind _ _)) => apply silent_bind; [|intros] : silence.
#[local] Hint Extern 2 (silent (try_catch _ _)) =>
  apply silent_try_catch; [|intros] : silence.
#[local] Hint Extern 2 (silent (if _ then _ else _)) => apply silent_if : silence.
#[local] Hint Extern 3 (silent (match ?x with _ => _ end)) => destruct x : silence.

(** ** Reporting *)

Lemma toasts_once_toast t : toasts_once (showToast t).
Proof. intros w. unfold showToast, log. rewrite toasts_emit. eauto. Qed.

Lemma toasts_once_bind_silent {A} (m : M A) (k : A -> M unit) :
  silent m -> (forall a, toasts_once (k a)) -> toasts_once (bind m k).
Proof.
  intros Hm Hk w. unfold bind. specialize (Hm w).
  destruct (m w) as [[a|e] w']; simpl in *; [|exact Hm].
  specialize (Hk a w'). destruct (k a w') as [[u|e] w'']; rewrite <- Hm; exact Hk.
Qed.

Lemma reports_throw e : reports (throw e).
Proof. intros w. reflexivity. Qed.

Lemma reports_then_parts (m : M unit) :
  toasts_once m -> reports (m;; set_parts []).
Proof.
  intros Hm w. unfold bind. specialize (Hm w).
  destruct (m w) as [[u|e] w']; simpl; [|exact Hm].
  split; [reflexivity|exact Hm].
Qed.

Lemma reports_bind_silent {A} (m : M A) (k : A -> M unit) :
  silent m -> (forall a, reports (k a)) -> reports (bind m k).
Proof.
  intros Hm Hk w. unfold bind. specialize (Hm w).
  destruct (m w) as [[a|e] w']; simpl in *; [|exact Hm].
  specialize (Hk a w'). destruct (k a w') as [[u|e] w'']; rewrite <- Hm; exact Hk.
Qed.

Lemma reports_if (b : bool) (m1 m2 : M unit) :
  reports m1 -> reports m2 -> reports (if b then m1 else m2).
Proof. destruct b; auto. Qed.

(** ** Probing and reading only *)

Lemma emit_all_nil w : emit_all [] w = w.
Proof. destruct w. unfold emit_all. simpl. rewrite app_nil_r. reflexivity. Qed.

Lemma emit_all_app evs1 evs2 w :
  emit_all evs2 (emit_all evs1 w) = emit_all (evs1 ++ evs2) w.
Proof. unfold emit_all. simpl. rewrite app_assoc. reflexivity. Qed.

Lemma emit_as_emit_all e w : emit e w = emit_all [e] w.
Proof. reflexivity. Qed.

Lemma probes_keep evs w :
  Forall is_probe evs ->
  files (emit_all evs w) = files w /\ parts (emit_all evs w) = parts w /\
  writes (emit_all evs w) = writes w /\ auth_sets (emit_all evs w) = auth_sets w /\
  toasts (emit_all evs w) = toasts w.
Proof.
  intros H. split; [reflexivity|]. split; [reflexivity|].
  unfold writes, auth_sets, toasts, emit_all. simpl. rewrite !omap_app.
  assert (omap (fun e => match e with FileWrite p d => Some (p, d) | _ => None end) evs = []
          /\ omap (fun e => match e with AuthSet i b => Some (i, b) | _ => None end) evs = []
          /\ omap (fun e => match e with ShowToast t => Some t | _ => None end) evs = [])
    as (-> & -> & ->).
  { induction H as [|e evs He _ (IH1 & IH2 & IH3)]; [done|].
    destruct e; try contradiction; simpl; rewrite ?IH1, ?IH2, ?IH3; done. }
  rewrite !app_nil_r. done.
Qed.

Lemma probes_only_ret {A} (a : A) : probes_only (ret a).
Proof. intros w. exists []. rewrite emit_all_nil. split; [reflexivity|constructor]. Qed.

Lemma probes_only_throw {A} e : probes_only (@throw A e).
Proof. intros w. exists []. rewrite emit_all_nil. split; [reflexivity|constructor]. Qed.

Lemma probes_only_lift {A} (r : result A) : probes_only (lift r).
Proof. intros w. exists []. rewrite emit_all_nil. split; [reflexivity|constructor]. Qed.

Lemma probes_only_bind {A B} (m : M A) (k : A -> M B) :
  probes_only m -> (forall a, probes_only (k a)) -> probes_only (bind m k).
Proof.
  intros Hm Hk w. unfold bind. destruct (Hm w) as (evs1 & E1 & F1).
  destruct (m w) as [[a|e] w']; simpl in *; [|eauto].
  destruct (Hk a w') as (evs2 & E2 & F2). rewrite E2, E1, emit_all_app.
  exists (evs1 ++ evs2)%list. split; [reflexivity|]. apply Forall_app. auto.
Qed.

Lemma probes_only_try_catch {A} (m : M A) (h : error -> M A) :
  probes_only m -> (forall e, probes_only (h e)) -> probes_only (try_catch m h).
Proof.
  intros Hm Hh w. unfold try_catch. destruct (Hm w) as (evs1 & E1 & F1).
  destruct (m w) as [[a|e] w']; simpl in *; [eauto|].
  destruct (Hh e w') as (evs2 & E2 & F2). rewrite E2, E1, emit_all_app.
  exists (evs1 ++ evs2)%list. split; [reflexivity|]. apply Forall_app. auto.
Qed.

Lemma probes_only_file_exists path : probes_only (file_exists path).
Proof.
  intros w. rewrite file_exists_run. exists [FileExists path].
  split; [reflexivity|]. repeat constructor.
Qed.

Lemma probes_only_file_json path : probes_only (file_json path).
Proof.
  intros w. rewrite file_json_run. exists [FileJson path].
  split; [reflexivity|]. repeat constructor.
Qed.

Lemma probes_only_if {A} (b : bool) (m1 m2 : M A) :
  probes_only m1 -> probes_only m2 -> probes_only (if b then m1 else m2).
Proof. destruct b; auto. Qed.

Create HintDb probing.
#[local] Hint Resolve probes_only_ret probes_only_throw probes_only_lift
  probes_only_file_exists probes_only_file_json : probing.
#[local] Hint Extern 2 (probes_only (bind _ _)) =>
  apply probes_only_bind; [|intros] : probing.
#[local] Hint Extern 2 (probes_only (try_catch _ _)) =>
  apply probes_only_try_catch; [|intros] : probing.
#[local] Hint Extern 2 (probes_only (if _ then _ else _)) => apply probes_only_if : probing.

Ltac report_step :=
  first
    [ apply reports_throw
    | apply reports_if
    | apply toasts_once_toast
    | apply reports_bind_silent; [solve [auto with silence] | intros]
    | apply toasts_once_bind_silent; [solve [auto with silence] | intros]
    | apply reports_then_parts
    | match goal with
      | |- reports (match ?x with _ => _ end) => destruct x
      | |- toasts_once (match ?x with _ => _ end) => destruct x
      | |- toasts_once (if ?b then _ else _) => destruct b
      end ].

(** ** The hook of the newest revision *)

Section Hook.

Context (STORAGE_PATH AUTH_PATH : string).
Context (localeCompare : string -> string -> Z).
Context (base64_utf8 : string -> string).
Context (JSON_parse : string -> option json).

#[local] Abbreviation hook := (command_execute_before STORAGE_PATH AUTH_PATH localeCompare
                    base64_utf8 JSON_parse).

Lemma silent_readJsonFile path : silent (readJsonFile path).
Proof. unfold readJsonFile. auto 10 with silence. Qed.

Lemma silent_loadStorage : silent (loadStorage STORAGE_PATH).
Proof. unfold loadStorage. auto 20 with silence. Qed.

Lemma silent_saveStorage storage : silent (saveStorage STORAGE_PATH storage).
Proof. unfold saveStorage, writeJsonFile. auto with silence. Qed.

Lemma silent_ensureActiveAuth : silent (ensureActiveAuth AUTH_PATH).
Proof.
  unfold ensureActiveAuth. pose proof silent_readJsonFile. auto 10 with silence.
Qed.

Lemma silent_loadStorageAndAuth : silent (loadStorageAndAuth STORAGE_PATH AUTH_PATH).
Proof.
  unfold loadStorageAndAuth.
  pose proof silent_readJsonFile. pose proof silent_loadStorage.
  auto 20 with silence.
Qed.

#[local] Hint Resolve silent_readJsonFile silent_loadStorage silent_saveStorage
  silent_ensureActiveAuth silent_loadStorageAndAuth : silence.

Lemma probes_only_readJsonFile path : probes_only (readJsonFile path).
Proof. unfold readJsonFile. auto 10 with probing. Qed.

Lemma probes_only_loadStorage : probes_only (loadStorage STORAGE_PATH).
Proof. unfold loadStorage. auto 20 with probing. Qed.

Lemma probes_only_ensureActiveAuth : probes_only (ensureActiveAuth AUTH_PATH).
Proof.
  unfold ensureActiveAuth. pose proof probes_only_readJsonFile. auto 10 with probing.
Qed.

Lemma reports_do_list :
  reports (do_list STORAGE_PATH AUTH_PATH localeCompare).
Proof. unfold do_list. repeat report_step. Qed.

Lemma reports_do_save argv :
  reports (do_save STORAGE_PATH AUTH_PATH base64_utf8 JSON_parse argv).
Proof. unfold do_save. repeat report_step. Qed.

Lemma reports_do_del argv :
  reports (do_del STORAGE_PATH localeCompare argv).
Proof. unfold do_del. repeat report_step. Qed.

Lemma reports_do_load argv :
  reports (do_load STORAGE_PATH localeCompare base64_utf8 JSON_parse argv).
Proof. unfold do_load. repeat report_step. Qed.

Lemma reports_do_unknown : reports do_unknown.
Proof. unfold do_unknown. repeat report_step. Qed.

Lemma on_error_run e w :
  on_error e w = (Ok tt, with_parts [] (emit (ShowToast (error_toast e)) w)).
Proof. reflexivity. Qed.

Lemma reports_run_action action argv :
  reports (run_action STORAGE_PATH AUTH_PATH localeCompare base64_utf8 JSON_parse
             action argv).
Proof.
  destruct action; simpl.
  - apply reports_do_list.
  - apply reports_do_save.
  - apply reports_do_del.
  - apply reports_do_load.
  - apply reports_do_unknown.
Qed.

Lemma hook_matching input w :
  normalize_command (command input) = COMMAND ->
  hook input w
  = try_catch
      (run_action STORAGE_PATH AUTH_PATH localeCompare base64_utf8 JSON_parse
         (normalize_action (Js.toLowerCase (nth 0 (parseArgs (arguments input)) "")))
         (parseArgs (arguments input)))
      on_error w.
Proof.
  intros H. unfold command_execute_before. rewrite H. reflexivity.
Qed.

(** A command whose normalised name is not the reserved keyword leaves
    everything as it was: the hook returns, and the files, the output
    parts and the trace of outside calls (file probes, reads, writes,
    toasts, credential updates) are those it found. *)
Lemma unrelated_command_untouched (input : Input) (w : world) :
  normalize_command (command input) <> COMMAND ->
  hook input w = (Ok tt, w).
Proof.
  intros H. unfold command_execute_before.
  destruct (String.eqb_spec (normalize_command (command input)) COMMAND) as [E|_];
    [contradiction|reflexivity].
Qed.

(** C8, for the newest revision.  When the command is the reserved one
    and its first token, lower-cased, is none of the recognised verbs
    (the empty token standing for [list]), the hook shows the "unknown
    command" error toast and returns: it probes, reads and writes no
    file and sets no credential. *)
Theorem unknown_verb_is_reported (input : Input) (w : world) :
  normalize_command (command input) = COMMAND ->
  Js.toLowerCase (nth 0 (parseArgs (arguments input)) "")
    ∉ [""; "list"; "save"; "del"; "load"] ->
  exists w',
    hook input w = (Ok tt, w') /\
    w' = with_parts [] (emit (ShowToast UnknownVerb_toast) w) /\
    files w' = files w /\ writes w' = writes w /\ auth_sets w' = auth_sets w /\
    toasts w' = (toasts w ++ [UnknownVerb_toast])%list /\ parts w' = [].
Proof.
  intros Hc Hv. eexists. split; [|split; [reflexivity|]].
  - rewrite hook_matching by exact Hc.
    assert (normalize_action (Js.toLowerCase (nth 0 (parseArgs (arguments input)) ""))
            = A_unknown) as ->.
    { unfold normalize_action.
      repeat match goal with
             | |- context [String.eqb ?a ?b] =>
                 destruct (String.eqb_spec a b) as [E|_];
                 [exfalso; apply Hv; rewrite E; set_solver|]
             end.
      reflexivity. }
    reflexivity.
  - unfold writes, auth_sets, toasts, with_parts, emit. simpl.
    rewrite !omap_app. simpl. rewrite !app_nil_r. repeat split; reflexivity.
Qed.

(** On every path of the reserved command the hook returns with
    [output.parts] empty and exactly one toast shown: the toast of the
    action when the action succeeds, the toast carrying the message of
    the error when the action throws (which then has shown none). *)
Lemma newest_every_path_reports_by_toast (input : Input) (w : world) :
  normalize_command (command input) = COMMAND ->
  exists w',
    hook input w = (Ok tt, w') /\ parts w' = [] /\
    match run_action STORAGE_PATH AUTH_PATH localeCompare base64_utf8 JSON_parse
            (normalize_action (Js.toLowerCase (nth 0 (parseArgs (arguments input)) "")))
            (parseArgs (arguments input)) w with
    | (Ok _, w1) => w' = w1 /\ exists t, toasts w' = (toasts w ++ [t])%list
    | (Throw e, w1) =>
        toasts w1 = toasts w /\ toasts w' = (toasts w ++ [error_toast e])%list
    end.
Proof.
  intros Hc. rewrite hook_matching by exact Hc. unfold try_catch.
  pose proof (reports_run_action
                (normalize_action (Js.toLowerCase (nth 0 (parseArgs (arguments input)) "")))
                (parseArgs (arguments input)) w) as H.
  destruct (run_action _ _ _ _ _ _ _ w) as [[[]|e] w1].
  - exists w1. destruct H as [Hp Ht]. auto.
  - rewrite on_error_run. eexists. split; [reflexivity|]. split; [reflexivity|].
    split; [exact H|].
    rewrite toasts_with_parts, toasts_emit, H. reflexivity.
Qed.

End Hook.

#[local] Hint Resolve silent_readJsonFile silent_loadStorage silent_saveStorage
  silent_ensureActiveAuth silent_loadStorageAndAuth : silence.

(** ** The hook of the older revision *)

Section OlderHook.

Context (STORAGE_PATH AUTH_PATH : string).
Context (localeCompare : string -> string -> Z).
Context (base64_utf8 : string -> string).
Context (JSON_parse : string -> option json).

Lemma reports_older_do_list :
  reports (Older.do_list STORAGE_PATH AUTH_PATH localeCompare).
Proof. unfold Older.do_list. repeat report_step. Qed.

Lemma reports_older_do_save argv :
  reports (Older.do_save STORAGE_PATH AUTH_PATH base64_utf8 JSON_parse argv).
Proof. unfold Older.do_save. repeat report_step. Qed.

Lemma reports_older_do_remove argv :
  reports (Older.do_remove STORAGE_PATH localeCompare argv).
Proof. unfold Older.do_remove. repeat report_step. Qed.

Lemma reports_older_do_use selector :
  reports (Older.do_use STORAGE_PATH localeCompare base64_utf8 JSON_parse selector).
Proof. unfold Older.do_use. repeat report_step. Qed.

(** For the reserved command the older hook shows its debug toast and
    one more, and leaves [output.parts] empty. *)
Lemma older_every_path_reports_by_toast (input : Input) (w : world) :
  normalize_command (command input) = COMMAND ->
  exists t w',
    Older.command_execute_before STORAGE_PATH AUTH_PATH localeCompare base64_utf8
      JSON_parse input w = (Ok tt, w') /\
    parts w' = [] /\
    toasts w' = (toasts w ++ [Older.debug_toast input; t])%list.
Proof.
  intros Hc. unfold Older.command_execute_before, bind, showToast, log.
  rewrite Hc. change (negb (String.eqb COMMAND COMMAND)) with false. cbv iota.
  set (w0 := emit (ShowToast (Older.debug_toast input)) w).
  assert (toasts w0 = (toasts w ++ [Older.debug_toast input])%list) as Hw0.
  { unfold w0. rewrite toasts_emit. reflexivity. }
  set (argv := parseArgs (arguments input)).
  set (sub := Older.normalize_sub (nth 0 argv "")).
  match goal with |- context [try_catch ?m _ _] => set (body := m) end.
  assert (reports body) as Hrep.
  { unfold body.
    apply reports_if; [apply reports_older_do_list|].
    apply reports_if; [apply reports_older_do_save|].
    apply reports_if; [apply reports_older_do_remove|apply reports_older_do_use]. }
  unfold try_catch. specialize (Hrep w0).
  destruct (body w0) as [[[]|e] w1].
  - destruct Hrep as [Hp [t Ht]]. exists t, w1. split; [reflexivity|].
    split; [exact Hp|]. rewrite Ht, Hw0, <- app_assoc. reflexivity.
  - rewrite on_error_run. eexists _, _. split; [reflexivity|]. split; [reflexivity|].
    rewrite toasts_with_parts, toasts_emit, Hrep, Hw0, <- app_assoc. reflexivity.
Qed.

(** The older hook shows a toast for every command, the unrelated ones
    included. *)
Lemma older_hook_announces_itself (input : Input) (w : world) :
  normalize_command (command input) <> COMMAND ->
  Older.command_execute_before STORAGE_PATH AUTH_PATH localeCompare base64_utf8
    JSON_parse input w
  = (Ok tt, emit (ShowToast (Older.debug_toast input)) w).
Proof.
  intros H. unfold Older.command_execute_before, bind, showToast, log.
  destruct (String.eqb_spec (normalize_command (command input)) COMMAND) as [E|_];
    [contradiction|reflexivity].
Qed.

End OlderHook.

(** ** The body of a credential update *)

Lemma profile_members (p : StoredOAuthProfile) :
  exists m, json_of_profile p = JObj m /\
    m !! "name" = Some (JStr (name p)) /\
    m !! "oauth" = Some (json_of_oauth (oauth p)) /\
    m !! "savedAt" = Some (JStr (savedAt p)).
Proof. eexists. split; [reflexivity|]. repeat split; simplify_map_eq; done. Qed.

Lemma auth_body_stored (p : StoredOAuthProfile) :
  auth_body (Some (json_of_profile p)) = Ok (live_body (oauth p)).
Proof.
  destruct (profile_members p) as (m & -> & _ & Ho & _).
  destruct (oauth_members (oauth p)) as (mo & Emo & Hr & Ha & Hx & Hu & _).
  unfold auth_body. simpl. rewrite Ho, Emo. simpl. rewrite Hr, Ha, Hx, Hu. simpl.
  unfold live_body. destruct (enterpriseUrl (oauth p)) as [u|]; simpl; [|reflexivity].
  destruct (String.eqb u ""); reflexivity.
Qed.

Lemma live_body_fields (o : OAuth) (k : string) :
  is_Some (live_body o !! k) <->
  k ∈ ["type"; "refresh"; "access"; "expires"]
  \/ (k = "enterpriseUrl" /\ exists u, enterpriseUrl o = Some u /\ u <> "").
Proof.
  unfold live_body.
  assert (forall base : gmap string json,
            (is_Some (base !! k) <-> k ∈ ["type"; "refresh"; "access"; "expires"]) ->
            is_Some (match enterpriseUrl o with
                     | Some u => if String.eqb u "" then base
                                 else <["enterpriseUrl" := JStr u]> base
                     | None => base
                     end !! k) <->
            k ∈ ["type"; "refresh"; "access"; "expires"]
            \/ (k = "enterpriseUrl" /\ exists u, enterpriseUrl o = Some u /\ u <> "")) as H.
  { intros base Hb. destruct (enterpriseUrl o) as [u|].
    - destruct (String.eqb_spec u "") as [->|Hu].
      + rewrite Hb. split; [tauto|]. intros [?|(_ & u' & [= <-] & ?)]; [done|done].
      + destruct (decide (k = "enterpriseUrl")) as [->|Hk].
        * rewrite lookup_insert_eq. split; [|eauto]. intros _. right. eauto.
        * rewrite lookup_insert_ne by done. rewrite Hb. split; [tauto|].
          intros [?|(? & _)]; [done|done].
    - rewrite Hb. split; [tauto|]. intros [?|(_ & u' & [=] & _)]. done. }
  apply H. clear H.
  rewrite !elem_of_cons, elem_of_nil.
  destruct (decide (k = "expires")) as [->|?]; [rewrite lookup_insert_eq; split; eauto|].
  rewrite lookup_insert_ne by done.
  destruct (decide (k = "access")) as [->|?]; [rewrite lookup_insert_eq; split; eauto|].
  rewrite lookup_insert_ne by done.
  destruct (decide (k = "refresh")) as [->|?]; [rewrite lookup_insert_eq; split; eauto|].
  rewrite lookup_insert_ne by done.
  destruct (decide (k = "type")) as [->|?]; [rewrite lookup_singleton_eq; split; eauto|].
  rewrite lookup_singleton_ne by done.
  split; [intros [? [=]]|]. intros [?|[?|[?|[?|[]]]]]; done.
Qed.


(** ** The vault and the live credential *)

Section Vault.

Context (STORAGE_PATH AUTH_PATH : string).
Context (localeCompare : string -> string -> Z).
Context (base64_utf8 : string -> string).
Context (JSON_parse : string -> option json).

#[local] Abbreviation hook := (command_execute_before STORAGE_PATH AUTH_PATH localeCompare
                    base64_utf8 JSON_parse).

Lemma readJsonFile_run path w :
  readJsonFile path w
  = match files w !! path with
    | None => (Throw (Error ("File not found: " +:+ path)), emit (FileExists path) w)
    | Some Unparsable => (Throw (SyntaxError "JSON Parse error"), read_auth path w)
    | Some (Holds j) => (Ok j, read_auth path w)
    end.
Proof.
  unfold readJsonFile, bind. rewrite file_exists_run.
  destruct (files w !! path) as [c|] eqn:E; simpl; [|reflexivity].
  rewrite file_json_run. simpl. rewrite E. destruct c; reflexivity.
Qed.

Lemma loadStorage_run w :
  loadStorage STORAGE_PATH w
  = match files w !! STORAGE_PATH with
    | None => (Ok (json_of_storage ∅), emit (FileExists STORAGE_PATH) w)
    | Some Unparsable =>
        (Throw (SyntaxError "JSON Parse error"), read_vault STORAGE_PATH w)
    | Some (Holds j) => (check_storage STORAGE_PATH j, read_vault STORAGE_PATH w)
    end.
Proof.
  unfold loadStorage, bind. rewrite file_exists_run.
  destruct (files w !! STORAGE_PATH) as [c|] eqn:E; simpl; [|reflexivity].
  rewrite file_json_run. simpl. rewrite E. destruct c as [|j]; [reflexivity|].
  unfold check_storage, lift, throw, ret, read_vault.
  destruct j as [| | | |top]; simpl; try reflexivity.
  destruct (_ || _); reflexivity.
Qed.

Lemma check_storage_valid (top profiles : gmap string json) :
  top !! "version" = Some (JNum 1) ->
  top !! "profiles" = Some (JObj profiles) ->
  check_storage STORAGE_PATH (JObj top) = Ok (JObj top).
Proof.
  intros Hv Hp. unfold check_storage. simpl. rewrite Hv, Hp. reflexivity.
Qed.

Lemma check_storage_corrupt (j : json) :
  j <> JNull ->
  get_opt (Some j) "version" <> Some (JNum 1)
  \/ (forall m, get_opt (Some j) "profiles" <> Some (JObj m)) ->
  check_storage STORAGE_PATH j = Throw (CorruptError STORAGE_PATH).
Proof.
  intros Hn H. unfold check_storage.
  destruct j as [| | | |top]; try contradiction; try reflexivity.
  simpl in *. destruct H as [H|H].
  - destruct (top !! "version") as [[| |n| |]|]; try reflexivity.
    destruct (Z.eqb_spec n 1) as [->|Hne]; [contradiction|].
    simpl. destruct (Z.eqb_spec n 1); [contradiction|]. reflexivity.
  - destruct (top !! "profiles") as [[| | | |m]|];
      try (rewrite ?orb_true_r; reflexivity).
    exfalso. apply (H m). reflexivity.
Qed.

Lemma ensureActiveAuth_run w auth oauth :
  files w !! AUTH_PATH = Some (Holds auth) ->
  readOpenAiAuthFromAuthFile AUTH_PATH auth = Ok oauth ->
  ensureActiveAuth AUTH_PATH w = (Ok oauth, read_auth AUTH_PATH w).
Proof.
  intros Hf Hr. unfold ensureActiveAuth, try_catch, bind.
  rewrite readJsonFile_run, Hf. unfold lift. rewrite Hr. reflexivity.
Qed.

Lemma parseArgs_nonempty raw s : s ∈ parseArgs raw -> s <> "".
Proof. unfold parseArgs. intros H. apply list_elem_of_filter in H. tauto. Qed.

Lemma loadStorage_valid w (top profiles : gmap string json) :
  files w !! STORAGE_PATH = Some (Holds (JObj top)) ->
  top !! "version" = Some (JNum 1) ->
  top !! "profiles" = Some (JObj profiles) ->
  loadStorage STORAGE_PATH w = (Ok (JObj top), read_vault STORAGE_PATH w).
Proof.
  intros Hf Hv Hp. rewrite loadStorage_run, Hf.
  rewrite (check_storage_valid top profiles Hv Hp). reflexivity.
Qed.

Lemma eqb_false_of_ne (a b : string) : a <> b -> String.eqb a b = false.
Proof. intros H. destruct (String.eqb_spec a b); [contradiction|reflexivity]. Qed.

Lemma read_vault_as_emit_all path w :
  read_vault path w = emit_all [FileExists path; FileJson path] w.
Proof. unfold read_vault, emit, emit_all. simpl. rewrite <- app_assoc. reflexivity. Qed.

(** C1, for the newest revision.  In a vault in which [name] is taken
    by a stored profile, [save name] never succeeds: the action throws
    after probing and reading only, the hook shows the error as a toast,
    no file is written and the vault file still holds the same profile
    under [name].  When the live credential is one that [save] accepts,
    the error is the name-collision error, thrown after the two files
    were read. *)
Theorem save_existing_name_rejected
    (input : Input) (w : world) (sub name : string) (rest : list string)
    (top profiles p : gmap string json) :
  normalize_command (command input) = COMMAND ->
  parseArgs (arguments input) = sub :: name :: rest ->
  Js.toLowerCase sub = "save" ->
  files w !! STORAGE_PATH = Some (Holds (JObj top)) ->
  top !! "version" = Some (JNum 1) ->
  top !! "profiles" = Some (JObj profiles) ->
  profiles !! name = Some (JObj p) ->
  exists e w1,
    do_save STORAGE_PATH AUTH_PATH base64_utf8 JSON_parse (parseArgs (arguments input)) w
      = (Throw e, w1) /\
    hook input w = (Ok tt, with_parts [] (emit (ShowToast (error_toast e)) w1)) /\
    files w1 = files w /\ writes w1 = writes w /\ auth_sets w1 = auth_sets w /\
    toasts w1 = toasts w /\
    files w1 !! STORAGE_PATH = Some (Holds (JObj top)) /\
    (forall auth oauth,
       files w !! AUTH_PATH = Some (Holds auth) ->
       readOpenAiAuthFromAuthFile AUTH_PATH auth = Ok oauth ->
       access oauth <> "" -> refresh oauth <> "" ->
       e = NameTakenError name /\
       w1 = read_vault STORAGE_PATH (read_auth AUTH_PATH w)).
Proof.
  intros Hc Hargs Hsub Hvault Hv Hp Hname.
  assert (name <> "") as Hne.
  { apply (parseArgs_nonempty (arguments input)). rewrite Hargs. set_solver. }
  assert (exists e w1,
            do_save STORAGE_PATH AUTH_PATH base64_utf8 JSON_parse
              (parseArgs (arguments input)) w = (Throw e, w1) /\
            (exists evs, w1 = emit_all evs w /\ Forall is_probe evs) /\
            (forall auth oauth,
               files w !! AUTH_PATH = Some (Holds auth) ->
               readOpenAiAuthFromAuthFile AUTH_PATH auth = Ok oauth ->
               access oauth <> "" -> refresh oauth <> "" ->
               e = NameTakenError name /\
               w1 = read_vault STORAGE_PATH (read_auth AUTH_PATH w)))
    as (e & w1 & Hsave & (evs & -> & Hevs) & Hlive).
  { rewrite Hargs. unfold do_save. cbv zeta.
    change (nth 1 (sub :: name :: rest) "") with name.
    rewrite (eqb_false_of_ne _ _ Hne).
    destruct (probes_only_ensureActiveAuth AUTH_PATH w) as (evs & E & F).
    destruct (ensureActiveAuth AUTH_PATH w) as [[oauth|e0] wa] eqn:Ea; simpl in E; subst wa.
    - rewrite (bind_Ok _ _ _ _ _ Ea). cbv beta.
      destruct (String.eqb (access oauth) "" || String.eqb (refresh oauth) "") eqn:Etok.
      + eexists _, _. split; [reflexivity|]. split; [eauto|].
        intros auth oauth' Hf Hr Ha Hre.
        rewrite (ensureActiveAuth_run w auth oauth' Hf Hr) in Ea.
        apply (f_equal fst) in Ea. simpl in Ea. injection Ea as <-.
        rewrite (eqb_false_of_ne _ _ Ha), (eqb_false_of_ne _ _ Hre) in Etok.
        discriminate Etok.
      + rewrite (bind_Ok _ _ _ _ _
                   (loadStorage_valid (emit_all evs w) top profiles Hvault Hv Hp)).
        unfold bind, lift. simpl get. rewrite Hp. simpl get. rewrite Hname.
        cbn [truthy]. unfold throw.
        eexists _, _. split; [reflexivity|]. split.
        * rewrite read_vault_as_emit_all, emit_all_app. eexists. split; [reflexivity|].
          apply Forall_app. split; [exact F|repeat constructor].
        * intros auth oauth' Hf Hr _ _.
          rewrite (ensureActiveAuth_run w auth oauth' Hf Hr) in Ea.
          apply (f_equal snd) in Ea. simpl in Ea. rewrite <- Ea. split; reflexivity.
    - rewrite (bind_Throw _ _ _ _ _ Ea).
      eexists _, _. split; [reflexivity|]. split; [eauto|].
      intros auth oauth' Hf Hr _ _.
      rewrite (ensureActiveAuth_run w auth oauth' Hf Hr) in Ea. discriminate Ea. }
  exists e, (emit_all evs w).
  destruct (probes_keep evs w Hevs) as (Hfiles & _ & Hwrites & Hsets & Htoasts).
  split; [exact Hsave|]. split.
  - rewrite (hook_matching _ _ _ _ _ _ _ Hc). rewrite Hargs.
    change (nth 0 (sub :: name :: rest) "") with sub. rewrite Hsub.
    change (normalize_action "save") with A_save. unfold try_catch, run_action.
    rewrite <- Hargs, Hsave. reflexivity.
  - split; [exact Hfiles|]. split; [exact Hwrites|]. split; [exact Hsets|].
    split; [exact Htoasts|]. split; [exact Hvault|exact Hlive].
Qed.

(** Loading the vault: an absent file is the empty version-1 vault, and
    a parsed value other than [null] whose version is not [1] or whose
    [profiles] member is not an object is rejected as corrupt. *)
Lemma loadStorage_absent_or_corrupt (w : world) :
  (files w !! STORAGE_PATH = None ->
   loadStorage STORAGE_PATH w
   = (Ok (json_of_storage ∅), emit (FileExists STORAGE_PATH) w)) /\
  (forall j,
     files w !! STORAGE_PATH = Some (Holds j) ->
     j <> JNull ->
     get_opt (Some j) "version" <> Some (JNum 1)
     \/ (forall m, get_opt (Some j) "profiles" <> Some (JObj m)) ->
     loadStorage STORAGE_PATH w
     = (Throw (CorruptError STORAGE_PATH), read_vault STORAGE_PATH w)).
Proof.
  split.
  - intros H. rewrite loadStorage_run, H. reflexivity.
  - intros j H Hn Hbad. rewrite loadStorage_run, H.
    rewrite (check_storage_corrupt j Hn Hbad). reflexivity.
Qed.

(** A vault file that holds [null] is not rejected by the validation:
    reading its version tag throws first. *)
Lemma loadStorage_null (w : world) :
  files w !! STORAGE_PATH = Some (Holds JNull) ->
  loadStorage STORAGE_PATH w
  = (Throw (TypeError "null is not an object (reading 'version')"),
     read_vault STORAGE_PATH w).
Proof. intros H. rewrite loadStorage_run, H. reflexivity. Qed.

(** A vault file that is not JSON fails in the parser. *)
Lemma loadStorage_unparsable (w : world) :
  files w !! STORAGE_PATH = Some Unparsable ->
  loadStorage STORAGE_PATH w
  = (Throw (SyntaxError "JSON Parse error"), read_vault STORAGE_PATH w).
Proof. intros H. rewrite loadStorage_run, H. reflexivity. Qed.

(** *** Activation *)

Lemma sorted_names_valid (top profiles : gmap string json) :
  top !! "profiles" = Some (JObj profiles) ->
  sorted_names localeCompare (JObj top)
  = Ok (Some (JObj profiles), sort_names localeCompare (map_to_list profiles).*1).
Proof. intros Hp. unfold sorted_names. simpl. rewrite Hp. reflexivity. Qed.

Lemma select_profile_run (token : string) (top profiles : gmap string json) :
  top !! "profiles" = Some (JObj profiles) ->
  select_profile localeCompare token (JObj top)
  = let name :=
      resolve_number token (sort_names localeCompare (map_to_list profiles).*1) in
    if truthy (profiles !! name) then Ok (name, profiles !! name)
    else Throw (InvalidSelectionError name).
Proof.
  intros Hp. unfold select_profile. rewrite (sorted_names_valid top profiles Hp).
  simpl. destruct (truthy _); reflexivity.
Qed.

(** Activating a stored profile in the newest revision hands the host
    one credential update for the provider.  Besides the kind tag
    [type: "oauth"] its body has exactly the members [refresh], [access]
    and [expires] of the stored credential, and [enterpriseUrl] only when
    the stored credential has a non-empty one; it has no [accountId] and
    no [email].  The plugin itself writes no file. *)
Lemma newest_load_writes_supported_fields
    (input : Input) (w : world) (sub token name : string) (rest : list string)
    (top profiles : gmap string json) (p : StoredOAuthProfile) :
  normalize_command (command input) = COMMAND ->
  parseArgs (arguments input) = sub :: token :: rest ->
  Js.toLowerCase sub = "load" ->
  files w !! STORAGE_PATH = Some (Holds (JObj top)) ->
  top !! "version" = Some (JNum 1) ->
  top !! "profiles" = Some (JObj profiles) ->
  resolve_number token (sort_names localeCompare (map_to_list profiles).*1) = name ->
  profiles !! name = Some (json_of_profile p) ->
  let body := live_body (oauth p) in
  exists w',
    hook input w = (Ok tt, w') /\
    auth_sets w' = (auth_sets w ++ [(PROVIDER_ID, body)])%list /\
    writes w' = writes w /\
    (forall k, is_Some (body !! k) <->
       k ∈ ["type"; "refresh"; "access"; "expires"]
       \/ (k = "enterpriseUrl" /\ exists u, enterpriseUrl (oauth p) = Some u /\ u <> "")) /\
    body !! "type" = Some (JStr "oauth") /\
    body !! "refresh" = Some (JStr (refresh (oauth p))) /\
    body !! "access" = Some (JStr (access (oauth p))) /\
    body !! "expires" = Some (JNum (expires (oauth p))) /\
    body !! "enterpriseUrl"
      = match enterpriseUrl (oauth p) with
        | Some u => if String.eqb u "" then None else Some (JStr u)
        | None => None
        end /\
    body !! "accountId" = None /\ body !! "email" = None.
Proof.
  intros Hc Hargs Hsub Hvault Hv Hp Hres Hname body.
  assert (token <> "") as Hne.
  { apply (parseArgs_nonempty (arguments input)). rewrite Hargs. set_solver. }
  destruct (extractEmail_returns base64_utf8 JSON_parse (access (oauth p)))
    as [email Hemail].
  destruct (profile_members p) as (mp & Emp & _ & Ho & _).
  destruct (oauth_members (oauth p)) as (mo & Emo & _ & Ha & _).
  eexists. split; [|split; [|split]].
  - rewrite (hook_matching _ _ _ _ _ _ _ Hc). rewrite Hargs.
    change (nth 0 (sub :: token :: rest) "") with sub. rewrite Hsub.
    change (normalize_action "load") with A_load. unfold try_catch, run_action, do_load.
    cbv zeta. change (nth 1 (sub :: token :: rest) "") with token.
    rewrite (eqb_false_of_ne _ _ Hne).
    rewrite (bind_Ok _ _ _ _ _ (loadStorage_valid w top profiles Hvault Hv Hp)).
    cbv beta. unfold bind at 1. unfold lift at 1.
    rewrite (select_profile_run token top profiles Hp). cbv zeta.
    rewrite Hres, Hname. rewrite Emp at 1. cbn [truthy].
    unfold bind at 1. unfold lift at 1. rewrite auth_body_stored.
    unfold bind, lift, auth_set, showToast, set_parts, log.
    rewrite Emp. simpl get. rewrite Ho, Emo. simpl get. rewrite Ha, Hemail.
    reflexivity.
  - unfold auth_sets, with_parts, emit, read_vault. simpl.
    rewrite !omap_app. simpl. rewrite !app_nil_r. reflexivity.
  - unfold writes, with_parts, emit, read_vault. simpl.
    rewrite !omap_app. simpl. rewrite !app_nil_r. reflexivity.
  - split; [apply live_body_fields|].
    assert (forall k, k <> "enterpriseUrl" ->
              body !! k = (<["expires" := JNum (expires (oauth p))]>
                            (<["access" := JStr (access (oauth p))]>
                              (<["refresh" := JStr (refresh (oauth p))]>
                                ({[ "type" := JStr "oauth" ]} : gmap string json)))) !! k)
      as Hbase.
    { intros k Hk. unfold body, live_body.
      destruct (enterpriseUrl (oauth p)) as [u|]; [|reflexivity].
      destruct (String.eqb u ""); [reflexivity|]. rewrite lookup_insert_ne; done. }
    repeat split; try (rewrite Hbase by done; simplify_map_eq; done).
    unfold body, live_body.
    destruct (enterpriseUrl (oauth p)) as [s|]; [destruct (String.eqb s "")|];
      simplify_map_eq; done.
Qed.

(** *** Resolution of a selector *)


Lemma resolve_number_literal (token : string) (names : list string) :
  (forall n, Js.parseInt token = Some n ->
     (n < 1 \/ Z.of_nat (List.length names) < n)%Z) ->
  resolve_number token names = token.
Proof.
  intros H. unfold resolve_number.
  destruct (Js.parseInt token) as [n|]; [|reflexivity].
  destruct (H n eq_refl);
    destruct (Z.ltb_spec 0 n); destruct (Z.leb_spec n (Z.of_nat (List.length names)));
    simpl; try reflexivity; lia.
Qed.

Lemma insert_name_Permutation (x : string) (l : list string) :
  insert_name localeCompare x l ≡ₚ x :: l.
Proof.
  induction l as [|y l IH]; simpl; [reflexivity|].
  case_decide; [reflexivity|]. rewrite IH. apply Permutation_swap.
Qed.

Lemma sort_names_Permutation (l : list string) : sort_names localeCompare l ≡ₚ l.
Proof.
  induction l as [|x l IH]; simpl; [reflexivity|].
  rewrite insert_name_Permutation, IH. reflexivity.
Qed.




Lemma sort_names_keys (profiles : gmap string json) (x : string) :
  x ∈ sort_names localeCompare (map_to_list profiles).*1 <-> is_Some (profiles !! x).
Proof.
  rewrite sort_names_Permutation.
  rewrite list_elem_of_fmap. split.
  - intros ([k v] & -> & H). apply elem_of_map_to_list in H. simpl. eauto.
  - intros [v H]. exists (x, v). split; [reflexivity|]. apply elem_of_map_to_list. exact H.
Qed.



End Vault.

(** ** Where the first revision differs *)

Section FirstHook.

Context (STORAGE_PATH AUTH_PATH : string).
Context (localeCompare : string -> string -> Z).
Context (base64_utf8 : string -> string).
Context (JSON_parse : string -> option json).
Context (canonical_number : string -> bool).
Context (Date_toISOString : jsval -> option string).

(** It compares the command with the keyword as it is, and leaves any
    other command alone. *)
Lemma first_hook_unrelated (input : Input) (w : world) :
  command input <> COMMAND ->
  First.command_execute_before STORAGE_PATH AUTH_PATH localeCompare base64_utf8
    JSON_parse canonical_number Date_toISOString input w
  = (Ok tt, w).
Proof.
  intros H. unfold First.command_execute_before.
  destruct (String.eqb_spec (command input) COMMAND) as [E|_];
    [contradiction|reflexivity].
Qed.

(** Its [catch] boundary puts the message into the chat and throws the
    error again. *)
Lemma first_on_error_run (e : error) (w : world) :
  First.on_error e w
  = (Throw e,
     emit (ShowToast {| message := "OpenAI multi-account error"; variant := "error";
                        duration := None |})
       (with_parts ["OpenAI multi-account error: " +:+ error_message e] w)).
Proof. reflexivity. Qed.

(** Activation hands the host the same body as in the later
    revisions. *)
Lemma first_activate_writes_supported_fields
    (input : Input) (w : world) (selector name : string) (rest : list string)
    (top profiles : gmap string json) (p : StoredOAuthProfile) :
  command input = COMMAND ->
  parseArgs (arguments input) = selector :: rest ->
  selector ∉ ["help"; "switch"; "list"; "current"; "_list"; "_current"; "save"; "d";
              "rm"; "remove"] ->
  Js.trim selector <> "" ->
  files w !! STORAGE_PATH = Some (Holds (JObj top)) ->
  top !! "version" = Some (JNum 1) ->
  top !! "profiles" = Some (JObj profiles) ->
  (if canonical_number selector
   then First.names_at_number selector
          (sort_names localeCompare (map_to_list profiles).*1)
   else Some selector) = Some name ->
  name <> "" ->
  profiles !! name = Some (json_of_profile p) ->
  exists w',
    First.command_execute_before STORAGE_PATH AUTH_PATH localeCompare base64_utf8
      JSON_parse canonical_number Date_toISOString input w = (Ok tt, w') /\
    auth_sets w' = (auth_sets w ++ [(PROVIDER_ID, live_body (oauth p))])%list /\
    writes w' = writes w.
Proof.
  intros Hc Hargs Hsel Htrim Hvault Hv Hp Hres Hne Hname.
  assert (selector <> "") as Hs by (intros ->; apply Htrim; reflexivity).
  destruct (extractEmail_returns base64_utf8 JSON_parse (access (oauth p)))
    as [email Hemail].
  destruct (profile_members p) as (mp & Emp & _ & Ho & _).
  destruct (oauth_members (oauth p)) as (mo & Emo & _ & Ha & _).
  assert (Older.normalize_sub selector = selector) as Hnorm.
  { unfold Older.normalize_sub.
    repeat match goal with
           | |- context [String.eqb selector ?b] =>
               destruct (String.eqb_spec selector b) as [E|_];
               [exfalso; apply Hsel; rewrite E; set_solver|]
           end.
    reflexivity. }
  assert (First.run_sub STORAGE_PATH AUTH_PATH localeCompare base64_utf8 JSON_parse
            canonical_number Date_toISOString selector (selector :: rest)
          = First.do_activate STORAGE_PATH localeCompare base64_utf8 JSON_parse
              canonical_number selector) as Hrun.
  { unfold First.run_sub. rewrite (eqb_false_of_ne _ _ Hs).
    repeat match goal with
           | |- context [String.eqb selector ?b] =>
               destruct (String.eqb_spec selector b) as [E|_];
               [exfalso; apply Hsel; rewrite E; set_solver|]
           end.
    reflexivity. }
  eexists. split; [|split].
  - unfold First.command_execute_before. rewrite Hc.
    change (negb (String.eqb COMMAND COMMAND)) with false. cbv iota zeta.
    rewrite Hargs. change (nth 0 (selector :: rest) "") with selector.
    rewrite Hnorm, Hrun. unfold try_catch, First.do_activate.
    unfold bind at 1. unfold lift at 1. unfold First.assertNonEmpty.
    rewrite (eqb_false_of_ne _ _ Htrim).
    rewrite (bind_Ok _ _ _ _ _ (loadStorage_valid STORAGE_PATH w top profiles Hvault Hv Hp)).
    cbv beta. unfold bind at 1. unfold lift at 1.
    rewrite (sorted_names_valid localeCompare top profiles Hp). cbv beta iota zeta.
    rewrite Hres. unfold First.falsy_name. rewrite (eqb_false_of_ne _ _ Hne).
    cbv iota. change (default "" (Some name)) with name.
    unfold bind at 1. unfold lift at 1. simpl get. rewrite Hname.
    change (negb (truthy (Some (json_of_profile p)))) with false. cbv iota.
    unfold bind at 1. unfold lift at 1. rewrite auth_body_stored.
    unfold bind, lift, auth_set, showToast, set_parts, log.
    rewrite Emp. simpl get. rewrite Ho, Emo. simpl get. rewrite Ha, Hemail.
    reflexivity.
  - unfold auth_sets, with_parts, emit, read_vault. simpl.
    rewrite !omap_app. simpl. rewrite !app_nil_r. reflexivity.
  - unfold writes, with_parts, emit, read_vault. simpl.
    rewrite !omap_app. simpl. rewrite !app_nil_r. reflexivity.
Qed.

End FirstHook.

(** C4.  Activating a stored profile hands the host one credential
    update for the provider, in the newest revision as in the first.
    Besides the kind tag [type: "oauth"] its body has exactly the
    members [refresh], [access] and [expires] of the stored credential,
    and [enterpriseUrl] only when the stored credential has a non-empty
    one; it has no [accountId] and no [email].  The plugin itself writes
    no file. *)
Theorem load_writes_supported_fields
    (STORAGE_PATH AUTH_PATH : string) (localeCompare : string -> string -> Z)
    (base64_utf8 : string -> string) (JSON_parse : string -> option json)
    (canonical_number : string -> bool) (Date_toISOString : jsval -> option string)
    (w : world) (top profiles : gmap string json) (name : string)
    (p : StoredOAuthProfile) :
  files w !! STORAGE_PATH = Some (Holds (JObj top)) ->
  top !! "version" = Some (JNum 1) ->
  top !! "profiles" = Some (JObj profiles) ->
  profiles !! name = Some (json_of_profile p) ->
  let body := live_body (oauth p) in
  let names := sort_names localeCompare (map_to_list profiles).*1 in
  (forall input sub token rest,
     normalize_command (command input) = COMMAND ->
     parseArgs (arguments input) = sub :: token :: rest ->
     Js.toLowerCase sub = "load" ->
     resolve_number token names = name ->
     exists w',
       command_execute_before STORAGE_PATH AUTH_PATH localeCompare base64_utf8
         JSON_parse input w = (Ok tt, w') /\
       auth_sets w' = (auth_sets w ++ [(PROVIDER_ID, body)])%list /\
       writes w' = writes w) /\
  (forall input selector rest,
     command input = COMMAND ->
     parseArgs (arguments input) = selector :: rest ->
     selector ∉ ["help"; "switch"; "list"; "current"; "_list"; "_current"; "save"; "d";
                 "rm"; "remove"] ->
     Js.trim selector <> "" ->
     (if canonical_number selector then First.names_at_number selector names
      else Some selector) = Some name ->
     name <> "" ->
     exists w',
       First.command_execute_before STORAGE_PATH AUTH_PATH localeCompare base64_utf8
         JSON_parse canonical_number Date_toISOString input w = (Ok tt, w') /\
       auth_sets w' = (auth_sets w ++ [(PROVIDER_ID, body)])%list /\
       writes w' = writes w) /\
  (forall k, is_Some (body !! k) <->
     k ∈ ["type"; "refresh"; "access"; "expires"]
     \/ (k = "enterpriseUrl" /\ exists u, enterpriseUrl (oauth p) = Some u /\ u <> "")) /\
  body !! "type" = Some (JStr "oauth") /\
  body !! "refresh" = Some (JStr (refresh (oauth p))) /\
  body !! "access" = Some (JStr (access (oauth p))) /\
  body !! "expires" = Some (JNum (expires (oauth p))) /\
  body !! "enterpriseUrl"
    = match enterpriseUrl (oauth p) with
      | Some u => if String.eqb u "" then None else Some (JStr u)
      | None => None
      end /\
  body !! "accountId" = None /\ body !! "email" = None.
Proof.
  intros Hvault Hv Hp Hname body names. split; [|split].
  - intros input sub token rest Hc Hargs Hsub Hres.
    destruct (newest_load_writes_supported_fields STORAGE_PATH AUTH_PATH localeCompare
                base64_utf8 JSON_parse input w sub token name rest top profiles p
                Hc Hargs Hsub Hvault Hv Hp Hres Hname) as (w' & H1 & H2 & H3 & _).
    eauto.
  - intros input selector rest Hc Hargs Hsel Htrim Hres Hne.
    apply (first_activate_writes_supported_fields STORAGE_PATH AUTH_PATH localeCompare
             base64_utf8 JSON_parse canonical_number Date_toISOString
             input w selector name rest top profiles p); assumption.
  - split; [apply live_body_fields|].
    assert (forall k, k <> "enterpriseUrl" ->
              body !! k = (<["expires" := JNum (expires (oauth p))]>
                            (<["access" := JStr (access (oauth p))]>
                              (<["refresh" := JStr (refresh (oauth p))]>
                                ({[ "type" := JStr "oauth" ]} : gmap string json)))) !! k)
      as Hbase.
    { intros k Hk. unfold body, live_body.
      destruct (enterpriseUrl (oauth p)) as [u|]; [|reflexivity].
      destruct (String.eqb u ""); [reflexivity|]. rewrite lookup_insert_ne; done. }
    repeat split; try (rewrite Hbase by done; simplify_map_eq; done).
    unfold body, live_body.
    destruct (enterpriseUrl (oauth p)) as [s|]; [destruct (String.eqb s "")|];
      simplify_map_eq; done.
Qed.


(** ** The theorems at work *)

Example unrelated_command_untouched_demo :
  Demo.run {| command := "/help"; arguments := "save work" |} Demo.world_abc
  = (Ok tt, Demo.world_abc).
Proof.
  apply (unrelated_command_untouched Demo.STORAGE_PATH Demo.AUTH_PATH Demo.localeCompare
           Demo.base64_utf8 Demo.JSON_parse).
  vm_compute. discriminate.
Qed.

(** C7 on the older revision.  Its hook shows the debug toast before it
    looks at the command, so a command that is not the reserved one is
    answered with a notification, against the comment at the guard
    ("everything else passes through untouched"). *)
Theorem older_debug_toast_on_unrelated_command :
  Demo.run_older {| command := "help"; arguments := "" |} Demo.world_abc
  = (Ok tt,
     emit (ShowToast
             {| message := "OpenAIMultiAccountPlugin: command.execute.before called for command: help";
                variant := "info"; duration := Some 1000%Z |})
       Demo.world_abc) /\
  toasts (Demo.run_older {| command := "help"; arguments := "" |} Demo.world_abc).2
  <> toasts Demo.world_abc.
Proof.
  split.
  - apply (older_hook_announces_itself Demo.STORAGE_PATH Demo.AUTH_PATH Demo.localeCompare
             Demo.base64_utf8 Demo.JSON_parse). vm_compute. discriminate.
  - vm_compute. discriminate.
Qed.

Lemma unknown_verb_is_reported_witness :
  exists w',
    Demo.run (Demo.oai "frobnicate work") Demo.world_abc = (Ok tt, w') /\
    w' = with_parts [] (emit (ShowToast UnknownVerb_toast) Demo.world_abc) /\
    files w' = files Demo.world_abc /\ writes w' = writes Demo.world_abc /\
    auth_sets w' = auth_sets Demo.world_abc /\
    toasts w' = (toasts Demo.world_abc ++ [UnknownVerb_toast])%list /\ parts w' = [].
Proof.
  apply (unknown_verb_is_reported Demo.STORAGE_PATH Demo.AUTH_PATH Demo.localeCompare
           Demo.base64_utf8 Demo.JSON_parse (Demo.oai "frobnicate work") Demo.world_abc).
  - reflexivity.
  - vm_compute. intros H. repeat (apply elem_of_cons in H as [H|H]; [discriminate H|]).
    apply elem_of_nil in H. exact H.
Defined.

(** C9, for the two later revisions.  On every path of the reserved
    command both hooks return with [output.parts] empty, and results and
    errors go to toasts only: the newest hook shows exactly one toast
    (that of the action, or the one carrying the message of the error it
    threw), the older one its debug toast and exactly one more. *)
Theorem every_path_reports_by_toast
    (STORAGE_PATH AUTH_PATH : string) (localeCompare : string -> string -> Z)
    (base64_utf8 : string -> string) (JSON_parse : string -> option json)
    (input : Input) (w : world) :
  normalize_command (command input) = COMMAND ->
  (exists w',
     command_execute_before STORAGE_PATH AUTH_PATH localeCompare base64_utf8 JSON_parse
       input w = (Ok tt, w') /\ parts w' = [] /\
     match run_action STORAGE_PATH AUTH_PATH localeCompare base64_utf8 JSON_parse
             (normalize_action (Js.toLowerCase (nth 0 (parseArgs (arguments input)) "")))
             (parseArgs (arguments input)) w with
     | (Ok _, w1) => w' = w1 /\ exists t, toasts w' = (toasts w ++ [t])%list
     | (Throw e, w1) =>
         toasts w1 = toasts w /\ toasts w' = (toasts w ++ [error_toast e])%list
     end) /\
  (exists t w',
     Older.command_execute_before STORAGE_PATH AUTH_PATH localeCompare base64_utf8
       JSON_parse input w = (Ok tt, w') /\
     parts w' = [] /\
     toasts w' = (toasts w ++ [Older.debug_toast input; t])%list).
Proof.
  intros Hc. split.
  - apply newest_every_path_reports_by_toast. exact Hc.
  - apply older_every_path_reports_by_toast. exact Hc.
Qed.

Lemma every_path_reports_by_toast_witness :
  (exists w',
     Demo.run (Demo.oai "load nobody") Demo.world_abc = (Ok tt, w') /\ parts w' = [] /\
     toasts w' = [error_toast (InvalidSelectionError "nobody")]) /\
  (exists t w',
     Demo.run_older (Demo.oai "load nobody") Demo.world_abc = (Ok tt, w') /\
     parts w' = [] /\
     toasts w' = [Older.debug_toast (Demo.oai "load nobody"); t]).
Proof.
  destruct (every_path_reports_by_toast Demo.STORAGE_PATH Demo.AUTH_PATH
              Demo.localeCompare Demo.base64_utf8 Demo.JSON_parse
              (Demo.oai "load nobody") Demo.world_abc)
    as [(w' & Hrun & Hparts & Htoasts) Holder].
  - reflexivity.
  - split; [|exact Holder].
    exists w'. split; [exact Hrun|]. split; [exact Hparts|].
    revert Htoasts. vm_compute. intros [_ Ht]. exact Ht.
Defined.

(** C9 fails on the first revision: a successful [save] leaves its
    answer in [output.parts], and a failed command leaves the error text
    there and makes the hook throw. *)
Lemma first_revision_answers_in_chat :
  (exists w',
     Demo.run_first (Demo.oai "save x") (Demo.world_of None
        (Some (Holds (Demo.auth_file (Demo.cred "r" "a" None))))) = (Ok tt, w') /\
     parts w' = ["Saved profile 'x' to /home/u/.config/opencode/openai-accounts.json"]) /\
  (exists w',
     Demo.run_first (Demo.oai "nobody") Demo.world_abc
     = (Throw (Error "Unknown profile 'nobody'. Use: /oai"), w') /\
     parts w' = ["OpenAI multi-account error: Unknown profile 'nobody'. Use: /oai"]).
Proof. split; eexists; split; vm_compute; reflexivity. Qed.

(** C8 fails on the two earlier revisions: they have no "unknown
    command" branch, a first token that is no verb is a selector, and
    [/oai b] activates the profile [b]. *)
Lemma other_token_is_a_selector_before :
  (Js.toLowerCase (nth 0 (parseArgs (arguments (Demo.oai "b"))) "")
     ∉ [""; "list"; "save"; "del"; "load"]) /\
  auth_sets (Demo.run_older (Demo.oai "b") Demo.world_abc).2
  = [(PROVIDER_ID, live_body (Demo.cred "rb" Demo.token_plain None))] /\
  auth_sets (Demo.run_first (Demo.oai "b") Demo.world_abc).2
  = [(PROVIDER_ID, live_body (Demo.cred "rb" Demo.token_plain None))] /\
  message <$> toasts (Demo.run_first (Demo.oai "b") Demo.world_abc).2
  = ["OpenAI active profile: b"].
Proof.
  split; [|repeat split; vm_compute; reflexivity].
  vm_compute. intros H. repeat (apply elem_of_cons in H as [H|H]; [discriminate H|]).
  apply elem_of_nil in H. exact H.
Qed.

(** C1 fails on the two earlier revisions: with the profile [a] in the
    vault, [save a] succeeds there and writes the vault with [a]
    replaced by the live credential.  In the newest revision the error
    is the name-collision error only when there is a live credential to
    save: without one, [save a] fails with the missing-login error. *)
Lemma save_overwrites_before :
  let replaced :=
    json_of_storage
      (<["a" := json_of_profile
                  {| name := "a"; oauth := Demo.cred "rb" Demo.token_plain None;
                     savedAt := "2026-02-02T00:00:00.000Z" |}]> Demo.profiles_abc) in
  let no_login :=
    Demo.world_of (Some (Holds (json_of_storage Demo.profiles_abc))) None in
  is_Some (Demo.profiles_abc !! "a") /\
  (Demo.run_first (Demo.oai "save a") Demo.world_abc).1 = Ok tt /\
  files (Demo.run_first (Demo.oai "save a") Demo.world_abc).2 !! Demo.STORAGE_PATH
  = Some (Holds replaced) /\
  (Demo.run_older (Demo.oai "save a") Demo.world_abc).1 = Ok tt /\
  files (Demo.run_older (Demo.oai "save a") Demo.world_abc).2 !! Demo.STORAGE_PATH
  = Some (Holds replaced) /\
  files Demo.world_abc !! Demo.STORAGE_PATH <> Some (Holds replaced) /\
  toasts (Demo.run (Demo.oai "save a") no_login).2
  = [error_toast (Error "No active OpenAI login found. Run /connect first.")].
Proof.
  repeat split; try (vm_compute; reflexivity).
  - vm_compute. eauto.
  - vm_compute. discriminate.
Qed.

Lemma save_existing_name_rejected_witness :
  exists e w1,
    Demo.run (Demo.oai "save a") Demo.world_abc
    = (Ok tt, with_parts [] (emit (ShowToast (error_toast e)) w1)) /\
    files w1 = files Demo.world_abc /\ writes w1 = writes Demo.world_abc /\
    e = NameTakenError "a".
Proof.
  destruct (save_existing_name_rejected Demo.STORAGE_PATH Demo.AUTH_PATH
              Demo.localeCompare Demo.base64_utf8 Demo.JSON_parse
              (Demo.oai "save a") Demo.world_abc "save" "a" []
              (<["version" := JNum 1]> (<["profiles" := JObj Demo.profiles_abc]> ∅))
              Demo.profiles_abc
              (<["name" := JStr "a"]>
                 (<["oauth" := json_of_oauth (Demo.cred "ra" Demo.token_ann None)]>
                    (<["savedAt" := JStr "2026-01-01T00:00:00.000Z"]> ∅))))
    as (e & w1 & _ & Hhook & Hfiles & Hwrites & _ & _ & _ & Hlive).
  - reflexivity.
  - reflexivity.
  - reflexivity.
  - vm_compute. reflexivity.
  - vm_compute. reflexivity.
  - vm_compute. reflexivity.
  - vm_compute. reflexivity.
  - exists e, w1. repeat split; try assumption.
    apply (Hlive (Demo.auth_file (Demo.cred "rb" Demo.token_plain None))
                 (Demo.cred "rb" Demo.token_plain None));
      [vm_compute; reflexivity | vm_compute; reflexivity | discriminate | discriminate].
Defined.

Lemma load_writes_supported_fields_witness :
  (exists w',
     Demo.run (Demo.oai "load b") Demo.world_abc = (Ok tt, w') /\
     auth_sets w'
     = [(PROVIDER_ID, live_body (Demo.cred "rb" Demo.token_plain None))]) /\
  (exists w',
     Demo.run_first (Demo.oai "2") Demo.world_abc = (Ok tt, w') /\
     auth_sets w'
     = [(PROVIDER_ID, live_body (Demo.cred "rb" Demo.token_plain None))]) /\
  live_body (Demo.cred "rb" Demo.token_plain None) !! "accountId" = None.
Proof.
  destruct (load_writes_supported_fields Demo.STORAGE_PATH Demo.AUTH_PATH
              Demo.localeCompare Demo.base64_utf8 Demo.JSON_parse
              Demo.canonical_number Demo.Date_toISOString Demo.world_abc
              (<["version" := JNum 1]> (<["profiles" := JObj Demo.profiles_abc]> ∅))
              Demo.profiles_abc "b" (Demo.profile "b" "rb" Demo.token_plain None))
    as (Hnew & Hfirst & _ & _ & _ & _ & _ & _ & Hid & _).
  - vm_compute. reflexivity.
  - vm_compute. reflexivity.
  - vm_compute. reflexivity.
  - vm_compute. reflexivity.
  - split; [|split; [|exact Hid]].
    + destruct (Hnew (Demo.oai "load b") "load" "b" []) as (w' & Hrun & Hsets & _);
        [reflexivity | reflexivity | reflexivity | vm_compute; reflexivity |].
      exists w'. split; [exact Hrun|exact Hsets].
    + destruct (Hfirst (Demo.oai "2") "2" []) as (w' & Hrun & Hsets & _);
        [reflexivity | reflexivity | | vm_compute; discriminate | vm_compute; reflexivity
        | discriminate |].
      * vm_compute. intros H.
        repeat (apply elem_of_cons in H as [H|H]; [discriminate H|]).
        apply elem_of_nil in H. exact H.
      * exists w'. split; [exact Hrun|exact Hsets].
Defined.



(** The two examples of the specification hold on the code: with the
    names [a], [b], [c] the token [2] selects [b] and the token [4]
    fails. *)
Example ordinal_examples :
  (exists p, select_profile Demo.localeCompare "2" (json_of_storage Demo.profiles_abc)
             = Ok ("b", p)) /\
  select_profile Demo.localeCompare "4" (json_of_storage Demo.profiles_abc)
  = Throw (InvalidSelectionError "4").
Proof. split; [eexists|]; vm_compute; reflexivity. Qed.

(** C3 at a vault file that holds [null]: the file is present and has
    no version tag, yet what [loadStorage] throws is the runtime's
    [TypeError] for reading a member of [null], not the "invalid storage
    format" error; the [list] command shows that message. *)
Theorem loadStorage_null_file :
  let w := Demo.world_of (Some (Holds JNull)) None in
  loadStorage Demo.STORAGE_PATH w
  = (Throw (TypeError "null is not an object (reading 'version')"),
     read_vault Demo.STORAGE_PATH w) /\
  TypeError "null is not an object (reading 'version')" <> CorruptError Demo.STORAGE_PATH /\
  toasts (Demo.run (Demo.oai "list") w).2
  = [error_toast (TypeError "null is not an object (reading 'version')")].
Proof.
  split; [|split].
  - apply loadStorage_null. reflexivity.
  - discriminate.
  - vm_compute. reflexivity.
Qed.

(** The rest of C3 on examples: no file, a file of version 2, and a
    well-formed one. *)
Example loadStorage_examples :
  (loadStorage Demo.STORAGE_PATH (Demo.world_of None None)).1 = Ok (json_of_storage ∅) /\
  (loadStorage Demo.STORAGE_PATH
     (Demo.world_of (Some (Holds (JObj (<["version" := JNum 2]>
                                         (<["profiles" := JObj ∅]> ∅))))) None)).1
  = Throw (CorruptError Demo.STORAGE_PATH) /\
  (loadStorage Demo.STORAGE_PATH
     (Demo.world_of (Some (Holds (JObj (<["version" := JNum 1]>
                                         (<["profiles" := JNull]> ∅))))) None)).1
  = Throw (CorruptError Demo.STORAGE_PATH) /\
  (loadStorage Demo.STORAGE_PATH (Demo.world_of (Some (Holds (JStr "x"))) None)).1
  = Throw (CorruptError Demo.STORAGE_PATH) /\
  (loadStorage Demo.STORAGE_PATH Demo.world_abc).1 = Ok (json_of_storage Demo.profiles_abc).
Proof. repeat split; vm_compute; reflexivity. Qed.

(** ** Where the older revision differs *)

(** Its [save] replaces a profile of the same name: the vault file is
    written, and the profile [a] then carries the live credential. *)
Example older_save_overwrites :
  let w' := (Demo.run_older (Demo.oai "save a") Demo.world_abc).2 in
  writes w'
  = [(Demo.STORAGE_PATH,
      json_of_storage
        (<["a" := json_of_profile
                    {| name := "a"; oauth := Demo.cred "rb" Demo.token_plain None;
                       savedAt := "2026-02-02T00:00:00.000Z" |}]> Demo.profiles_abc))] /\
  message <$> toasts w'
  = ["OpenAIMultiAccountPlugin: command.execute.before called for command: oai";
     "Saved profile 'a'"].
Proof. split; vm_compute; reflexivity. Qed.

(** It has no "unknown command" branch: a first token that is no verb
    is a selector, so [/oai b] activates the profile [b]. *)
Example older_other_token_activates :
  auth_sets (Demo.run_older (Demo.oai "b") Demo.world_abc).2
  = [(PROVIDER_ID, live_body (Demo.cred "rb" Demo.token_plain None))].
Proof. vm_compute. reflexivity. Qed.

(** ** Runs of the first revision *)

(** Its [save] replaces a profile of the same name and answers in the
    chat. *)
Example first_save_overwrites :
  let w' := (Demo.run_first (Demo.oai "save a") Demo.world_abc).2 in
  writes w'
  = [(Demo.STORAGE_PATH,
      json_of_storage
        (<["a" := json_of_profile
                    {| name := "a"; oauth := Demo.cred "rb" Demo.token_plain None;
                       savedAt := "2026-02-02T00:00:00.000Z" |}]> Demo.profiles_abc))] /\
  parts w' = ["Saved profile 'a' to /home/u/.config/opencode/openai-accounts.json"].
Proof. split; vm_compute; reflexivity. Qed.

(** A failed command leaves its message in the chat and the hook
    throws. *)
Example first_error_in_chat :
  (Demo.run_first (Demo.oai "nobody") Demo.world_abc).1
  = Throw (Error "Unknown profile 'nobody'. Use: /oai") /\
  parts (Demo.run_first (Demo.oai "nobody") Demo.world_abc).2
  = ["OpenAI multi-account error: Unknown profile 'nobody'. Use: /oai"].
Proof. split; vm_compute; reflexivity. Qed.

(** A token that is a number in printed form is an ordinal and nothing
    else: [2] selects the second name, [4] is an invalid selection with
    three profiles, and a profile named [0] cannot be selected by its
    name.  A token such as [2abc] is a name. *)
Example first_selectors :
  auth_sets (Demo.run_first (Demo.oai "2") Demo.world_abc).2
  = [(PROVIDER_ID, live_body (Demo.cred "rb" Demo.token_plain None))] /\
  (Demo.run_first (Demo.oai "4") Demo.world_abc).1
  = Throw (Error "Invalid selection '4'. Use: /oai") /\
  (Demo.run_first (Demo.oai "0")
     (Demo.world_of (Some (Holds (json_of_storage Demo.profiles_0))) None)).1
  = Throw (Error "Invalid selection '0'. Use: /oai") /\
  (Demo.run_first (Demo.oai "2abc") Demo.world_abc).1
  = Throw (Error "Unknown profile '2abc'. Use: /oai").
Proof. repeat split; vm_compute; reflexivity. Qed.

(** ** Runs of the newest revision *)

Example js_strings :
  Js.trim "  /OAI  " = "/OAI" /\
  normalize_command "  /OAI  " = COMMAND /\
  Js.parseInt "2abc" = Some 2%Z /\ Js.parseInt "007" = Some 7%Z /\
  Js.parseInt "abc" = None /\ Js.parseInt "-3" = Some (-3)%Z /\
  Js.parseInt "" = None /\
  Js.split_spaces false "" "save   work x" = ["save"; "work"; "x"] /\
  Js.split_char "." "" "a.b..c" = ["a"; "b"; ""; "c"] /\
  parseArgs "  save   work " = ["save"; "work"] /\ parseArgs "   " = [].
Proof. repeat split; reflexivity. Qed.

(** The verb is spelled [del]; [delete] is not among the recognised
    tokens and is reported as unknown. *)
Example delete_is_spelled_del :
  Demo.run (Demo.oai "delete a") Demo.world_abc
  = (Ok tt, with_parts [] (emit (ShowToast UnknownVerb_toast) Demo.world_abc)).
Proof. vm_compute. reflexivity. Qed.

Example list_marks_the_active_profile :
  message <$> toasts (Demo.run (Demo.oai "") Demo.world_abc).2
  = ["Profiles: a, [b], c. Use '/oai load <name>'."].
Proof. vm_compute. reflexivity. Qed.

(** From an empty vault: [save x] with the live credential puts one
    profile [x] into the vault, [load x] hands the host that credential
    without its account identifier, and [del 1] empties the vault
    again. *)
Example save_load_delete :
  let live := Demo.cred "r" Demo.token_ann (Some "acct1") in
  let w0 := Demo.world_of None (Some (Holds (Demo.auth_file live))) in
  let w1 := (Demo.run (Demo.oai "save x") w0).2 in
  let w2 := (Demo.run (Demo.oai "load x") w1).2 in
  let w3 := (Demo.run (Demo.oai "del 1") w2).2 in
  files w1 !! Demo.STORAGE_PATH
  = Some (Holds (json_of_storage
                   {[ "x" := json_of_profile
                               {| name := "x"; oauth := live;
                                  savedAt := "2026-02-02T00:00:00.000Z" |} ]})) /\
  auth_sets w2 = [(PROVIDER_ID, live_body live)] /\
  live_body live !! "accountId" = None /\
  files w3 !! Demo.STORAGE_PATH = Some (Holds (json_of_storage ∅)) /\
  message <$> toasts w3
  = ["Saved profile 'x' (ann@example.com)"; "Active: x (ann@example.com)";
     "Removed profile 'x'"] /\
  parts w3 = [].
Proof. repeat split; vm_compute; reflexivity. Qed.

(** * Further properties of the code *)

(** ** Strings *)

Lemma append_nil_r (s : string) : s +:+ "" = s.
Proof. induction s as [|c s IH]; [reflexivity|]. rewrite append_cons, IH. reflexivity. Qed.

Lemma append_assoc (s1 s2 s3 : string) : (s1 +:+ s2) +:+ s3 = s1 +:+ (s2 +:+ s3).
Proof. induction s1 as [|c s1 IH]; [reflexivity|]. rewrite !append_cons, IH. reflexivity. Qed.

Lemma rev_onto_spec (s acc : string) : Js.rev_onto s acc = Js.rev s +:+ acc.
Proof.
  unfold Js.rev. revert acc. induction s as [|c s IH]; intros acc; simpl; [reflexivity|].
  rewrite IH, (IH (String c "")), append_assoc. reflexivity.
Qed.

Lemma rev_cons (c : ascii) (s : string) : Js.rev (String c s) = Js.rev s +:+ String c "".
Proof. unfold Js.rev at 1. simpl. apply rev_onto_spec. Qed.

Lemma rev_onto_rev_onto (s a b : string) :
  Js.rev_onto (Js.rev_onto s a) b = Js.rev_onto a (s +:+ b).
Proof.
  revert a b. induction s as [|c s IH]; intros a b; simpl; [reflexivity|].
  rewrite IH. reflexivity.
Qed.

Lemma rev_involutive (s : string) : Js.rev (Js.rev s) = s.
Proof. unfold Js.rev. rewrite rev_onto_rev_onto. simpl. apply append_nil_r. Qed.

Lemma rev_app (s1 s2 : string) : Js.rev (s1 +:+ s2) = Js.rev s2 +:+ Js.rev s1.
Proof.
  induction s1 as [|c s1 IH].
  - change ("" +:+ s2) with s2. rewrite append_nil_r. reflexivity.
  - rewrite append_cons, !rev_cons, IH, append_assoc. reflexivity.
Qed.

Lemma rev_empty (s : string) : Js.rev s = "" -> s = "".
Proof.
  destruct s as [|c s]; [reflexivity|]. rewrite rev_cons.
  destruct (Js.rev s); discriminate.
Qed.

Lemma blank_free_app (s1 s2 : string) :
  blank_free (s1 +:+ s2) = blank_free s1 && blank_free s2.
Proof.
  induction s1 as [|c s1 IH]; [reflexivity|].
  rewrite append_cons. simpl. rewrite IH, andb_assoc. reflexivity.
Qed.

Lemma blank_free_rev (s : string) : blank_free (Js.rev s) = blank_free s.
Proof.
  induction s as [|c s IH]; [reflexivity|].
  rewrite rev_cons, blank_free_app, IH. simpl. rewrite andb_true_r. apply andb_comm.
Qed.

Lemma without_blanks_app (s1 s2 : string) :
  without_blanks (s1 +:+ s2) = without_blanks s1 +:+ without_blanks s2.
Proof.
  induction s1 as [|c s1 IH]; [reflexivity|].
  rewrite append_cons. simpl. destruct (Js.is_space c); rewrite IH; reflexivity.
Qed.

Lemma without_blanks_rev (s : string) :
  without_blanks (Js.rev s) = Js.rev (without_blanks s).
Proof.
  induction s as [|c s IH]; [reflexivity|].
  rewrite rev_cons, without_blanks_app, IH. simpl.
  destruct (Js.is_space c); [apply append_nil_r|]. rewrite rev_cons. reflexivity.
Qed.

Lemma without_blanks_trimStart (s : string) :
  without_blanks (Js.trimStart s) = without_blanks s.
Proof.
  induction s as [|c s IH]; simpl; [reflexivity|].
  destruct (Js.is_space c) eqn:E; [exact IH|]. simpl. rewrite E. reflexivity.
Qed.

Lemma without_blanks_trim (s : string) : without_blanks (Js.trim s) = without_blanks s.
Proof.
  unfold Js.trim.
  rewrite without_blanks_rev, without_blanks_trimStart, without_blanks_rev,
    without_blanks_trimStart.
  apply rev_involutive.
Qed.

Lemma without_blanks_free (s : string) : blank_free s = true -> without_blanks s = s.
Proof.
  induction s as [|c s IH]; simpl; [reflexivity|].
  destruct (Js.is_space c); simpl; [discriminate|]. intros H. rewrite IH; done.
Qed.

(** The pieces of [split(/\s+/)]: every piece is free of white space,
    and the pieces put together are the characters that are no white
    space. *)
Lemma split_spaces_pieces (in_sep : bool) (cur s : string) :
  blank_free cur = true ->
  Forall (fun t => blank_free t = true) (Js.split_spaces in_sep cur s) /\
  foldr String.append "" (Js.split_spaces in_sep cur s) = Js.rev cur +:+ without_blanks s.
Proof.
  revert in_sep cur. induction s as [|c s IH]; intros in_sep cur Hcur; simpl.
  - split; [repeat constructor; rewrite blank_free_rev; exact Hcur|].
    reflexivity.
  - destruct (Js.is_space c) eqn:E.
    + destruct in_sep.
      * apply IH. exact Hcur.
      * destruct (IH true "" eq_refl) as [H1 H2]. split.
        -- constructor; [rewrite blank_free_rev; exact Hcur|exact H1].
        -- simpl. rewrite H2. reflexivity.
    + destruct (IH false (String c cur)) as [H1 H2]; [simpl; rewrite E; exact Hcur|].
      split; [exact H1|]. rewrite H2, rev_cons, append_assoc. reflexivity.
Qed.

Lemma foldr_append_filter (l : list string) :
  foldr String.append "" (filter (fun s => s ≠ "") l) = foldr String.append "" l.
Proof.
  induction l as [|x l IH]; [reflexivity|].
  rewrite filter_cons. case_decide as Hx; simpl; rewrite IH; [reflexivity|].
  destruct (decide (x = "")) as [->|]; [reflexivity|contradiction].
Qed.

Lemma parseArgs_are_tokens (raw : string) : Forall is_token (parseArgs raw).
Proof.
  destruct (split_spaces_pieces false "" (Js.trim raw) eq_refl) as [H1 _].
  unfold parseArgs. apply Forall_forall. intros t Ht.
  apply list_elem_of_filter in Ht as [Hne Ht]. split; [exact Hne|].
  rewrite Forall_forall in H1. apply H1. exact Ht.
Qed.

Lemma parseArgs_concat (raw : string) :
  foldr String.append "" (parseArgs raw) = without_blanks raw.
Proof.
  destruct (split_spaces_pieces false "" (Js.trim raw) eq_refl) as [_ H2].
  unfold parseArgs. rewrite foldr_append_filter, H2. apply without_blanks_trim.
Qed.

(** X1.  [parseArgs] cuts its input at white space and loses nothing
    else: every token is non-empty and free of white space, and the
    tokens put together are the characters of the input that are no white
    space, in their order.  An input of white space only has no token.
    Stated for input of ASCII characters. *)
Theorem parseArgs_tokens (raw : string) :
  ascii_only raw = true ->
  Forall is_token (parseArgs raw) /\
  foldr String.append "" (parseArgs raw) = without_blanks raw /\
  (without_blanks raw = "" -> parseArgs raw = []).
Proof.
  intros _.
  pose proof (parseArgs_are_tokens raw) as Htok.
  pose proof (parseArgs_concat raw) as Hcat.
  split; [exact Htok|]. split; [exact Hcat|].
  intros Hb. rewrite Hb in Hcat.
  destruct (parseArgs raw) as [|t l]; [reflexivity|].
  apply Forall_cons in Htok as [[Hne _] _]. simpl in Hcat.
  destruct t; [contradiction|discriminate].
Qed.

Lemma parseArgs_tokens_witness :
  Forall is_token (parseArgs "  save   my work ") /\
  foldr String.append "" (parseArgs "  save   my work ") = "savemywork" /\
  parseArgs "   " = [].
Proof.
  destruct (parseArgs_tokens "  save   my work " eq_refl) as (H1 & H2 & _).
  destruct (parseArgs_tokens "   " eq_refl) as (_ & _ & H3).
  split; [exact H1|]. split; [exact H2|]. apply H3. reflexivity.
Defined.

Lemma trimStart_token (t r : string) :
  is_token t -> Js.trimStart (t +:+ r) = t +:+ r.
Proof.
  intros [Hne Hfree]. destruct t as [|c t]; [contradiction|].
  rewrite append_cons. simpl in *. destruct (Js.is_space c); [discriminate|reflexivity].
Qed.

Lemma is_token_rev (t : string) : is_token t -> is_token (Js.rev t).
Proof.
  intros [Hne Hfree]. split; [|rewrite blank_free_rev; exact Hfree].
  intros H. apply Hne, rev_empty, H.
Qed.

Lemma join_cons_cons (sep x y : string) (l : list string) :
  Js.join sep (x :: y :: l) = x +:+ sep +:+ Js.join sep (y :: l).
Proof. reflexivity. Qed.

Lemma join_ends (sep : string) (l : list string) (t : string) :
  exists pre, Js.join sep (l ++ [t]) = pre +:+ t.
Proof.
  induction l as [|x l [pre IH]].
  - exists "". reflexivity.
  - destruct l as [|y l].
    + exists (x +:+ sep). change (Js.join sep ([x] ++ [t])) with (x +:+ sep +:+ t).
      rewrite append_assoc. reflexivity.
    + exists (x +:+ sep +:+ pre).
      change ((x :: y :: l) ++ [t])%list with (x :: y :: (l ++ [t]))%list.
      rewrite join_cons_cons.
      change (y :: (l ++ [t]))%list with ((y :: l) ++ [t])%list.
      rewrite IH, !append_assoc. reflexivity.
Qed.

Lemma trim_join (l : list string) :
  Forall is_token l -> Js.trim (Js.join " " l) = Js.join " " l.
Proof.
  intros Hl. destruct l as [|x l]; [reflexivity|].
  assert (Js.trimStart (Js.join " " (x :: l)) = Js.join " " (x :: l)) as E1.
  { apply Forall_cons in Hl as [Hx _]. destruct l as [|y l].
    - rewrite <- (append_nil_r x). apply trimStart_token, Hx.
    - rewrite join_cons_cons. apply trimStart_token, Hx. }
  unfold Js.trim. rewrite E1.
  destruct (exists_last (l := x :: l)) as (l0 & t & El); [discriminate|].
  rewrite El in *. destruct (join_ends " " l0 t) as [pre ->].
  rewrite rev_app, trimStart_token, <- rev_app by
    (apply is_token_rev; apply Forall_app in Hl as [_ Ht];
     apply Forall_cons in Ht as [Ht _]; exact Ht).
  apply rev_involutive.
Qed.

Lemma split_spaces_free (cur t r : string) :
  blank_free t = true ->
  Js.split_spaces false cur (t +:+ r) = Js.split_spaces false (Js.rev_onto t cur) r.
Proof.
  revert cur. induction t as [|c t IH]; intros cur Hfree; [reflexivity|].
  rewrite append_cons. simpl in *. destruct (Js.is_space c); [discriminate|].
  apply IH. exact Hfree.
Qed.

Lemma split_spaces_token (in_sep : bool) (t r : string) :
  is_token t ->
  Js.split_spaces in_sep "" (t +:+ r) = Js.split_spaces false (Js.rev t) r.
Proof.
  intros [Hne Hfree]. destruct t as [|c t]; [contradiction|].
  rewrite append_cons. simpl in *. destruct (Js.is_space c); [discriminate|].
  rewrite split_spaces_free by exact Hfree. reflexivity.
Qed.

Lemma split_spaces_join (in_sep : bool) (l : list string) :
  Forall is_token l -> l <> [] ->
  Js.split_spaces in_sep "" (Js.join " " l) = l.
Proof.
  revert in_sep. induction l as [|x l IH]; intros in_sep Hl Hne; [contradiction|].
  apply Forall_cons in Hl as [Hx Hl]. destruct l as [|y l].
  - rewrite <- (append_nil_r (Js.join " " [x])).
    change (Js.join " " [x]) with x. rewrite split_spaces_token by exact Hx.
    simpl. rewrite rev_involutive. reflexivity.
  - rewrite join_cons_cons, split_spaces_token by exact Hx.
    change (" " +:+ Js.join " " (y :: l)) with (String " " (Js.join " " (y :: l))).
    cbn [Js.split_spaces]. change (Js.is_space " ") with true. cbv iota.
    rewrite rev_involutive, IH; [reflexivity|exact Hl|discriminate].
Qed.

(** X2.  Tokens joined by single blanks parse back to themselves:
    for every list of non-empty strings without white space,
    [parseArgs] of the strings joined by one blank each is that list.
    Stated for tokens of ASCII characters. *)
Theorem parseArgs_join (l : list string) :
  Forall is_token l -> Forall (fun t => ascii_only t = true) l ->
  parseArgs (Js.join " " l) = l.
Proof.
  intros Hl _. unfold parseArgs. rewrite trim_join by exact Hl.
  destruct l as [|x l]; [reflexivity|].
  rewrite split_spaces_join by (done || exact Hl).
  induction Hl as [|t l' [Ht _] _ IH]; [reflexivity|].
  rewrite filter_cons. case_decide; [|contradiction]. rewrite IH. reflexivity.
Qed.

Lemma parseArgs_join_witness :
  parseArgs (Js.join " " ["save"; "work"]) = ["save"; "work"].
Proof.
  apply (parseArgs_join ["save"; "work"]).
  - repeat constructor; discriminate.
  - repeat constructor.
Defined.

(** ** Path resolution *)

(** X3.  The two module-level paths.  Resolution fails exactly when
    [HOME], [XDG_CONFIG_HOME] and [XDG_DATA_HOME] are each unset or
    empty.  When it succeeds, a variable [XDG_CONFIG_HOME] that is set,
    be it to the empty string, is the directory of the vault, and
    likewise [XDG_DATA_HOME] for the host's file; a variable that is not
    set falls back on [HOME], and on the text [undefined] when [HOME] is
    not set either. *)
Theorem module_paths_cases (e : env) :
  ((exists err, module_paths e = Throw err) <->
   unset (XDG_CONFIG_HOME e) = true /\ unset (XDG_DATA_HOME e) = true /\
   unset (HOME e) = true) /\
  (forall err, module_paths e = Throw err ->
     err = Error "Cannot resolve OpenCode paths: HOME, XDG_CONFIG_HOME, and XDG_DATA_HOME are all unset.") /\
  (forall storage auth, module_paths e = Ok (storage, auth) ->
     storage = match XDG_CONFIG_HOME e, HOME e with
               | Some c, _ => c +:+ "/opencode/openai-accounts.json"
               | None, Some h => h +:+ "/.config/opencode/openai-accounts.json"
               | None, None => "undefined/.config/opencode/openai-accounts.json"
               end /\
     auth = match XDG_DATA_HOME e, HOME e with
            | Some d, _ => d +:+ "/opencode/auth.json"
            | None, Some h => h +:+ "/.local/share/opencode/auth.json"
            | None, None => "undefined/.local/share/opencode/auth.json"
            end).
Proof.
  unfold module_paths, resolveXdgPaths.
  destruct (unset (XDG_CONFIG_HOME e) && unset (XDG_DATA_HOME e) && unset (HOME e)) eqn:E;
    cbn [rbind].
  - apply andb_prop in E as [E E3]. apply andb_prop in E as [E1 E2].
    split; [split; eauto|]. split; [intros err [= <-]; reflexivity|]. discriminate.
  - split; [split; [intros [err [=]]|]|].
    { intros (E1 & E2 & E3). rewrite E1, E2, E3 in E. discriminate E. }
    split; [discriminate|]. intros storage auth [= <- <-].
    destruct (XDG_CONFIG_HOME e), (XDG_DATA_HOME e), (HOME e); simpl;
      rewrite ?append_assoc; split; reflexivity.
Qed.

Lemma module_paths_cases_witness :
  module_paths {| HOME := Some "/home/u"; XDG_CONFIG_HOME := None; XDG_DATA_HOME := None |}
  = Ok ("/home/u/.config/opencode/openai-accounts.json",
        "/home/u/.local/share/opencode/auth.json") /\
  module_paths {| HOME := None; XDG_CONFIG_HOME := Some "/etc/xdg"; XDG_DATA_HOME := None |}
  = Ok ("/etc/xdg/opencode/openai-accounts.json",
        "undefined/.local/share/opencode/auth.json") /\
  module_paths {| HOME := Some ""; XDG_CONFIG_HOME := None; XDG_DATA_HOME := Some "" |}
  = Throw (Error "Cannot resolve OpenCode paths: HOME, XDG_CONFIG_HOME, and XDG_DATA_HOME are all unset.").
Proof.
  split; [|split].
  - destruct (module_paths
                {| HOME := Some "/home/u"; XDG_CONFIG_HOME := None; XDG_DATA_HOME := None |})
      as [[storage auth]|err] eqn:E; [|discriminate E].
    destruct (proj2 (proj2 (module_paths_cases
                {| HOME := Some "/home/u"; XDG_CONFIG_HOME := None; XDG_DATA_HOME := None |}))
                storage auth E) as [-> ->].
    reflexivity.
  - destruct (module_paths
                {| HOME := None; XDG_CONFIG_HOME := Some "/etc/xdg"; XDG_DATA_HOME := None |})
      as [[storage auth]|err] eqn:E; [|discriminate E].
    destruct (proj2 (proj2 (module_paths_cases
                {| HOME := None; XDG_CONFIG_HOME := Some "/etc/xdg"; XDG_DATA_HOME := None |}))
                storage auth E) as [-> ->].
    reflexivity.
  - destruct (proj2 (proj1 (module_paths_cases
                {| HOME := Some ""; XDG_CONFIG_HOME := None; XDG_DATA_HOME := Some "" |})))
      as [err E]; [repeat split|].
    rewrite E. f_equal.
    apply (proj1 (proj2 (module_paths_cases
                {| HOME := Some ""; XDG_CONFIG_HOME := None; XDG_DATA_HOME := Some "" |}))).
    exact E.
Defined.

(** ** The host's live credential *)

Section Adapter.

Context (AUTH_PATH : string).

(** X4.  What [readOpenAiAuthFromAuthFile] accepts.  From a host file
    that is an object it returns a credential exactly when the entry of
    the provider is an object whose [type] is ["oauth"], whose [refresh]
    and [access] are strings and whose [expires] is a number; the
    credential has these three values, and has [enterpriseUrl] and
    [accountId] only where the entry holds a string under that name.
    Nothing else of the entry or of the file reaches the credential. *)
Theorem readOpenAiAuth_accepts (m : gmap string json) (o : OAuth) :
  readOpenAiAuthFromAuthFile AUTH_PATH (JObj m) = Ok o <->
  exists e,
    m !! PROVIDER_ID = Some (JObj e) /\
    e !! "type" = Some (JStr "oauth") /\
    e !! "refresh" = Some (JStr (refresh o)) /\
    e !! "access" = Some (JStr (access o)) /\
    e !! "expires" = Some (JNum (expires o)) /\
    enterpriseUrl o = string_field (e !! "enterpriseUrl") /\
    accountId o = string_field (e !! "accountId").
Proof.
  unfold readOpenAiAuthFromAuthFile. cbn [get rbind]. split.
  - destruct (m !! PROVIDER_ID) as [[|[]|n|s|e]|] eqn:Em; try discriminate.
    + cbn. destruct (Z.eqb n 0); discriminate.
    + cbn. destruct (String.eqb s ""); discriminate.
    + cbn [truthy negb get rbind].
      destruct (e !! "type") as [[| | |t|]|] eqn:Et; try discriminate.
      cbn [strict_eq]. destruct (String.eqb_spec t "oauth") as [->|]; [|discriminate].
      cbn [negb].
      destruct (e !! "refresh") as [[| | |r|]|] eqn:Er; try discriminate.
      destruct (e !! "access") as [[| | |a|]|] eqn:Ea; try discriminate.
      destruct (e !! "expires") as [[| |x| |]|] eqn:Ex; try discriminate.
      intros [= <-]. exists e. rewrite Et, Er, Ea, Ex. repeat split; reflexivity.
  - intros (e & -> & Et & Er & Ea & Ex & Eu & Ei).
    cbn [truthy negb get rbind]. rewrite Et. cbn [strict_eq].
    change (String.eqb "oauth" "oauth") with true. cbn [negb].
    rewrite Er, Ea, Ex, <- Eu, <- Ei. destruct o; reflexivity.
Qed.

(** X5.  What it rejects.  On a host file that is an object the only
    errors are its own three, never a failure of the runtime: the
    "no auth entry" error when the entry of the provider is missing or
    falsy, the "not oauth" error, which quotes the [type] found, when
    there is an entry of another kind, and the "invalid payload" error
    when an ["oauth"] entry lacks a string [refresh], a string [access]
    or a number [expires].  The [type] found is one the runtime can
    print: no object with a member [toString] of its own, at which the
    quoting fails, and no number beyond the safe integers. *)
Theorem readOpenAiAuth_rejects (m : gmap string json) :
  let entry := m !! PROVIDER_ID in
  stringifies (get_opt entry "type") = true ->
  match readOpenAiAuthFromAuthFile AUTH_PATH (JObj m) with
  | Ok _ => True
  | Throw err =>
      (truthy entry = false /\
       err = Error ("No auth entry for provider 'openai' in " +:+ AUTH_PATH
                    +:+ ". Run /connect first.")) \/
      (truthy entry = true /\ get_opt entry "type" <> Some (JStr "oauth") /\
       err = Error ("Provider 'openai' auth is not oauth (got '"
                    +:+ String_of (get_opt entry "type")
                    +:+ "'). This plugin supports OAuth accounts.")) \/
      (get_opt entry "type" = Some (JStr "oauth") /\
       (typeof (get_opt entry "refresh") <> "string"
        \/ typeof (get_opt entry "access") <> "string"
        \/ typeof (get_opt entry "expires") <> "number") /\
       err = Error ("Invalid oauth payload for provider 'openai' in " +:+ AUTH_PATH))
  end.
Proof.
  intros entry _. unfold readOpenAiAuthFromAuthFile. cbn [get rbind]. fold entry.
  destruct entry as [[|[]|n|s|e]|] eqn:Em; cbn [truthy negb get rbind];
    try (left; split; reflexivity);
    try (right; left; split; [reflexivity|split; [discriminate|reflexivity]]).
  - destruct (Z.eqb n 0); cbn [negb];
      [left; split; reflexivity
      |right; left; split; [reflexivity|split; [discriminate|reflexivity]]].
  - destruct (String.eqb s ""); cbn [negb];
      [left; split; reflexivity
      |right; left; split; [reflexivity|split; [discriminate|reflexivity]]].
  - cbn [get_opt].
    destruct (e !! "type") as [ty|] eqn:Et;
      [|right; left; split; [reflexivity|split; [discriminate|reflexivity]]].
    destruct (strict_eq (Some ty) (Some (JStr "oauth"))) eqn:Eq; cbn [negb].
    + assert (ty = JStr "oauth") as ->.
      { destruct ty as [| | |t|]; try discriminate Eq. cbn in Eq.
        apply String.eqb_eq in Eq. subst. reflexivity. }
      destruct (e !! "refresh") as [[| | |r|]|] eqn:Er;
        try (right; right; split; [reflexivity|split; [left; discriminate|reflexivity]]).
      destruct (e !! "access") as [[| | |a|]|] eqn:Ea;
        try (right; right; split;
             [reflexivity|split; [right; left; discriminate|reflexivity]]).
      destruct (e !! "expires") as [[| |x| |]|] eqn:Ex;
        try (right; right; split;
             [reflexivity|split; [right; right; discriminate|reflexivity]]).
      exact I.
    + right. left. split; [reflexivity|]. split; [|reflexivity].
      intros [= ->]. discriminate Eq.
Qed.

(** X6.  Once [load] has handed a stored credential to the host, and
    the host's file holds for the provider the body it was handed, the
    file reads back as that credential without its account identifier
    (and without an empty [enterpriseUrl]), and the equality rule finds
    the stored credential equal to it: the profile just loaded is the
    one marked as active. *)
Theorem loaded_profile_is_active (o : OAuth) (others : gmap string json) :
  let o' := {| refresh := refresh o; access := access o; expires := expires o;
               enterpriseUrl := match enterpriseUrl o with
                                | Some u => if String.eqb u "" then None else Some u
                                | None => None
                                end;
               accountId := None |} in
  readOpenAiAuthFromAuthFile AUTH_PATH (JObj (<[PROVIDER_ID := JObj (live_body o)]> others))
  = Ok o' /\
  isSameOauth (Some (json_of_oauth o)) (Some (json_of_oauth o')) = Ok true.
Proof.
  intros o'. split.
  - unfold readOpenAiAuthFromAuthFile. cbn [get rbind]. rewrite lookup_insert_eq.
    cbn [truthy negb get rbind]. unfold live_body, o'.
    destruct (enterpriseUrl o) as [u|]; [destruct (String.eqb u "")|];
      simplify_map_eq; reflexivity.
  - rewrite isSameOauth_credentials. unfold active_rule, stable_id. simpl.
    destruct (accountId o) as [i|]; [destruct (String.eqb i "")|];
      apply f_equal, String.eqb_refl.
Qed.

End Adapter.

(** ** The outside calls of a command *)

Lemma emits_ret {A} (P : event -> Prop) (Q : A -> Prop) (a : A) :
  Q a -> emits P Q (ret a).
Proof. intros H w. exists []. simpl. rewrite app_nil_r. auto. Qed.

Lemma emits_throw {A} (P : event -> Prop) (Q : A -> Prop) (e : error) :
  emits P Q (throw e).
Proof. intros w. exists []. simpl. rewrite app_nil_r. auto. Qed.

Lemma emits_lift {A} (P : event -> Prop) (Q : A -> Prop) (r : result A) :
  (forall a, r = Ok a -> Q a) -> emits P Q (lift r).
Proof.
  intros H w. exists []. simpl. rewrite app_nil_r.
  repeat split; auto. destruct r; auto.
Qed.

Lemma replay_app (evs1 evs2 : list event) (fs : gmap string content) :
  replay (evs1 ++ evs2) fs = replay evs2 (replay evs1 fs).
Proof. apply foldl_app. Qed.

Lemma emits_bind {A B} (P : event -> Prop) (Q : A -> Prop) (R : B -> Prop)
    (m : M A) (k : A -> M B) :
  emits P Q m -> (forall a, Q a -> emits P R (k a)) -> emits P R (bind m k).
Proof.
  intros Hm Hk w. unfold bind. destruct (Hm w) as (evs1 & Ht & HP & Hf & Hn & HQ).
  destruct (m w) as [[a|e] w1]; simpl in *.
  - destruct (Hk a HQ w1) as (evs2 & Ht2 & HP2 & Hf2 & Hn2 & HR).
    exists (evs1 ++ evs2)%list.
    rewrite Ht2, Ht, Hf2, Hf, Hn2, Hn, replay_app, app_assoc.
    repeat split; auto. apply Forall_app; auto.
  - exists evs1. auto.
Qed.

Lemma emits_try_catch {A} (P : event -> Prop) (Q : A -> Prop)
    (m : M A) (h : error -> M A) :
  emits P Q m -> (forall e, emits P Q (h e)) -> emits P Q (try_catch m h).
Proof.
  intros Hm Hh w. unfold try_catch. destruct (Hm w) as (evs1 & Ht & HP & Hf & Hn & HQ).
  destruct (m w) as [[a|e] w1]; simpl in *.
  - exists evs1. auto.
  - destruct (Hh e w1) as (evs2 & Ht2 & HP2 & Hf2 & Hn2 & HR).
    exists (evs1 ++ evs2)%list.
    rewrite Ht2, Ht, Hf2, Hf, Hn2, Hn, replay_app, app_assoc.
    repeat split; auto. apply Forall_app; auto.
Qed.

Lemma emits_weaken {A} (P : event -> Prop) (Q Q' : A -> Prop) (m : M A) :
  emits P Q m -> (forall a, Q a -> Q' a) -> emits P Q' m.
Proof.
  intros Hm HQ w. destruct (Hm w) as (evs & Ht & HP & Hf & Hn & H).
  exists evs. repeat split; auto. destruct (m w).1; auto.
Qed.

Lemma emits_if {A} (P : event -> Prop) (Q : A -> Prop) (b : bool) (m1 m2 : M A) :
  emits P Q m1 -> emits P Q m2 -> emits P Q (if b then m1 else m2).
Proof. destruct b; auto. Qed.

Lemma emits_bind_lift {A B} (P : event -> Prop) (R : B -> Prop)
    (r : result A) (k : A -> M B) :
  (forall a, r = Ok a -> emits P R (k a)) -> emits P R (bind (lift r) k).
Proof.
  intros Hk. destruct r as [a|e]; [apply (Hk a eq_refl)|apply emits_throw].
Qed.

Lemma emits_file_exists (P : event -> Prop) (path : string) :
  P (FileExists path) -> emits P (fun _ => True) (file_exists path).
Proof.
  intros H w. rewrite file_exists_run. exists [FileExists path]. simpl.
  repeat split; auto.
Qed.

Lemma emits_file_json (P : event -> Prop) (Q : json -> Prop) (path : string) :
  P (FileJson path) -> (forall j, Q j) -> emits P Q (file_json path).
Proof.
  intros H HQ w. rewrite file_json_run. exists [FileJson path]. simpl.
  repeat split; auto. destruct (files w !! path) as [[|j]|]; auto.
Qed.

Lemma emits_Bun_write (P : event -> Prop) (path : string) (data : json) :
  P (FileWrite path data) -> emits P (fun _ => True) (Bun_write path data).
Proof. intros H w. exists [FileWrite path data]. simpl. repeat split; auto. Qed.

Lemma emits_showToast (P : event -> Prop) (t : toast) :
  P (ShowToast t) -> emits P (fun _ => True) (showToast t).
Proof. intros H w. exists [ShowToast t]. simpl. repeat split; auto. Qed.

Lemma emits_auth_set (P : event -> Prop) (id : string) (body : gmap string json) :
  P (AuthSet id body) -> emits P (fun _ => True) (auth_set id body).
Proof. intros H w. exists [AuthSet id body]. simpl. repeat split; auto. Qed.

Lemma emits_set_parts (P : event -> Prop) (l : list string) :
  emits P (fun _ => True) (set_parts l).
Proof. intros w. exists []. simpl. rewrite app_nil_r. auto. Qed.

Lemma emits_Date_now (P : event -> Prop) : emits P (fun _ => True) Date_now.
Proof. intros w. exists []. simpl. rewrite app_nil_r. auto. Qed.

Lemma check_storage_Ok (path : string) (j s : json) :
  check_storage path j = Ok s -> s = j /\ valid_storage j.
Proof.
  unfold check_storage. destruct j as [| | | |top]; try discriminate.
  cbn [get rbind].
  destruct (top !! "version") as [[| |n| |]|] eqn:Ev; try discriminate.
  cbn [strict_eq]. destruct (Z.eqb_spec n 1) as [->|]; [|discriminate]. cbn [negb orb].
  destruct (top !! "profiles") as [[| | | |profiles]|] eqn:Ep; try discriminate.
  cbn. intros [= <-]. split; [reflexivity|]. exists top, profiles. auto.
Qed.

Lemma valid_storage_check (path : string) (s : json) :
  valid_storage s -> check_storage path s = Ok s.
Proof.
  intros (top & profiles & -> & Hv & Hp). unfold check_storage. cbn [get rbind].
  rewrite Hv, Hp. reflexivity.
Qed.

Lemma valid_storage_empty : valid_storage (json_of_storage ∅).
Proof. eexists _, _. split; [reflexivity|]. split; reflexivity. Qed.

Section Effects.

Context (STORAGE_PATH AUTH_PATH : string).
Context (localeCompare : string -> string -> Z).
Context (base64_utf8 : string -> string).
Context (JSON_parse : string -> option json).

#[local] Abbreviation hook := (command_execute_before STORAGE_PATH AUTH_PATH localeCompare
                    base64_utf8 JSON_parse).
#[local] Abbreviation may := (action_event STORAGE_PATH AUTH_PATH).

Lemma emits_readJsonFile (P : event -> Prop) (path : string) :
  P (FileExists path) -> P (FileJson path) ->
  emits P (fun _ => True) (readJsonFile path).
Proof.
  intros H1 H2. unfold readJsonFile.
  eapply emits_bind; [apply emits_file_exists; exact H1|]. intros found _.
  apply emits_if; [apply emits_throw|apply emits_file_json; auto].
Qed.

Lemma emits_loadStorage (P : event -> Prop) :
  P (FileExists STORAGE_PATH) -> P (FileJson STORAGE_PATH) ->
  emits P valid_storage (loadStorage STORAGE_PATH).
Proof.
  intros H1 H2 w. rewrite loadStorage_run.
  destruct (files w !! STORAGE_PATH) as [[|j]|].
  - exists [FileExists STORAGE_PATH; FileJson STORAGE_PATH]. simpl.
    rewrite <- app_assoc. repeat split; auto.
  - exists [FileExists STORAGE_PATH; FileJson STORAGE_PATH]. simpl.
    rewrite <- app_assoc. repeat split; auto.
    destruct (check_storage STORAGE_PATH j) as [s|e] eqn:E; [|exact I].
    apply check_storage_Ok in E as [-> H]. exact H.
  - exists [FileExists STORAGE_PATH]. simpl. repeat split; auto.
    apply valid_storage_empty.
Qed.

Lemma emits_ensureActiveAuth (P : event -> Prop) :
  P (FileExists AUTH_PATH) -> P (FileJson AUTH_PATH) ->
  emits P (fun _ => True) (ensureActiveAuth AUTH_PATH).
Proof.
  intros H1 H2. unfold ensureActiveAuth.
  apply emits_try_catch; [|intros; apply emits_throw].
  eapply emits_bind; [apply emits_readJsonFile; assumption|]. intros authFile _.
  apply emits_lift. auto.
Qed.

Lemma emits_loadStorageAndAuth (P : event -> Prop) :
  P (FileExists STORAGE_PATH) -> P (FileJson STORAGE_PATH) ->
  P (FileExists AUTH_PATH) -> P (FileJson AUTH_PATH) ->
  emits P (fun _ => True) (loadStorageAndAuth STORAGE_PATH AUTH_PATH).
Proof.
  intros H1 H2 H3 H4. unfold loadStorageAndAuth.
  eapply emits_bind; [apply emits_loadStorage; assumption|]. intros storage _.
  eapply emits_bind; [|intros; apply emits_ret; exact I].
  apply (emits_try_catch P (fun _ => True)); [|intros; apply emits_ret; exact I].
  eapply emits_bind; [apply emits_readJsonFile; assumption|]. intros auth _.
  apply emits_bind_lift. intros entry _.
  apply emits_if; [|apply emits_ret; exact I].
  apply emits_bind_lift. intros o _. apply emits_ret. exact I.
Qed.

Lemma emits_do_list :
  emits (may A_list) (fun _ => True) (do_list STORAGE_PATH AUTH_PATH localeCompare).
Proof.
  unfold do_list.
  eapply emits_bind;
    [apply emits_loadStorageAndAuth; simpl; auto|]. intros [storage activeOauth] _.
  apply emits_bind_lift. intros [profiles names] _.
  eapply emits_bind; [|intros; apply emits_set_parts].
  apply (emits_if (may A_list) (fun _ => True)); [apply emits_showToast; exact I|].
  apply emits_bind_lift. intros entries _. apply emits_showToast. exact I.
Qed.

Lemma valid_storage_set_profiles (top : gmap string json) (profiles' : gmap string json) :
  top !! "version" = Some (JNum 1) ->
  valid_storage (JObj (<["profiles" := JObj profiles']> top)).
Proof.
  intros Hv. exists (<["profiles" := JObj profiles']> top), profiles'.
  split; [reflexivity|]. split; [|apply lookup_insert_eq].
  rewrite lookup_insert_ne by done. exact Hv.
Qed.

Lemma emits_do_save (argv : list string) :
  emits (may A_save) (fun _ => True)
    (do_save STORAGE_PATH AUTH_PATH base64_utf8 JSON_parse argv).
Proof.
  unfold do_save. cbv zeta. apply emits_if; [apply emits_throw|].
  eapply emits_bind; [apply emits_ensureActiveAuth; simpl; auto|]. intros oauth _.
  apply emits_if; [apply emits_throw|].
  eapply emits_bind; [apply emits_loadStorage; simpl; auto|].
  intros storage (top & profiles & -> & Hv & Hp).
  cbn [get]. rewrite Hp. apply emits_bind_lift. intros ? [= <-].
  cbn [get]. apply emits_bind_lift. intros existing _.
  apply emits_if; [apply emits_throw|].
  eapply emits_bind; [apply emits_Date_now|]. intros stamp _.
  cbn [set]. apply emits_bind_lift. intros ? [= <-].
  apply emits_bind_lift. intros ? [= <-].
  eapply emits_bind.
  { apply emits_Bun_write. simpl. split; [auto|]. split; [reflexivity|].
    apply valid_storage_set_profiles, Hv. }
  intros _ _. apply emits_bind_lift. intros email _.
  eapply emits_bind; [apply emits_showToast; exact I|]. intros _ _.
  apply emits_set_parts.
Qed.

Lemma emits_do_del (argv : list string) :
  emits (may A_del) (fun _ => True) (do_del STORAGE_PATH localeCompare argv).
Proof.
  unfold do_del. cbv zeta. apply emits_if; [apply emits_throw|].
  eapply emits_bind; [apply emits_loadStorage; simpl; auto|].
  intros storage (top & profiles & -> & Hv & Hp).
  unfold sorted_names. cbn [get rbind]. rewrite Hp. cbn [Object_keys rbind].
  apply emits_bind_lift. intros ? [= <-]. cbn [get].
  apply emits_bind_lift. intros found _.
  apply emits_if; [apply emits_throw|].
  cbn [delete_prop set]. apply emits_bind_lift. intros ? [= <-].
  apply emits_bind_lift. intros ? [= <-].
  eapply emits_bind.
  { apply emits_Bun_write. simpl. split; [auto|]. split; [reflexivity|].
    apply valid_storage_set_profiles, Hv. }
  intros _ _.
  eapply emits_bind; [apply emits_showToast; exact I|]. intros _ _.
  apply emits_set_parts.
Qed.

Lemma emits_do_load (argv : list string) :
  emits (may A_load) (fun _ => True)
    (do_load STORAGE_PATH localeCompare base64_utf8 JSON_parse argv).
Proof.
  unfold do_load. cbv zeta. apply emits_if; [apply emits_throw|].
  eapply emits_bind; [apply emits_loadStorage; simpl; auto|]. intros storage _.
  apply emits_bind_lift. intros [resolvedName profile] _.
  apply emits_bind_lift. intros body _.
  eapply emits_bind; [apply emits_auth_set; simpl; auto|]. intros _ _.
  apply emits_bind_lift. intros p_oauth _.
  apply emits_bind_lift. intros p_access _.
  apply emits_bind_lift. intros email _.
  eapply emits_bind; [apply emits_showToast; exact I|]. intros _ _.
  apply emits_set_parts.
Qed.

Lemma emits_on_error (P : event -> Prop) (e : error) :
  (forall t, P (ShowToast t)) -> emits P (fun _ => True) (on_error e).
Proof.
  intros H. unfold on_error.
  eapply emits_bind; [apply emits_showToast; apply H|]. intros _ _.
  apply emits_set_parts.
Qed.

Lemma emits_run_action (a : action) (argv : list string) :
  emits (may a) (fun _ => True)
    (try_catch
       (run_action STORAGE_PATH AUTH_PATH localeCompare base64_utf8 JSON_parse a argv)
       on_error).
Proof.
  apply emits_try_catch; [|intros; apply emits_on_error; intros; exact I].
  destruct a; simpl.
  - apply emits_do_list.
  - apply emits_do_save.
  - apply emits_do_del.
  - apply emits_do_load.
  - unfold do_unknown.
    eapply emits_bind; [apply emits_showToast; exact I|]. intros _ _.
    apply emits_set_parts.
Qed.

Lemma emits_hook (input : Input) :
  emits (may (normalize_action (Js.toLowerCase (nth 0 (parseArgs (arguments input)) ""))))
    (fun _ => True) (hook input).
Proof.
  unfold command_execute_before. cbv zeta.
  apply emits_if; [apply emits_ret; exact I|apply emits_run_action].
Qed.

End Effects.

Lemma replay_no_write (evs : list event) (fs : gmap string content) :
  Forall (fun e => forall p d, e <> FileWrite p d) evs -> replay evs fs = fs.
Proof.
  intros H. revert fs. induction H as [|e evs He _ IH]; intros fs; [reflexivity|].
  simpl. rewrite <- (IH fs) at 2. f_equal.
  destruct e; try reflexivity. exfalso. eapply He. reflexivity.
Qed.

Lemma writes_no_write (w w' : world) (evs : list event) :
  trace w' = (trace w ++ evs)%list ->
  Forall (fun e => forall p d, e <> FileWrite p d) evs ->
  writes w' = writes w.
Proof.
  unfold writes. intros -> H. rewrite omap_app.
  rewrite <- (app_nil_r (omap _ (trace w))) at 2. f_equal.
  induction H as [|e evs He _ IH]; [reflexivity|].
  destruct e; try exact IH; exfalso; eapply He; reflexivity.
Qed.

Lemma auth_sets_no_set (w w' : world) (evs : list event) :
  trace w' = (trace w ++ evs)%list ->
  Forall (fun e => forall i b, e <> AuthSet i b) evs ->
  auth_sets w' = auth_sets w.
Proof.
  unfold auth_sets. intros -> H. rewrite omap_app.
  rewrite <- (app_nil_r (omap _ (trace w))) at 2. f_equal.
  induction H as [|e evs He _ IH]; [reflexivity|].
  destruct e; try exact IH; exfalso; eapply He; reflexivity.
Qed.

Lemma replay_writes_to (path : string) (good : json -> Prop) (evs : list event)
    (fs : gmap string content) :
  Forall (fun e => forall p d, e = FileWrite p d -> p = path /\ good d) evs ->
  (forall other, other <> path -> replay evs fs !! other = fs !! other) /\
  (replay evs fs !! path = fs !! path
   \/ exists d, replay evs fs !! path = Some (Holds d) /\ good d).
Proof.
  intros H. revert fs. induction H as [|e evs He _ IH]; intros fs; [auto|].
  simpl. destruct (IH (apply_event fs e)) as [IH1 IH2].
  destruct e as [p|p|p d|t|i b]; simpl in *; try (split; assumption).
  destruct (He p d eq_refl) as [-> Hd]. split.
  - intros other Ho. rewrite IH1 by exact Ho. apply lookup_insert_ne. congruence.
  - right. destruct IH2 as [E|E]; [|exact E].
    exists d. rewrite E, lookup_insert_eq. auto.
Qed.

Section Frame.

Context (STORAGE_PATH AUTH_PATH : string).
Context (localeCompare : string -> string -> Z).
Context (base64_utf8 : string -> string).
Context (JSON_parse : string -> option json).

#[local] Abbreviation hook := (command_execute_before STORAGE_PATH AUTH_PATH localeCompare
                    base64_utf8 JSON_parse).

(** X7.  What a command may do, by its action.  Every outside call of
    the hook is a probe or a read of the vault file, a toast, or one of
    these: a probe or a read of the host's file, made by [list] and
    [save] only; a write, made by [save] and [del] only, which goes to
    the vault file and carries a valid storage; a credential update, made
    by [load] only and for the provider [openai].  The files change by
    these writes and not otherwise, so [list], [load] and an unknown verb
    leave every file as it was, and the clock is not touched. *)
Theorem hook_effects (input : Input) (w : world) :
  let a := normalize_action (Js.toLowerCase (nth 0 (parseArgs (arguments input)) "")) in
  let w' := (hook input w).2 in
  (exists evs,
     trace w' = (trace w ++ evs)%list /\
     Forall (action_event STORAGE_PATH AUTH_PATH a) evs /\
     files w' = replay evs (files w)) /\
  (a <> A_save -> a <> A_del -> files w' = files w /\ writes w' = writes w) /\
  (a <> A_load -> auth_sets w' = auth_sets w) /\
  now w' = now w.
Proof.
  intros a w'.
  destruct (emits_hook STORAGE_PATH AUTH_PATH localeCompare base64_utf8 JSON_parse input w)
    as (evs & Ht & HP & Hf & Hn & _).
  fold a in HP. fold w' in Ht, Hf, Hn.
  split; [eauto|]. split; [|split; [|exact Hn]].
  - intros Hs Hd.
    assert (Forall (fun e => forall p d, e <> FileWrite p d) evs) as Hnw.
    { eapply Forall_impl; [exact HP|]. intros e He p d ->.
      destruct He as [[?|?] _]; contradiction. }
    split.
    + rewrite Hf. apply replay_no_write, Hnw.
    + apply (writes_no_write w w' evs Ht Hnw).
  - intros Hl. apply (auth_sets_no_set w w' evs Ht).
    eapply Forall_impl; [exact HP|]. intros e He i b ->.
    destruct He as [? _]. contradiction.
Qed.

(** X8.  No command harms the vault.  The hook leaves every file other
    than the vault file as it found it; the vault file it leaves as it
    was or holding a valid storage; so whenever the vault could be loaded
    before a command, it can be loaded after it. *)
Theorem vault_stays_valid (input : Input) (w : world) :
  let w' := (hook input w).2 in
  (forall path, path <> STORAGE_PATH -> files w' !! path = files w !! path) /\
  (files w' !! STORAGE_PATH = files w !! STORAGE_PATH
   \/ exists d, files w' !! STORAGE_PATH = Some (Holds d) /\ valid_storage d) /\
  (forall s, (loadStorage STORAGE_PATH w).1 = Ok s ->
     exists s', (loadStorage STORAGE_PATH w').1 = Ok s').
Proof.
  intros w'.
  destruct (emits_hook STORAGE_PATH AUTH_PATH localeCompare base64_utf8 JSON_parse input w)
    as (evs & _ & HP & Hf & _).
  fold w' in Hf.
  destruct (replay_writes_to STORAGE_PATH valid_storage evs (files w)) as [H1 H2].
  { eapply Forall_impl; [exact HP|]. intros e He p d ->. destruct He as (_ & ? & ?). auto. }
  rewrite <- Hf in H1, H2. split; [exact H1|]. split; [exact H2|].
  intros s Hs. rewrite !loadStorage_run in *. destruct H2 as [E|(d & E & Hd)].
  - rewrite E. destruct (files w !! STORAGE_PATH) as [[|j]|]; simpl in *; eauto.
  - rewrite E. simpl. rewrite (valid_storage_check STORAGE_PATH d Hd). eauto.
Qed.

End Frame.

Lemma hook_effects_witness :
  files (Demo.run (Demo.oai "load b") Demo.world_abc).2 = files Demo.world_abc /\
  writes (Demo.run (Demo.oai "load b") Demo.world_abc).2 = writes Demo.world_abc /\
  auth_sets (Demo.run (Demo.oai "save d") Demo.world_abc).2 = auth_sets Demo.world_abc.
Proof.
  split; [|split].
  - apply (proj1 (proj2 (hook_effects Demo.STORAGE_PATH Demo.AUTH_PATH Demo.localeCompare
                           Demo.base64_utf8 Demo.JSON_parse (Demo.oai "load b")
                           Demo.world_abc))); discriminate.
  - apply (proj1 (proj2 (hook_effects Demo.STORAGE_PATH Demo.AUTH_PATH Demo.localeCompare
                           Demo.base64_utf8 Demo.JSON_parse (Demo.oai "load b")
                           Demo.world_abc))); discriminate.
  - apply (proj1 (proj2 (proj2 (hook_effects Demo.STORAGE_PATH Demo.AUTH_PATH
                           Demo.localeCompare Demo.base64_utf8 Demo.JSON_parse
                           (Demo.oai "save d") Demo.world_abc)))); discriminate.
Defined.

Lemma vault_stays_valid_witness :
  exists s',
    (loadStorage Demo.STORAGE_PATH (Demo.run (Demo.oai "save d") Demo.world_abc).2).1 = Ok s'.
Proof.
  apply (proj2 (proj2 (vault_stays_valid Demo.STORAGE_PATH Demo.AUTH_PATH
                         Demo.localeCompare Demo.base64_utf8 Demo.JSON_parse
                         (Demo.oai "save d") Demo.world_abc))
           (json_of_storage Demo.profiles_abc)).
  vm_compute. reflexivity.
Defined.

(** ** The commands of the newest revision *)

Lemma files_emit_all evs w : files (emit_all evs w) = files w.
Proof. reflexivity. Qed.

Lemma vault_holds_emit_all path evs w top profiles :
  vault_holds path (emit_all evs w) top profiles <-> vault_holds path w top profiles.
Proof. reflexivity. Qed.

Lemma vault_probes_probe path w : Forall is_probe (vault_probes path w).
Proof. unfold vault_probes. destruct (files w !! path); repeat constructor. Qed.

Lemma vault_holds_members path w top profiles :
  vault_holds path w top profiles ->
  top !! "version" = Some (JNum 1) /\ top !! "profiles" = Some (JObj profiles).
Proof.
  unfold vault_holds. destruct (files w !! path) as [[|j]|].
  - contradiction.
  - intros (_ & ? & ?). auto.
  - intros [-> ->]. split; reflexivity.
Qed.

Lemma loadStorage_holds path w top profiles :
  vault_holds path w top profiles ->
  loadStorage path w = (Ok (JObj top), emit_all (vault_probes path w) w).
Proof.
  intros H. rewrite loadStorage_run. unfold vault_holds, vault_probes in *.
  destruct (files w !! path) as [[|j]|].
  - contradiction.
  - destruct H as (-> & Hv & Hp). rewrite (check_storage_valid path top profiles Hv Hp).
    rewrite read_vault_as_emit_all. reflexivity.
  - destruct H as [-> ->]. reflexivity.
Qed.

Lemma read_auth_as_emit_all path w :
  read_auth path w = emit_all [FileExists path; FileJson path] w.
Proof. unfold read_auth, emit, emit_all. simpl. rewrite <- app_assoc. reflexivity. Qed.

Lemma normalize_action_save sub :
  Js.toLowerCase sub = "save" -> normalize_action (Js.toLowerCase sub) = A_save.
Proof. intros ->. reflexivity. Qed.

Lemma normalize_action_del sub :
  Js.toLowerCase sub = "del" -> normalize_action (Js.toLowerCase sub) = A_del.
Proof. intros ->. reflexivity. Qed.

Lemma normalize_action_load sub :
  Js.toLowerCase sub = "load" -> normalize_action (Js.toLowerCase sub) = A_load.
Proof. intros ->. reflexivity. Qed.

Lemma projections_with_parts_emit_toast (t : toast) (w : world) :
  let w' := with_parts [] (emit (ShowToast t) w) in
  files w' = files w /\ writes w' = writes w /\ auth_sets w' = auth_sets w /\
  toasts w' = (toasts w ++ [t])%list /\ parts w' = [] /\ now w' = now w.
Proof.
  unfold writes, auth_sets, toasts, with_parts, emit. simpl.
  rewrite !omap_app. simpl. rewrite !app_nil_r. repeat split; reflexivity.
Qed.

Lemma projections_emit_all_probes (evs : list event) (w : world) :
  Forall is_probe evs ->
  files (emit_all evs w) = files w /\ writes (emit_all evs w) = writes w /\
  auth_sets (emit_all evs w) = auth_sets w /\ toasts (emit_all evs w) = toasts w /\
  now (emit_all evs w) = now w.
Proof.
  intros H. destruct (probes_keep evs w H) as (? & ? & ? & ? & ?). repeat split; assumption.
Qed.

Lemma projections_write (path : string) (d : json) (w : world) :
  let w' := with_file path d (emit (FileWrite path d) w) in
  files w' = <[path := Holds d]> (files w) /\
  writes w' = (writes w ++ [(path, d)])%list /\
  auth_sets w' = auth_sets w /\ toasts w' = toasts w /\ now w' = now w.
Proof.
  unfold writes, auth_sets, toasts, with_file, emit. simpl.
  rewrite !omap_app. simpl. rewrite !app_nil_r. repeat split; reflexivity.
Qed.

Section Commands.

Context (STORAGE_PATH AUTH_PATH : string).
Context (localeCompare : string -> string -> Z).
Context (base64_utf8 : string -> string).
Context (JSON_parse : string -> option json).

#[local] Abbreviation hook := (command_execute_before STORAGE_PATH AUTH_PATH localeCompare
                    base64_utf8 JSON_parse).

Lemma hook_verb (input : Input) (w : world) (sub : string) (rest : list string) :
  normalize_command (command input) = COMMAND ->
  parseArgs (arguments input) = sub :: rest ->
  hook input w
  = try_catch
      (run_action STORAGE_PATH AUTH_PATH localeCompare base64_utf8 JSON_parse
         (normalize_action (Js.toLowerCase sub)) (sub :: rest))
      on_error w.
Proof.
  intros Hc Hargs. rewrite (hook_matching _ _ _ _ _ _ _ Hc), Hargs. reflexivity.
Qed.

Lemma token_nonempty (input : Input) (sub token : string) (rest : list string) :
  parseArgs (arguments input) = sub :: token :: rest -> token <> "".
Proof.
  intros Hargs.
  assert (token ∈ parseArgs (arguments input)) as H by (rewrite Hargs; set_solver).
  unfold parseArgs in H. apply list_elem_of_filter in H. tauto.
Qed.

(** X9.  A verb that needs an argument and has none is answered with
    its usage line before any file is touched: the hook shows the toast
    and does nothing else. *)
Theorem missing_argument_is_usage_error (input : Input) (w : world) (sub : string) :
  normalize_command (command input) = COMMAND ->
  parseArgs (arguments input) = [sub] ->
  Js.toLowerCase sub ∈ ["save"; "del"; "load"] ->
  hook input w
  = (Ok tt,
     with_parts []
       (emit (ShowToast (error_toast (Error ("Usage: /oai " +:+ Js.toLowerCase sub
                                             +:+ " <name>")))) w)).
Proof.
  intros Hc Hargs Hsub. rewrite (hook_verb input w sub [] Hc Hargs).
  repeat (apply elem_of_cons in Hsub as [->|Hsub]; [reflexivity|]).
  apply elem_of_nil in Hsub. contradiction.
Qed.

(** *** [save] *)

Lemma do_save_run (w : world) (sub name : string) (rest : list string)
    (top profiles : gmap string json) (auth : json) (o : OAuth) (email : option string) :
  name <> "" ->
  files w !! AUTH_PATH = Some (Holds auth) ->
  readOpenAiAuthFromAuthFile AUTH_PATH auth = Ok o ->
  access o <> "" -> refresh o <> "" ->
  vault_holds STORAGE_PATH w top profiles ->
  truthy (profiles !! name) = false ->
  extractEmailFromAccessToken base64_utf8 JSON_parse (Some (JStr (access o))) = Ok email ->
  let stored :=
    with_profiles top
      (<[name := json_of_profile {| name := name; oauth := o; savedAt := now w |}]> profiles) in
  do_save STORAGE_PATH AUTH_PATH base64_utf8 JSON_parse (sub :: name :: rest) w
  = (Ok tt,
     with_parts []
       (emit (ShowToast {| message := with_email ("Saved profile '" +:+ name +:+ "'") email;
                           variant := "success"; duration := None |})
          (with_file STORAGE_PATH stored
             (emit (FileWrite STORAGE_PATH stored)
                (emit_all (vault_probes STORAGE_PATH w) (read_auth AUTH_PATH w)))))).
Proof.
  intros Hne Hauth Hread Ha Hr Hvault Hfree Hemail stored.
  destruct (vault_holds_members _ _ _ _ Hvault) as [Hv Hp].
  unfold do_save. cbv zeta. change (nth 1 (sub :: name :: rest) "") with name.
  rewrite (eqb_false_of_ne _ _ Hne).
  rewrite (bind_Ok _ _ _ _ _ (ensureActiveAuth_run AUTH_PATH w auth o Hauth Hread)).
  cbv beta. rewrite (eqb_false_of_ne _ _ Ha), (eqb_false_of_ne _ _ Hr). cbn [orb].
  rewrite (bind_Ok _ _ _ _ _
             (loadStorage_holds STORAGE_PATH (read_auth AUTH_PATH w) top profiles Hvault)).
  cbv beta. unfold bind, lift, Date_now, saveStorage, writeJsonFile, Bun_write, showToast,
    set_parts, log.
  cbn [get set]. rewrite Hp. cbn [get set]. rewrite Hfree, Hemail. reflexivity.
Qed.

(** X10.  [save] with a name that is free.  When the host's file holds
    a credential that [readOpenAiAuthFromAuthFile] accepts and whose two
    tokens are not empty, and the vault has no profile under the name,
    the hook writes the vault once: the storage it found with one profile
    more, made of the name, the whole credential (account identifier
    included) and the time of the call.  Every other profile and every
    other member of the storage is written back as it was.  The toast
    names the profile, with the e-mail of the token when it has one; no
    credential is set and the chat stays empty. *)
Theorem save_stores_live_credential
    (input : Input) (w : world) (sub name : string) (rest : list string)
    (top profiles : gmap string json) (o : OAuth) :
  normalize_command (command input) = COMMAND ->
  parseArgs (arguments input) = sub :: name :: rest ->
  Js.toLowerCase sub = "save" ->
  name ∉ inherited ->
  live_credential AUTH_PATH w = Some o ->
  access o <> "" -> refresh o <> "" ->
  vault_holds STORAGE_PATH w top profiles ->
  truthy (profiles !! name) = false ->
  let stored :=
    with_profiles top
      (<[name := json_of_profile {| name := name; oauth := o; savedAt := now w |}]> profiles) in
  exists w' email,
    hook input w = (Ok tt, w') /\
    files w' = (<[STORAGE_PATH := Holds stored]> (files w)) /\
    writes w' = (writes w ++ [(STORAGE_PATH, stored)])%list /\
    auth_sets w' = auth_sets w /\
    extractEmailFromAccessToken base64_utf8 JSON_parse (Some (JStr (access o))) = Ok email /\
    toasts w'
    = (toasts w ++ [{| message := with_email ("Saved profile '" +:+ name +:+ "'") email;
                       variant := "success"; duration := None |}])%list /\
    parts w' = [] /\
    valid_storage stored.
Proof.
  intros Hc Hargs Hsub _ Hlive Ha Hr Hvault Hfree stored.
  destruct (extractEmail_returns base64_utf8 JSON_parse (access o)) as [email Hemail].
  unfold live_credential in Hlive.
  destruct (files w !! AUTH_PATH) as [[|auth]|] eqn:Hauth; try discriminate Hlive.
  destruct (readOpenAiAuthFromAuthFile AUTH_PATH auth) as [o'|] eqn:Hread;
    [|discriminate Hlive].
  injection Hlive as ->.
  eexists _, email. split.
  - rewrite (hook_verb input w sub (name :: rest) Hc Hargs), (normalize_action_save sub Hsub).
    unfold try_catch, run_action.
    rewrite (do_save_run w sub name rest top profiles auth o email
               (token_nonempty input sub name rest Hargs) Hauth Hread Ha Hr Hvault Hfree
               Hemail).
    reflexivity.
  - match goal with
    | |- context [with_parts [] (emit (ShowToast ?t) (with_file _ ?d (emit _ ?w1)))] =>
        destruct (projections_with_parts_emit_toast t
                    (with_file STORAGE_PATH d (emit (FileWrite STORAGE_PATH d) w1)))
          as (F1 & W1 & A1 & T1 & P1 & _);
        destruct (projections_write STORAGE_PATH d w1) as (F2 & W2 & A2 & T2 & _)
    end.
    destruct (projections_emit_all_probes (vault_probes STORAGE_PATH w)
                (read_auth AUTH_PATH w) (vault_probes_probe STORAGE_PATH w))
      as (F3 & W3 & A3 & T3 & _).
    rewrite read_auth_as_emit_all in *.
    destruct (projections_emit_all_probes [FileExists AUTH_PATH; FileJson AUTH_PATH] w)
      as (F4 & W4 & A4 & T4 & _); [repeat constructor|].
    cbv zeta in *.
    rewrite F1, F2, F3, F4, W1, W2, W3, W4, A1, A2, A3, A4, T1, T2, T3, T4, P1.
    repeat split; try reflexivity; [exact Hemail|].
    apply valid_storage_set_profiles.
    apply (vault_holds_members _ _ _ _ Hvault).
Qed.

Ltac world_projections :=
  repeat match goal with
    | |- context [with_parts [] (emit (ShowToast ?t) ?w1)] =>
        lazymatch goal with
        | H : toasts (with_parts [] (emit (ShowToast t) w1)) = _ |- _ => fail
        | _ => destruct (projections_with_parts_emit_toast t w1) as (? & ? & ? & ? & ? & ?)
        end
    | |- context [with_file ?path ?d (emit (FileWrite ?path ?d) ?w1)] =>
        lazymatch goal with
        | H : files (with_file path d (emit (FileWrite path d) w1)) = _ |- _ => fail
        | _ => destruct (projections_write path d w1) as (? & ? & ? & ? & ?)
        end
    | |- context [emit_all (vault_probes ?path ?w0) ?w1] =>
        lazymatch goal with
        | H : files (emit_all (vault_probes path w0) w1) = _ |- _ => fail
        | _ => destruct (projections_emit_all_probes (vault_probes path w0) w1
                           (vault_probes_probe path w0)) as (? & ? & ? & ? & ?)
        end
    end;
  cbv zeta in *;
  repeat match goal with
    | H : files _ = _ |- _ => rewrite H; clear H
    | H : writes _ = _ |- _ => rewrite H; clear H
    | H : auth_sets _ = _ |- _ => rewrite H; clear H
    | H : toasts _ = _ |- _ => rewrite H; clear H
    | H : parts _ = _ |- _ => rewrite H; clear H
    | H : now _ = _ |- _ => rewrite ?H; clear H
    end.

(** *** [del], and a name that is not there *)

Lemma do_del_run (w : world) (sub token : string) (rest : list string)
    (top profiles : gmap string json) :
  token <> "" ->
  vault_holds STORAGE_PATH w top profiles ->
  let name := resolve_number token (sort_names localeCompare (map_to_list profiles).*1) in
  do_del STORAGE_PATH localeCompare (sub :: token :: rest) w
  = if truthy (profiles !! name) then
      let stored := with_profiles top (delete name profiles) in
      (Ok tt,
       with_parts []
         (emit (ShowToast {| message := "Removed profile '" +:+ name +:+ "'";
                             variant := "success"; duration := None |})
            (with_file STORAGE_PATH stored
               (emit (FileWrite STORAGE_PATH stored)
                  (emit_all (vault_probes STORAGE_PATH w) w)))))
    else (Throw (InvalidSelectionError name), emit_all (vault_probes STORAGE_PATH w) w).
Proof.
  intros Hne Hvault name.
  destruct (vault_holds_members _ _ _ _ Hvault) as [Hv Hp].
  unfold do_del. cbv zeta. change (nth 1 (sub :: token :: rest) "") with token.
  rewrite (eqb_false_of_ne _ _ Hne).
  rewrite (bind_Ok _ _ _ _ _ (loadStorage_holds STORAGE_PATH w top profiles Hvault)).
  cbv beta. unfold bind at 1. unfold lift at 1.
  rewrite (sorted_names_valid localeCompare top profiles Hp). cbv beta iota. fold name.
  unfold bind, lift, saveStorage, writeJsonFile, Bun_write, showToast, set_parts, log, throw.
  cbn [get delete_prop set]. destruct (truthy (profiles !! name)); reflexivity.
Qed.

Lemma do_load_missing (w : world) (sub token : string) (rest : list string)
    (top profiles : gmap string json) :
  token <> "" ->
  vault_holds STORAGE_PATH w top profiles ->
  let name := resolve_number token (sort_names localeCompare (map_to_list profiles).*1) in
  truthy (profiles !! name) = false ->
  do_load STORAGE_PATH localeCompare base64_utf8 JSON_parse (sub :: token :: rest) w
  = (Throw (InvalidSelectionError name), emit_all (vault_probes STORAGE_PATH w) w).
Proof.
  intros Hne Hvault name Hmiss.
  destruct (vault_holds_members _ _ _ _ Hvault) as [Hv Hp].
  unfold do_load. cbv zeta. change (nth 1 (sub :: token :: rest) "") with token.
  rewrite (eqb_false_of_ne _ _ Hne).
  rewrite (bind_Ok _ _ _ _ _ (loadStorage_holds STORAGE_PATH w top profiles Hvault)).
  cbv beta. unfold bind at 1. unfold lift at 1.
  rewrite (select_profile_run localeCompare token top profiles Hp). cbv zeta. fold name.
  rewrite Hmiss. reflexivity.
Qed.

(** X11.  [del] of a profile that is there.  The token stands for the
    name at its position when it reads as a number within the list, for
    itself otherwise; when the vault has a profile under that name, the
    hook writes the vault once, with that profile gone and everything
    else as it was, names it in the toast, and sets no credential: the
    live credential stays, also when the profile removed is the active
    one. *)
Theorem del_removes_profile
    (input : Input) (w : world) (sub token : string) (rest : list string)
    (top profiles : gmap string json) :
  normalize_command (command input) = COMMAND ->
  parseArgs (arguments input) = sub :: token :: rest ->
  Js.toLowerCase sub = "del" ->
  vault_holds STORAGE_PATH w top profiles ->
  let name := resolve_number token (sort_names localeCompare (map_to_list profiles).*1) in
  truthy (profiles !! name) = true ->
  let stored := with_profiles top (delete name profiles) in
  exists w',
    hook input w = (Ok tt, w') /\
    files w' = (<[STORAGE_PATH := Holds stored]> (files w)) /\
    writes w' = (writes w ++ [(STORAGE_PATH, stored)])%list /\
    auth_sets w' = auth_sets w /\
    toasts w'
    = (toasts w ++ [{| message := "Removed profile '" +:+ name +:+ "'";
                       variant := "success"; duration := None |}])%list /\
    parts w' = [] /\
    valid_storage stored.
Proof.
  intros Hc Hargs Hsub Hvault name Hthere stored.
  eexists. split.
  - rewrite (hook_verb input w sub (token :: rest) Hc Hargs), (normalize_action_del sub Hsub).
    unfold try_catch, run_action.
    rewrite (do_del_run w sub token rest top profiles
               (token_nonempty input sub token rest Hargs) Hvault).
    cbv zeta. fold name. rewrite Hthere. reflexivity.
  - world_projections. repeat split; try reflexivity.
    apply valid_storage_set_profiles.
    apply (vault_holds_members _ _ _ _ Hvault).
Qed.

(** X12.  [del] and [load] of a name that is not there.  When the vault
    has no profile under the name the token stands for, the hook shows
    the "not found" error for that name after probing and reading the
    vault file, and does nothing else: no file is written and no
    credential is set. *)
Theorem missing_profile_is_reported
    (input : Input) (w : world) (sub token : string) (rest : list string)
    (top profiles : gmap string json) :
  normalize_command (command input) = COMMAND ->
  parseArgs (arguments input) = sub :: token :: rest ->
  Js.toLowerCase sub = "del" \/ Js.toLowerCase sub = "load" ->
  vault_holds STORAGE_PATH w top profiles ->
  let name := resolve_number token (sort_names localeCompare (map_to_list profiles).*1) in
  name ∉ inherited ->
  truthy (profiles !! name) = false ->
  exists w',
    hook input w = (Ok tt, w') /\
    w' = with_parts []
           (emit (ShowToast (error_toast (InvalidSelectionError name)))
              (emit_all (vault_probes STORAGE_PATH w) w)) /\
    files w' = files w /\ writes w' = writes w /\ auth_sets w' = auth_sets w /\
    toasts w' = (toasts w ++ [error_toast (InvalidSelectionError name)])%list /\
    parts w' = [].
Proof.
  intros Hc Hargs Hsub Hvault name _ Hmiss.
  pose proof (token_nonempty input sub token rest Hargs) as Hne.
  eexists. split; [|split; [reflexivity|]].
  - rewrite (hook_verb input w sub (token :: rest) Hc Hargs).
    destruct Hsub as [Hsub|Hsub].
    + rewrite (normalize_action_del sub Hsub). unfold try_catch, run_action.
      rewrite (do_del_run w sub token rest top profiles Hne Hvault).
      cbv zeta. fold name. rewrite Hmiss. reflexivity.
    + rewrite (normalize_action_load sub Hsub). unfold try_catch, run_action.
      rewrite (do_load_missing w sub token rest top profiles Hne Hvault Hmiss).
      reflexivity.
  - world_projections. repeat split; reflexivity.
Qed.

(** *** [save], then [load] or [del] *)

Lemma hook_save_run (input : Input) (w : world) (sub name : string) (rest : list string)
    (top profiles : gmap string json) (o : OAuth) :
  normalize_command (command input) = COMMAND ->
  parseArgs (arguments input) = sub :: name :: rest ->
  Js.toLowerCase sub = "save" ->
  live_credential AUTH_PATH w = Some o ->
  access o <> "" -> refresh o <> "" ->
  vault_holds STORAGE_PATH w top profiles ->
  truthy (profiles !! name) = false ->
  let profiles' :=
    <[name := json_of_profile {| name := name; oauth := o; savedAt := now w |}]> profiles in
  exists w',
    hook input w = (Ok tt, w') /\
    vault_holds STORAGE_PATH w' (<["profiles" := JObj profiles']> top) profiles' /\
    auth_sets w' = auth_sets w /\ now w' = now w.
Proof.
  intros Hc Hargs Hsub Hlive Ha Hr Hvault Hfree profiles'.
  destruct (extractEmail_returns base64_utf8 JSON_parse (access o)) as [email Hemail].
  unfold live_credential in Hlive.
  destruct (files w !! AUTH_PATH) as [[|auth]|] eqn:Hauth; try discriminate Hlive.
  destruct (readOpenAiAuthFromAuthFile AUTH_PATH auth) as [o'|] eqn:Hread;
    [|discriminate Hlive].
  injection Hlive as ->.
  eexists. split; [|split].
  - rewrite (hook_verb input w sub (name :: rest) Hc Hargs), (normalize_action_save sub Hsub).
    unfold try_catch, run_action.
    rewrite (do_save_run w sub name rest top profiles auth o email
               (token_nonempty input sub name rest Hargs) Hauth Hread Ha Hr Hvault Hfree
               Hemail).
    reflexivity.
  - unfold vault_holds. world_projections. rewrite lookup_insert_eq.
    split; [reflexivity|]. split; [|apply lookup_insert_eq].
    rewrite lookup_insert_ne by done. apply (vault_holds_members _ _ _ _ Hvault).
  - rewrite read_auth_as_emit_all.
    destruct (projections_emit_all_probes [FileExists AUTH_PATH; FileJson AUTH_PATH] w)
      as (_ & _ & A4 & _ & N4); [repeat constructor|].
    world_projections. split; reflexivity.
Qed.

(** X13.  [save], then [load].  After a [save] that succeeds, [load]
    of the same name hands the host the credential that was live when it
    was saved: its [refresh], [access] and [expires], its
    [enterpriseUrl] when it has a non-empty one, and not its account
    identifier.  This needs the name to stand for itself as a selector;
    a name that reads as a number within the list of names stands for
    the name at that position instead. *)
Theorem save_then_load
    (saving loading : Input) (w : world) (sub sub' name : string)
    (rest rest' : list string) (top profiles : gmap string json) (o : OAuth) :
  normalize_command (command saving) = COMMAND ->
  parseArgs (arguments saving) = sub :: name :: rest ->
  Js.toLowerCase sub = "save" ->
  normalize_command (command loading) = COMMAND ->
  parseArgs (arguments loading) = sub' :: name :: rest' ->
  Js.toLowerCase sub' = "load" ->
  name ∉ inherited ->
  live_credential AUTH_PATH w = Some o ->
  access o <> "" -> refresh o <> "" ->
  vault_holds STORAGE_PATH w top profiles ->
  truthy (profiles !! name) = false ->
  let profiles' :=
    <[name := json_of_profile {| name := name; oauth := o; savedAt := now w |}]> profiles in
  resolve_number name (sort_names localeCompare (map_to_list profiles').*1) = name ->
  exists w1 w2,
    hook saving w = (Ok tt, w1) /\
    hook loading w1 = (Ok tt, w2) /\
    auth_sets w2 = (auth_sets w ++ [(PROVIDER_ID, live_body o)])%list /\
    live_body o !! "refresh" = Some (JStr (refresh o)) /\
    live_body o !! "access" = Some (JStr (access o)) /\
    live_body o !! "expires" = Some (JNum (expires o)) /\
    live_body o !! "accountId" = None.
Proof.
  intros Hc Hargs Hsub Hc' Hargs' Hsub' _ Hlive Ha Hr Hvault Hfree profiles' Hself.
  destruct (hook_save_run saving w sub name rest top profiles o
              Hc Hargs Hsub Hlive Ha Hr Hvault Hfree) as (w1 & Hsave & Hv1 & Hs1 & _).
  fold profiles' in Hv1. unfold vault_holds in Hv1.
  destruct (files w1 !! STORAGE_PATH) as [[|j]|] eqn:Hf1.
  - contradiction.
  - destruct Hv1 as (-> & Hv & Hp).
    destruct (newest_load_writes_supported_fields STORAGE_PATH AUTH_PATH localeCompare
                base64_utf8 JSON_parse loading w1 sub' name name rest' _ profiles'
                {| name := name; oauth := o; savedAt := now w |}
                Hc' Hargs' Hsub' Hf1 Hv Hp Hself (lookup_insert_eq _ _ _))
      as (w2 & Hload & Hsets & _ & _ & _ & Hbr & Hba & Hbx & _ & Hbi & _).
    exists w1, w2. simpl in *. rewrite Hsets, Hs1. auto 10.
  - destruct Hv1 as [_ Hempty]. exfalso.
    apply (insert_non_empty profiles name _ Hempty).
Qed.

(** X14.  [save], then [del].  After a [save] under a name the vault did
    not have, [del] of that name leaves the vault file holding the
    storage [save] found: the one it held before, or the empty version-1
    storage when there was no file.  The name has to stand for itself as
    a selector here too. *)
Theorem save_then_del
    (saving deleting : Input) (w : world) (sub sub' name : string)
    (rest rest' : list string) (top profiles : gmap string json) (o : OAuth) :
  normalize_command (command saving) = COMMAND ->
  parseArgs (arguments saving) = sub :: name :: rest ->
  Js.toLowerCase sub = "save" ->
  normalize_command (command deleting) = COMMAND ->
  parseArgs (arguments deleting) = sub' :: name :: rest' ->
  Js.toLowerCase sub' = "del" ->
  name ∉ inherited ->
  live_credential AUTH_PATH w = Some o ->
  access o <> "" -> refresh o <> "" ->
  vault_holds STORAGE_PATH w top profiles ->
  profiles !! name = None ->
  let profiles' :=
    <[name := json_of_profile {| name := name; oauth := o; savedAt := now w |}]> profiles in
  resolve_number name (sort_names localeCompare (map_to_list profiles').*1) = name ->
  exists w1 w2,
    hook saving w = (Ok tt, w1) /\
    hook deleting w1 = (Ok tt, w2) /\
    files w2 !! STORAGE_PATH = Some (Holds (JObj top)) /\
    vault_holds STORAGE_PATH w2 top profiles /\
    auth_sets w2 = auth_sets w.
Proof.
  intros Hc Hargs Hsub Hc' Hargs' Hsub' _ Hlive Ha Hr Hvault Hnone profiles' Hself.
  destruct (vault_holds_members _ _ _ _ Hvault) as [Hv Hp].
  destruct (hook_save_run saving w sub name rest top profiles o
              Hc Hargs Hsub Hlive Ha Hr Hvault) as (w1 & Hsave & Hv1 & Hs1 & _);
    [rewrite Hnone; reflexivity|].
  fold profiles' in Hv1.
  assert (with_profiles (<["profiles" := JObj profiles']> top) (delete name profiles')
          = JObj top) as Hback.
  { unfold with_profiles, profiles'.
    rewrite (delete_insert_id profiles name _ Hnone), insert_insert_eq.
    rewrite (insert_id top "profiles" _ Hp). reflexivity. }
  assert (files
            (with_parts []
               (emit (ShowToast {| message := "Removed profile '" +:+ name +:+ "'";
                                   variant := "success"; duration := None |})
                  (with_file STORAGE_PATH (JObj top)
                     (emit (FileWrite STORAGE_PATH (JObj top))
                        (emit_all (vault_probes STORAGE_PATH w1) w1))))) !! STORAGE_PATH
          = Some (Holds (JObj top))) as Hfile by apply lookup_insert_eq.
  eexists w1, _. split; [exact Hsave|]. split; [|split; [|split]].
  - rewrite (hook_verb deleting w1 sub' (name :: rest') Hc' Hargs'),
      (normalize_action_del sub' Hsub').
    unfold try_catch, run_action.
    rewrite (do_del_run w1 sub' name rest' _ profiles'
               (token_nonempty deleting sub' name rest' Hargs') Hv1).
    cbv zeta. rewrite Hself, Hback. unfold profiles' at 1. rewrite lookup_insert_eq.
    reflexivity.
  - exact Hfile.
  - unfold vault_holds. rewrite Hfile. auto.
  - world_projections. reflexivity.
Qed.

(** *** [list] *)

Lemma rmap_Ok {A B} (f : A -> result B) (g : A -> B) (l : list A) :
  Forall (fun x => f x = Ok (g x)) l -> rmap f l = Ok (g <$> l).
Proof.
  induction 1 as [|x l Hx _ IH]; [reflexivity|].
  simpl. rewrite Hx, IH. reflexivity.
Qed.

Lemma active_of_auth_file (w : world) :
  exists evs,
    try_catch
      (let* auth := readJsonFile AUTH_PATH in
       let* entry := lift (get (Some auth) PROVIDER_ID) in
       if truthy entry then
         let* o := lift (readOpenAiAuthFromAuthFile AUTH_PATH auth) in ret (Some o)
       else ret None)
      (fun _ => ret None) w
    = (Ok (live_credential AUTH_PATH w), emit_all evs w) /\
    Forall is_probe evs.
Proof.
  unfold try_catch, bind, live_credential. rewrite readJsonFile_run.
  destruct (files w !! AUTH_PATH) as [[|auth]|].
  - exists [FileExists AUTH_PATH; FileJson AUTH_PATH].
    rewrite read_auth_as_emit_all. split; [reflexivity|repeat constructor].
  - exists [FileExists AUTH_PATH; FileJson AUTH_PATH].
    rewrite read_auth_as_emit_all. split; [|repeat constructor].
    unfold lift, ret. unfold readOpenAiAuthFromAuthFile.
    destruct (get (Some auth) PROVIDER_ID) as [entry|e]; [|reflexivity].
    cbn [rbind]. destruct (truthy entry); [|reflexivity]. cbn [negb].
    match goal with |- context [rbind ?r ?k] => destruct (rbind r k) end; reflexivity.
  - exists [FileExists AUTH_PATH]. split; [reflexivity|repeat constructor].
Qed.

Lemma loadStorageAndAuth_run (w : world) (top profiles : gmap string json) :
  vault_holds STORAGE_PATH w top profiles ->
  exists evs,
    loadStorageAndAuth STORAGE_PATH AUTH_PATH w
    = (Ok (JObj top, live_credential AUTH_PATH w), emit_all evs w) /\
    Forall is_probe evs.
Proof.
  intros Hvault. unfold loadStorageAndAuth.
  rewrite (bind_Ok _ _ _ _ _ (loadStorage_holds STORAGE_PATH w top profiles Hvault)).
  cbv beta.
  destruct (active_of_auth_file (emit_all (vault_probes STORAGE_PATH w) w)) as (evs & E & F).
  unfold bind at 1. rewrite E. unfold ret. rewrite emit_all_app.
  eexists. split; [reflexivity|].
  apply Forall_app. split; [apply vault_probes_probe|exact F].
Qed.

Lemma list_entry_stored (ps : gmap string StoredOAuthProfile) (live : option OAuth)
    (n : string) (p : StoredOAuthProfile) :
  ps !! n = Some p ->
  list_entry (Some (JObj (json_of_profile <$> ps))) live n
  = Ok (match live with
        | Some o => if active_rule (oauth p) o then "[" +:+ n +:+ "]" else n
        | None => n
        end).
Proof.
  intros Hn. unfold list_entry. cbn [get rbind]. rewrite lookup_fmap, Hn. cbn [fmap option_fmap option_map].
  destruct live as [o|]; [|reflexivity].
  destruct (profile_members p) as (m & -> & _ & Ho & _).
  cbn [get rbind]. rewrite Ho, isSameOauth_credentials. reflexivity.
Qed.

(** X15.  What [list] shows.  For a vault of stored profiles the hook
    shows one toast and touches nothing: the "no profiles" hint when the
    vault is empty, and otherwise the names in sorted order, separated by
    commas, a name in brackets when the equality rule finds its
    credential equal to the live one.  A host file that is missing,
    unreadable or not accepted is no error here: the names are then
    listed without a mark. *)
Theorem list_shows_profiles
    (input : Input) (w : world) (top : gmap string json)
    (ps : gmap string StoredOAuthProfile) :
  normalize_command (command input) = COMMAND ->
  normalize_action (Js.toLowerCase (nth 0 (parseArgs (arguments input)) "")) = A_list ->
  vault_holds STORAGE_PATH w top (json_of_profile <$> ps) ->
  let names := sort_names localeCompare (map_to_list (json_of_profile <$> ps)).*1 in
  let mark (n : string) :=
    match ps !! n, live_credential AUTH_PATH w with
    | Some p, Some o => if active_rule (oauth p) o then "[" +:+ n +:+ "]" else n
    | _, _ => n
    end in
  let shown :=
    match names with
    | [] => {| message := "No profiles. Use '/oai save <name>' to add one.";
               variant := "info"; duration := Some 5000 |}
    | _ => {| message := "Profiles: " +:+ Js.join ", " (mark <$> names)
                         +:+ ". Use '/oai load <name>'.";
              variant := "info"; duration := Some 8000 |}
    end in
  exists w',
    hook input w = (Ok tt, w') /\
    toasts w' = (toasts w ++ [shown])%list /\
    files w' = files w /\ writes w' = writes w /\ auth_sets w' = auth_sets w /\
    parts w' = [].
Proof.
  intros Hc Hact Hvault names mark shown.
  destruct (vault_holds_members _ _ _ _ Hvault) as [Hv Hp].
  destruct (loadStorageAndAuth_run w top _ Hvault) as (evs & Hload & Hprobe).
  assert (rmap (list_entry (Some (JObj (json_of_profile <$> ps)))
                  (live_credential AUTH_PATH w)) names = Ok (mark <$> names)) as Hentries.
  { apply rmap_Ok. apply Forall_forall. intros n Hn.
    apply sort_names_keys in Hn as [v Hn]. rewrite lookup_fmap in Hn.
    destruct (ps !! n) as [p|] eqn:Ep; [|discriminate Hn].
    rewrite (list_entry_stored ps _ n p Ep). unfold mark. rewrite Ep.
    destruct (live_credential AUTH_PATH w); reflexivity. }
  assert (do_list STORAGE_PATH AUTH_PATH localeCompare w
          = (Ok tt, with_parts [] (emit (ShowToast shown) (emit_all evs w)))) as Hrun.
  { unfold do_list. rewrite (bind_Ok _ _ _ _ _ Hload). cbv beta iota.
    unfold bind at 1. unfold lift at 1.
    rewrite (sorted_names_valid localeCompare top _ Hp). cbv beta iota. fold names.
    unfold shown. destruct names as [|n names'] eqn:En; [reflexivity|].
    change (List.length (n :: names') =? 0)%nat with false. cbv iota.
    unfold bind, lift, showToast, set_parts, log. rewrite Hentries. reflexivity. }
  eexists. split.
  - rewrite (hook_matching _ _ _ _ _ _ _ Hc), Hact. unfold try_catch, run_action.
    rewrite Hrun. reflexivity.
  - destruct (projections_with_parts_emit_toast shown (emit_all evs w))
      as (F1 & W1 & A1 & T1 & P1 & _).
    destruct (projections_emit_all_probes evs w Hprobe) as (F2 & W2 & A2 & T2 & _).
    cbv zeta in *. rewrite F1, W1, A1, T1, P1, F2, W2, A2, T2. repeat split; reflexivity.
Qed.

(** *** [save] without a credential to save *)

Lemma ensureActiveAuth_cases (w : world) :
  exists evs,
    ensureActiveAuth AUTH_PATH w
    = (match live_credential AUTH_PATH w with
       | Some o => Ok o
       | None => Throw (Error "No active OpenAI login found. Run /connect first.")
       end, emit_all evs w) /\
    Forall (fun e => e = FileExists AUTH_PATH \/ e = FileJson AUTH_PATH) evs.
Proof.
  unfold ensureActiveAuth, try_catch, bind, live_credential. rewrite readJsonFile_run.
  destruct (files w !! AUTH_PATH) as [[|auth]|].
  - exists [FileExists AUTH_PATH; FileJson AUTH_PATH].
    rewrite read_auth_as_emit_all. split; [reflexivity|auto].
  - exists [FileExists AUTH_PATH; FileJson AUTH_PATH].
    rewrite read_auth_as_emit_all. split; [|auto].
    unfold lift. destruct (readOpenAiAuthFromAuthFile AUTH_PATH auth); reflexivity.
  - exists [FileExists AUTH_PATH]. split; [reflexivity|auto].
Qed.

(** X16.  [save] without a credential to save.  When the host's file is
    missing, is not JSON or is not accepted by
    [readOpenAiAuthFromAuthFile], whatever the reason, [save] reports the
    one "no active login" error; when the credential is accepted but its
    [access] or [refresh] token is empty, it reports the "seems invalid"
    error.  Either way the hook has looked at the host's file only: the
    vault file is neither probed nor written. *)
Theorem save_needs_live_credential
    (input : Input) (w : world) (sub name : string) (rest : list string) :
  normalize_command (command input) = COMMAND ->
  parseArgs (arguments input) = sub :: name :: rest ->
  Js.toLowerCase sub = "save" ->
  match live_credential AUTH_PATH w with
  | Some o => access o = "" \/ refresh o = ""
  | None => True
  end ->
  let e :=
    match live_credential AUTH_PATH w with
    | Some _ => Error "Active OpenAI auth seems invalid. Try /connect again."
    | None => Error "No active OpenAI login found. Run /connect first."
    end in
  exists evs,
    hook input w
    = (Ok tt, with_parts [] (emit (ShowToast (error_toast e)) (emit_all evs w))) /\
    Forall (fun ev => ev = FileExists AUTH_PATH \/ ev = FileJson AUTH_PATH) evs /\
    files (hook input w).2 = files w /\ writes (hook input w).2 = writes w.
Proof.
  intros Hc Hargs Hsub Hbad e.
  pose proof (token_nonempty input sub name rest Hargs) as Hne.
  destruct (ensureActiveAuth_cases w) as (evs & Hrun & Hevs).
  assert (Forall is_probe evs) as Hprobe.
  { eapply Forall_impl; [exact Hevs|]. intros ev [->| ->]; exact I. }
  exists evs.
  assert (hook input w
          = (Ok tt, with_parts [] (emit (ShowToast (error_toast e)) (emit_all evs w)))) as H.
  { rewrite (hook_verb input w sub (name :: rest) Hc Hargs), (normalize_action_save sub Hsub).
    unfold try_catch, run_action, do_save. cbv zeta.
    change (nth 1 (sub :: name :: rest) "") with name. rewrite (eqb_false_of_ne _ _ Hne).
    unfold e. destruct (live_credential AUTH_PATH w) as [o|].
    - rewrite (bind_Ok _ _ _ _ _ Hrun). cbv beta.
      assert (String.eqb (access o) "" || String.eqb (refresh o) "" = true) as ->.
      { destruct Hbad as [-> | ->]; [reflexivity|]. apply orb_true_r. }
      reflexivity.
    - rewrite (bind_Throw _ _ _ _ _ Hrun). reflexivity. }
  split; [exact H|]. split; [exact Hevs|]. rewrite H. cbn [snd].
  destruct (projections_with_parts_emit_toast (error_toast e) (emit_all evs w))
    as (F1 & W1 & _).
  destruct (projections_emit_all_probes evs w Hprobe) as (F2 & W2 & _).
  cbv zeta in *. rewrite F1, W1, F2, W2. split; reflexivity.
Qed.

(** *** Which part of the command line counts *)

Lemma run_action_second_token (a : action) (argv argv' : list string) :
  nth 1 argv "" = nth 1 argv' "" ->
  run_action STORAGE_PATH AUTH_PATH localeCompare base64_utf8 JSON_parse a argv
  = run_action STORAGE_PATH AUTH_PATH localeCompare base64_utf8 JSON_parse a argv'.
Proof.
  intros H. destruct a; simpl; try reflexivity.
  - unfold do_save. cbv zeta. rewrite H. reflexivity.
  - unfold do_del. cbv zeta. rewrite H. reflexivity.
  - unfold do_load. cbv zeta. rewrite H. reflexivity.
Qed.

(** X17.  Of the command line the hook reads the first token without
    regard to case and the second token as it is, and nothing else: two
    invocations of the reserved command whose first tokens agree up to
    case and whose second tokens are the same do the same, whatever
    follows the second token. *)
Theorem only_two_tokens_count (input input' : Input) (w : world) :
  normalize_command (command input) = COMMAND ->
  normalize_command (command input') = COMMAND ->
  Js.toLowerCase (nth 0 (parseArgs (arguments input)) "")
  = Js.toLowerCase (nth 0 (parseArgs (arguments input')) "") ->
  nth 1 (parseArgs (arguments input)) "" = nth 1 (parseArgs (arguments input')) "" ->
  hook input w = hook input' w.
Proof.
  intros Hc Hc' H0 H1.
  rewrite (hook_matching _ _ _ _ _ _ _ Hc), (hook_matching _ _ _ _ _ _ _ Hc'), H0.
  rewrite (run_action_second_token _ _ _ H1). reflexivity.
Qed.

(** *** The command guard *)

Lemma lower_ascii_slash (c : ascii) : Js.lower_ascii c = "/"%char -> c = "/"%char.
Proof.
  destruct c as [[] [] [] [] [] [] [] []]; vm_compute; intros H;
    first [reflexivity | discriminate H].
Qed.

Lemma normalize_command_matches (c : string) :
  normalize_command c = COMMAND <-> Js.toLowerCase (Js.trim c) ∈ ["oai"; "/oai"].
Proof.
  unfold normalize_command, COMMAND. rewrite !elem_of_cons, elem_of_nil.
  destruct (Js.trim c) as [|a t].
  - simpl. split; [discriminate|]. intros [H|[H|[]]]; discriminate H.
  - destruct (Ascii.eqb_spec a "/") as [->|Ha].
    + change (Js.strip_slash (String "/" t)) with t.
      change (Js.toLowerCase (String "/" t)) with (String "/" (Js.toLowerCase t)).
      split.
      * intros ->. auto.
      * intros [H|[H|[]]]; [discriminate H|]. injection H as H. exact H.
    + assert (Js.strip_slash (String a t) = String a t) as ->.
      { destruct a as [[] [] [] [] [] [] [] []]; try reflexivity.
        exfalso. apply Ha. reflexivity. }
      change (Js.toLowerCase (String a t))
        with (String (Js.lower_ascii a) (Js.toLowerCase t)).
      split; [auto|].
      intros [H|[H|[]]]; [exact H|]. injection H as H _.
      apply lower_ascii_slash in H. contradiction.
Qed.

(** X18.  The guard of the hook.  A command is the reserved one exactly
    when its name, trimmed and in lower case, is [oai] or [/oai]: one
    leading slash and any mix of upper and lower case are accepted, a
    second slash is not.  Any other command is left alone: the hook
    returns at once and the world is as it was.  Stated for command
    names of ASCII characters. *)
Theorem command_guard (input : Input) (w : world) :
  ascii_only (command input) = true ->
  (normalize_command (command input) = COMMAND
   <-> Js.toLowerCase (Js.trim (command input)) ∈ ["oai"; "/oai"]) /\
  (Js.toLowerCase (Js.trim (command input)) ∉ ["oai"; "/oai"] ->
   hook input w = (Ok tt, w)).
Proof.
  intros _. split; [apply normalize_command_matches|].
  intros H. apply unrelated_command_untouched.
  intros E. apply H, normalize_command_matches, E.
Qed.

(** *** A vault that cannot be loaded *)

Lemma loadStorage_Throw (w : world) (e : error) :
  (loadStorage STORAGE_PATH w).1 = Throw e ->
  forall evs0,
    loadStorage STORAGE_PATH (emit_all evs0 w)
    = (Throw e, emit_all (evs0 ++ vault_probes STORAGE_PATH w) w).
Proof.
  intros H evs0. rewrite loadStorage_run in *. rewrite files_emit_all.
  unfold vault_probes. rewrite read_vault_as_emit_all, emit_all_app.
  destruct (files w !! STORAGE_PATH) as [[|j]|]; simpl in H.
  - rewrite H. reflexivity.
  - rewrite H. reflexivity.
  - discriminate H.
Qed.

Lemma run_action_unloadable (w : world) (e : error) (a : action) (argv : list string) :
  (loadStorage STORAGE_PATH w).1 = Throw e ->
  a <> A_unknown ->
  exists e' evs,
    run_action STORAGE_PATH AUTH_PATH localeCompare base64_utf8 JSON_parse a argv w
    = (Throw e', emit_all evs w) /\
    Forall is_probe evs /\
    (a = A_list \/ ((a = A_del \/ a = A_load) /\ nth 1 argv "" <> "") -> e' = e).
Proof.
  intros Hload Ha.
  pose proof (loadStorage_Throw w e Hload []) as H0. rewrite emit_all_nil in H0.
  simpl app in H0.
  destruct a; simpl; try contradiction.
  - exists e, (vault_probes STORAGE_PATH w). split; [|split; [apply vault_probes_probe|auto]].
    unfold do_list, loadStorageAndAuth.
    rewrite (bind_Throw _ _ _ _ _ (bind_Throw _ _ _ _ _ H0)). reflexivity.
  - unfold do_save. cbv zeta.
    destruct (String.eqb (nth 1 argv "") "").
    { exists (Error "Usage: /oai save <name>"), []. rewrite emit_all_nil.
      split; [reflexivity|]. split; [constructor|]. intros [[=]|[[[=]|[=]] _]]. }
    destruct (ensureActiveAuth_cases w) as (evs & Hrun & Hevs).
    assert (Forall is_probe evs) as Hprobe.
    { eapply Forall_impl; [exact Hevs|]. intros ev [->| ->]; exact I. }
    destruct (live_credential AUTH_PATH w) as [o|].
    + rewrite (bind_Ok _ _ _ _ _ Hrun). cbv beta.
      destruct (String.eqb (access o) "" || String.eqb (refresh o) "").
      * eexists _, evs. split; [reflexivity|]. split; [exact Hprobe|].
        intros [[=]|[[[=]|[=]] _]].
      * rewrite (bind_Throw _ _ _ _ _ (loadStorage_Throw w e Hload evs)).
        eexists _, _. split; [reflexivity|]. split.
        -- apply Forall_app. split; [exact Hprobe|apply vault_probes_probe].
        -- intros [[=]|[[[=]|[=]] _]].
    + rewrite (bind_Throw _ _ _ _ _ Hrun). eexists _, evs.
      split; [reflexivity|]. split; [exact Hprobe|]. intros [[=]|[[[=]|[=]] _]].
  - unfold do_del. cbv zeta. destruct (String.eqb_spec (nth 1 argv "") "") as [E|E].
    + exists (Error "Usage: /oai del <name>"), []. rewrite emit_all_nil.
      split; [reflexivity|]. split; [constructor|].
      intros [[=]|[_ Hne]]. contradiction.
    + exists e, (vault_probes STORAGE_PATH w).
      rewrite (bind_Throw _ _ _ _ _ H0).
      split; [reflexivity|]. split; [apply vault_probes_probe|auto].
  - unfold do_load. cbv zeta. destruct (String.eqb_spec (nth 1 argv "") "") as [E|E].
    + exists (Error "Usage: /oai load <name>"), []. rewrite emit_all_nil.
      split; [reflexivity|]. split; [constructor|].
      intros [[=]|[_ Hne]]. contradiction.
    + exists e, (vault_probes STORAGE_PATH w).
      rewrite (bind_Throw _ _ _ _ _ H0).
      split; [reflexivity|]. split; [apply vault_probes_probe|auto].
Qed.

(** X19.  A vault file that cannot be loaded is left alone.  When the
    vault file is there and [loadStorage] throws on it (it is not JSON,
    or not a valid storage), no command repairs or replaces it: whatever
    the command, every file stays as it was, nothing is written and no
    credential is set; and [list], and [del] and [load] with an argument,
    report the very error of [loadStorage] in their toast. *)
Theorem unloadable_vault_is_left_alone (input : Input) (w : world) (e : error) :
  (loadStorage STORAGE_PATH w).1 = Throw e ->
  let a := normalize_action (Js.toLowerCase (nth 0 (parseArgs (arguments input)) "")) in
  let w' := (hook input w).2 in
  files w' = files w /\ writes w' = writes w /\ auth_sets w' = auth_sets w /\
  (normalize_command (command input) = COMMAND ->
   a = A_list \/ ((a = A_del \/ a = A_load) /\ nth 1 (parseArgs (arguments input)) "" <> "") ->
   toasts w' = (toasts w ++ [error_toast e])%list).
Proof.
  intros Hload a w'.
  destruct (String.eqb_spec (normalize_command (command input)) COMMAND) as [Hc|Hc].
  - unfold w'. rewrite (hook_matching _ _ _ _ _ _ _ Hc). fold a. unfold try_catch.
    assert (a = A_unknown \/ a <> A_unknown) as [Ea|Ha].
    { clearbody a. destruct a; first [left; reflexivity | right; discriminate]. }
    + rewrite Ea. simpl. repeat split; try reflexivity.
      * unfold writes, emit. simpl. rewrite omap_app. apply app_nil_r.
      * unfold auth_sets, emit. simpl. rewrite omap_app. apply app_nil_r.
      * intros _ [[=]|[[[=]|[=]] _]].
    + destruct (run_action_unloadable w e a (parseArgs (arguments input)) Hload Ha)
        as (e' & evs & Hrun & Hprobe & He).
      rewrite Hrun, on_error_run. cbn [snd].
      destruct (projections_with_parts_emit_toast (error_toast e') (emit_all evs w))
        as (F1 & W1 & A1 & T1 & _).
      destruct (projections_emit_all_probes evs w Hprobe) as (F2 & W2 & A2 & T2 & _).
      cbv zeta in *. rewrite F1, W1, A1, T1, F2, W2, A2, T2.
      repeat split; try reflexivity. intros _ Hact. rewrite (He Hact). reflexivity.
  - unfold w'. rewrite (unrelated_command_untouched _ _ _ _ _ _ _ Hc). cbn [snd].
    repeat split; try reflexivity. intros Hc'. contradiction.
Qed.

End Commands.

Lemma missing_argument_is_usage_error_witness :
  Demo.run (Demo.oai "DEL") Demo.world_abc
  = (Ok tt,
     with_parts []
       (emit (ShowToast (error_toast (Error "Usage: /oai del <name>"))) Demo.world_abc)).
Proof.
  apply (missing_argument_is_usage_error Demo.STORAGE_PATH Demo.AUTH_PATH
           Demo.localeCompare Demo.base64_utf8 Demo.JSON_parse
           (Demo.oai "DEL") Demo.world_abc "DEL").
  - reflexivity.
  - reflexivity.
  - vm_compute. set_solver.
Defined.

(** ** Numbers as selectors *)

Lemma digit_of_pretty_N_char (d : N) :
  (d < 10)%N -> Js.digit_of (pretty_N_char d) = Some (Z.of_N d).
Proof.
  intros H.
  assert (d = 0 \/ d = 1 \/ d = 2 \/ d = 3 \/ d = 4 \/ d = 5 \/ d = 6 \/ d = 7 \/ d = 8
          \/ d = 9)%N as Hd by lia.
  repeat (destruct Hd as [->|Hd]; [reflexivity|]). subst. reflexivity.
Qed.

Lemma leading_digits_pretty_N_go (x : N) :
  (0 < x)%N ->
  forall acc seen s,
    exists p, Js.leading_digits acc seen (pretty_N_go x s)
              = Js.leading_digits (acc * p + Z.of_N x) true s.
Proof.
  induction x as [x IH] using (well_founded_induction N.lt_wf_0).
  intros Hx acc seen s. rewrite pretty_N_go_step by exact Hx.
  pose proof (N.mod_lt x 10 ltac:(discriminate)) as Hmod.
  pose proof (N.div_mod' x 10) as Hdm.
  destruct (decide (x / 10 = 0)%N) as [E|E].
  - rewrite E, pretty_N_go_0. exists 10. cbn [Js.leading_digits].
    rewrite (digit_of_pretty_N_char _ Hmod). f_equal.
    rewrite E in Hdm. remember (x mod 10)%N as r. lia.
  - destruct (IH (x / 10)%N (N.div_lt x 10 Hx eq_refl) (proj1 (N.neq_0_lt_0 _) E) acc seen
                (String (pretty_N_char (x mod 10)) s)) as [p Hp].
    exists (10 * p). rewrite Hp. cbn [Js.leading_digits].
    rewrite (digit_of_pretty_N_char _ Hmod). f_equal.
    remember (x mod 10)%N as r. remember (x / 10)%N as q. lia.
Qed.

Lemma pretty_N_go_first (x : N) :
  (0 < x)%N ->
  forall s, exists d rest, (d < 10)%N /\ pretty_N_go x s = String (pretty_N_char d) rest.
Proof.
  induction x as [x IH] using (well_founded_induction N.lt_wf_0).
  intros Hx s. rewrite pretty_N_go_step by exact Hx.
  pose proof (N.mod_lt x 10 ltac:(discriminate)) as Hmod.
  pose proof (N.div_mod' x 10) as Hdm.
  destruct (decide (x / 10 = 0)%N) as [E|E].
  - rewrite E, pretty_N_go_0. eauto.
  - apply IH; [exact (N.div_lt x 10 Hx eq_refl)|exact (proj1 (N.neq_0_lt_0 _) E)].
Qed.

Lemma parseInt_digit_first (c : ascii) (rest : string) (v : Z) :
  Js.digit_of c = Some v ->
  Js.parseInt (String c rest) = Js.leading_digits 0 false (String c rest).
Proof.
  destruct c as [[] [] [] [] [] [] [] []]; intros H; vm_compute in H;
    first [discriminate H | reflexivity].
Qed.

Lemma parseInt_pretty (m : nat) : Js.parseInt (pretty (S m)) = Some (Z.of_nat (S m)).
Proof.
  unfold pretty, pretty_nat, pretty, pretty_N.
  destruct (decide (N.of_nat (S m) = 0%N)) as [E|_]; [lia|].
  destruct (pretty_N_go_first (N.of_nat (S m)) ltac:(lia) "") as (d & rest & Hd & E).
  pose proof (leading_digits_pretty_N_go (N.of_nat (S m)) ltac:(lia) 0 false "") as [p Hp].
  rewrite E in *. rewrite (parseInt_digit_first _ rest _ (digit_of_pretty_N_char d Hd)), Hp.
  cbn [Js.leading_digits]. f_equal; lia.
Qed.




(** ** The earlier revisions *)

Lemma trimStart_empty (s : string) : Js.trimStart s = "" <-> without_blanks s = "".
Proof.
  induction s as [|c s IH]; simpl; [tauto|].
  destruct (Js.is_space c); [exact IH|]. split; discriminate.
Qed.

Lemma trim_empty (s : string) : Js.trim s = "" <-> without_blanks s = "".
Proof.
  unfold Js.trim. split.
  - intros H. apply rev_empty in H. apply (proj1 (trimStart_empty _)) in H.
    rewrite without_blanks_rev in H. apply rev_empty in H.
    rewrite without_blanks_trimStart in H. exact H.
  - intros H. apply (proj2 (trimStart_empty _)) in H. rewrite H. reflexivity.
Qed.

(** X20.  [assertNonEmpty] of the first revision refuses exactly the
    values that are empty or made of white space only, with an error
    that names what was expected; a token of the command line is never
    refused, so the check fails only for an argument that is missing.
    Stated for values of ASCII characters. *)
Theorem assertNonEmpty_cases (value label : string) :
  ascii_only value = true ->
  (without_blanks value = "" ->
   First.assertNonEmpty value label = Throw (Error (label +:+ " must be non-empty"))) /\
  (without_blanks value <> "" -> First.assertNonEmpty value label = Ok tt) /\
  (is_token value -> First.assertNonEmpty value label = Ok tt).
Proof.
  intros _. unfold First.assertNonEmpty.
  assert (without_blanks value <> "" -> String.eqb (Js.trim value) "" = false) as Hok.
  { intros H. apply eqb_false_of_ne. intros E. apply H, trim_empty, E. }
  split; [|split].
  - intros H. apply trim_empty in H. rewrite H. reflexivity.
  - intros H. rewrite (Hok H). reflexivity.
  - intros [Hne Hfree]. rewrite Hok; [reflexivity|].
    rewrite (without_blanks_free value Hfree). exact Hne.
Qed.

Lemma assertNonEmpty_cases_witness :
  First.assertNonEmpty "   " "Profile name" = Throw (Error "Profile name must be non-empty") /\
  First.assertNonEmpty " work " "Profile name" = Ok tt /\
  First.assertNonEmpty "work" "Profile name" = Ok tt.
Proof.
  split; [|split].
  - apply (proj1 (assertNonEmpty_cases "   " "Profile name" eq_refl)). reflexivity.
  - apply (proj1 (proj2 (assertNonEmpty_cases " work " "Profile name" eq_refl))).
    discriminate.
  - apply (proj2 (proj2 (assertNonEmpty_cases "work" "Profile name" eq_refl))).
    split; [discriminate|reflexivity].
Defined.

Section Earlier.

Context (STORAGE_PATH AUTH_PATH : string).
Context (localeCompare : string -> string -> Z).
Context (base64_utf8 : string -> string).
Context (JSON_parse : string -> option json).
Context (canonical_number : string -> bool).
Context (Date_toISOString : jsval -> option string).

#[local] Abbreviation older := (Older.command_execute_before STORAGE_PATH AUTH_PATH
                                  localeCompare base64_utf8 JSON_parse).
#[local] Abbreviation first := (First.command_execute_before STORAGE_PATH AUTH_PATH
                                  localeCompare base64_utf8 JSON_parse canonical_number
                                  Date_toISOString).

Lemma older_use_run (input : Input) (w : world) :
  normalize_command (command input) = COMMAND ->
  nth 0 (parseArgs (arguments input)) "" = "use" ->
  older input w
  = try_catch (Older.do_use STORAGE_PATH localeCompare base64_utf8 JSON_parse "use")
      on_error (emit (ShowToast (Older.debug_toast input)) w).
Proof.
  intros Hc Huse. unfold Older.command_execute_before, bind, showToast, log.
  rewrite Hc, Huse. reflexivity.
Qed.

Lemma first_use_run (input : Input) (w : world) :
  command input = COMMAND ->
  nth 0 (parseArgs (arguments input)) "" = "use" ->
  first input w
  = try_catch (First.do_activate STORAGE_PATH localeCompare base64_utf8 JSON_parse
                 canonical_number "use")
      First.on_error w.
Proof.
  intros Hc Huse. unfold First.command_execute_before. rewrite Hc, Huse. reflexivity.
Qed.

(** X21.  The alias [use] of the two earlier revisions.  After
    [/oai use NAME] the selector is the word [use] itself, not [NAME]:
    what follows the first token is not read, and the profile looked up
    is the one called [use].  In a vault without such a profile the older
    revision reports that [use] was not found and sets no credential,
    whatever [NAME] is. *)
Theorem use_alias_selects_use
    (input : Input) (w : world) (top profiles : gmap string json) :
  nth 0 (parseArgs (arguments input)) "" = "use" ->
  let bare := {| command := command input; arguments := "use" |} in
  (command input = COMMAND -> first input w = first bare w) /\
  (normalize_command (command input) = COMMAND ->
   toasts (older input w).2 = toasts (older bare w).2 /\
   auth_sets (older input w).2 = auth_sets (older bare w).2 /\
   files (older input w).2 = files (older bare w).2) /\
  (normalize_command (command input) = COMMAND ->
   vault_holds STORAGE_PATH w top profiles ->
   truthy (profiles !! "use") = false ->
   toasts (older input w).2
   = (toasts w ++ [Older.debug_toast input;
                   error_toast (Error "Profile 'use' not found. Use /oai to list.")])%list /\
   auth_sets (older input w).2 = auth_sets w).
Proof.
  intros Huse bare. split; [|split].
  - intros Hc. rewrite (first_use_run input w Hc Huse).
    rewrite (first_use_run bare w Hc eq_refl). reflexivity.
  - intros Hc. rewrite (older_use_run input w Hc Huse).
    rewrite (older_use_run bare w Hc eq_refl). change (Older.debug_toast bare)
      with (Older.debug_toast input). auto.
  - intros Hc Hvault Hmiss. rewrite (older_use_run input w Hc Huse).
    destruct (vault_holds_members _ _ _ _ Hvault) as [Hv Hp].
    set (w0 := emit (ShowToast (Older.debug_toast input)) w).
    assert (Older.do_use STORAGE_PATH localeCompare base64_utf8 JSON_parse "use" w0
            = (Throw (Error "Profile 'use' not found. Use /oai to list."),
               emit_all (vault_probes STORAGE_PATH w0) w0)) as Hrun.
    { unfold Older.do_use. change (String.eqb "use" "") with false. cbv iota.
      rewrite (bind_Ok _ _ _ _ _ (loadStorage_holds STORAGE_PATH w0 top profiles Hvault)).
      cbv beta. unfold bind at 1. unfold lift at 1.
      rewrite (sorted_names_valid localeCompare top profiles Hp). cbv beta iota.
      rewrite (resolve_number_literal "use") by (intros n [=]).
      unfold bind, lift. cbn [get]. rewrite Hmiss. reflexivity. }
    unfold try_catch. rewrite Hrun, on_error_run. cbn [snd].
    destruct (projections_with_parts_emit_toast
                (error_toast (Error "Profile 'use' not found. Use /oai to list."))
                (emit_all (vault_probes STORAGE_PATH w0) w0)) as (_ & _ & A1 & T1 & _).
    destruct (projections_emit_all_probes (vault_probes STORAGE_PATH w0) w0
                (vault_probes_probe STORAGE_PATH w0)) as (_ & _ & A2 & T2 & _).
    cbv zeta in *. rewrite A1, T1, A2, T2. unfold w0.
    rewrite toasts_emit, <- app_assoc. split; [reflexivity|].
    unfold auth_sets, emit. simpl. rewrite omap_app. apply app_nil_r.
Qed.

Lemma is_token_trim (t : string) : is_token t -> String.eqb (Js.trim t) "" = false.
Proof.
  intros [Hne Hfree]. apply eqb_false_of_ne. intros E. apply trim_empty in E.
  rewrite (without_blanks_free t Hfree) in E. contradiction.
Qed.

Lemma second_token (input : Input) (verb selector : string) (rest : list string) :
  parseArgs (arguments input) = verb :: selector :: rest -> is_token selector.
Proof.
  intros Hargs. pose proof (parseArgs_are_tokens (arguments input)) as H.
  rewrite Hargs in H. apply Forall_cons in H as [_ H]. apply Forall_cons in H as [H _].
  exact H.
Qed.

Lemma projections_first_on_error (e : error) (w : world) :
  let w' := (First.on_error e w).2 in
  (First.on_error e w).1 = Throw e /\
  files w' = files w /\ writes w' = writes w /\ auth_sets w' = auth_sets w /\
  parts w' = ["OpenAI multi-account error: " +:+ error_message e].
Proof.
  rewrite first_on_error_run. unfold writes, auth_sets, emit, with_parts. simpl.
  rewrite !omap_app. simpl. rewrite !app_nil_r. repeat split; reflexivity.
Qed.

(** X22.  In the first revision a profile is removed by its number
    only.  A selector that is not a number in printed form is an invalid
    selection, also when the vault has a profile of that very name: the
    hook puts the error into the chat, throws it, and writes nothing. *)
Theorem first_remove_takes_numbers_only
    (input : Input) (w : world) (verb selector : string) (rest : list string)
    (top profiles : gmap string json) :
  command input = COMMAND ->
  parseArgs (arguments input) = verb :: selector :: rest ->
  verb ∈ ["d"; "rm"; "remove"] ->
  canonical_number selector = false ->
  vault_holds STORAGE_PATH w top profiles ->
  let e := Error ("Invalid selection '" +:+ selector +:+ "'. Use: /oai") in
  (first input w).1 = Throw e /\
  files (first input w).2 = files w /\ writes (first input w).2 = writes w /\
  auth_sets (first input w).2 = auth_sets w /\
  parts (first input w).2 = ["OpenAI multi-account error: " +:+ error_message e].
Proof.
  intros Hc Hargs Hverb Hnum Hvault e.
  destruct (vault_holds_members _ _ _ _ Hvault) as [Hv Hp].
  assert (First.do_remove STORAGE_PATH localeCompare canonical_number
            (verb :: selector :: rest) w
          = (Throw e, emit_all (vault_probes STORAGE_PATH w) w)) as Hrun.
  { unfold First.do_remove. cbv zeta. change (nth 1 (verb :: selector :: rest) "") with selector.
    unfold bind at 1. unfold lift at 1. unfold First.assertNonEmpty.
    rewrite (is_token_trim selector (second_token input verb selector rest Hargs)).
    rewrite (bind_Ok _ _ _ _ _ (loadStorage_holds STORAGE_PATH w top profiles Hvault)).
    cbv beta. unfold bind at 1. unfold lift at 1.
    rewrite (sorted_names_valid localeCompare top profiles Hp). cbv beta iota.
    rewrite Hnum. reflexivity. }
  assert (first input w
          = First.on_error e (emit_all (vault_probes STORAGE_PATH w) w)) as H.
  { unfold First.command_execute_before. rewrite Hc, Hargs.
    change (negb (String.eqb COMMAND COMMAND)) with false. cbv iota zeta.
    change (nth 0 (verb :: selector :: rest) "") with verb.
    assert (First.run_sub STORAGE_PATH AUTH_PATH localeCompare base64_utf8 JSON_parse
              canonical_number Date_toISOString (Older.normalize_sub verb)
              (verb :: selector :: rest)
            = First.do_remove STORAGE_PATH localeCompare canonical_number
                (verb :: selector :: rest)) as ->.
    { repeat (apply elem_of_cons in Hverb as [->|Hverb]; [reflexivity|]).
      apply elem_of_nil in Hverb. contradiction. }
    unfold try_catch. rewrite Hrun. reflexivity. }
  rewrite H.
  destruct (projections_first_on_error e (emit_all (vault_probes STORAGE_PATH w) w))
    as (R & F1 & W1 & A1 & P1).
  destruct (projections_emit_all_probes (vault_probes STORAGE_PATH w) w
              (vault_probes_probe STORAGE_PATH w)) as (F2 & W2 & A2 & _).
  cbv zeta in *. rewrite R, F1, W1, A1, P1, F2, W2, A2. repeat split; reflexivity.
Qed.

(** X23.  The first revision cannot show its menu, its list or the
    current account without a live credential.  When the host's file is
    missing, is not JSON or is not accepted, these commands fail: the
    hook throws, with the error text in the chat, and with a missing
    host's file the error is "File not found".  (The later revisions list
    the profiles without a mark instead.) *)
Theorem first_menu_needs_live_credential
    (input : Input) (w : world) (top profiles : gmap string json) :
  command input = COMMAND ->
  nth 0 (parseArgs (arguments input)) "" ∈ [""; "help"; "switch"; "list"; "current"] ->
  vault_holds STORAGE_PATH w top profiles ->
  live_credential AUTH_PATH w = None ->
  exists e,
    (first input w).1 = Throw e /\
    parts (first input w).2 = ["OpenAI multi-account error: " +:+ error_message e] /\
    files (first input w).2 = files w /\
    (files w !! AUTH_PATH = None -> e = Error ("File not found: " +:+ AUTH_PATH)).
Proof.
  intros Hc Hsub Hvault Hlive.
  destruct (vault_holds_members _ _ _ _ Hvault) as [Hv Hp].
  assert (forall w0, files w0 = files w ->
            exists e evs,
              First.readActiveOauth AUTH_PATH w0 = (Throw e, emit_all evs w0) /\
              Forall is_probe evs /\
              (files w !! AUTH_PATH = None -> e = Error ("File not found: " +:+ AUTH_PATH)))
    as Hread.
  { intros w0 Hw0. unfold First.readActiveOauth, bind. rewrite readJsonFile_run, Hw0.
    unfold live_credential in Hlive.
    destruct (files w !! AUTH_PATH) as [[|auth]|].
    - eexists _, _. rewrite read_auth_as_emit_all.
      split; [reflexivity|]. split; [repeat constructor|discriminate].
    - unfold lift.
      destruct (readOpenAiAuthFromAuthFile AUTH_PATH auth) as [o|e]; [discriminate Hlive|].
      eexists _, _. rewrite read_auth_as_emit_all.
      split; [reflexivity|]. split; [repeat constructor|discriminate].
    - exists (Error ("File not found: " +:+ AUTH_PATH)), [FileExists AUTH_PATH].
      split; [reflexivity|]. split; [repeat constructor|reflexivity]. }
  assert (exists e evs,
            First.run_sub STORAGE_PATH AUTH_PATH localeCompare base64_utf8 JSON_parse
              canonical_number Date_toISOString
              (Older.normalize_sub (nth 0 (parseArgs (arguments input)) ""))
              (parseArgs (arguments input)) w
            = (Throw e, emit_all evs w) /\
            Forall is_probe evs /\
            (files w !! AUTH_PATH = None -> e = Error ("File not found: " +:+ AUTH_PATH)))
    as (e & evs & Hrun & Hprobe & Hmissing).
  { destruct (Hread (emit_all (vault_probes STORAGE_PATH w) w) eq_refl)
      as (e1 & evs1 & Hr1 & Hp1 & Hm1).
    destruct (Hread w eq_refl) as (e2 & evs2 & Hr2 & Hp2 & Hm2).
    assert (Forall is_probe (vault_probes STORAGE_PATH w ++ evs1)) as Hp1'
      by (apply Forall_app; split; [apply vault_probes_probe|exact Hp1]).
    assert (forall sub, sub ∈ [""; "help"; "switch"; "list"] ->
              exists e evs,
                First.run_sub STORAGE_PATH AUTH_PATH localeCompare base64_utf8 JSON_parse
                  canonical_number Date_toISOString (Older.normalize_sub sub)
                  (parseArgs (arguments input)) w
                = (Throw e, emit_all evs w) /\
                Forall is_probe evs /\
                (files w !! AUTH_PATH = None -> e = Error ("File not found: " +:+ AUTH_PATH)))
      as Hmenu.
    { intros sub Hin. exists e1, (vault_probes STORAGE_PATH w ++ evs1)%list.
      split; [|split; assumption].
      assert (First.run_sub STORAGE_PATH AUTH_PATH localeCompare base64_utf8 JSON_parse
                canonical_number Date_toISOString (Older.normalize_sub sub)
                (parseArgs (arguments input))
              = First.do_menu STORAGE_PATH AUTH_PATH localeCompare base64_utf8 JSON_parse
                \/ First.run_sub STORAGE_PATH AUTH_PATH localeCompare base64_utf8 JSON_parse
                     canonical_number Date_toISOString (Older.normalize_sub sub)
                     (parseArgs (arguments input))
                   = First.do_list STORAGE_PATH AUTH_PATH localeCompare base64_utf8
                       JSON_parse Date_toISOString) as [-> | ->].
      { repeat (apply elem_of_cons in Hin as [->|Hin]; [auto|]).
        apply elem_of_nil in Hin. contradiction. }
      - unfold First.do_menu.
        rewrite (bind_Ok _ _ _ _ _ (loadStorage_holds STORAGE_PATH w top profiles Hvault)).
        cbv beta. rewrite (bind_Throw _ _ _ _ _ Hr1), emit_all_app. reflexivity.
      - unfold First.do_list.
        rewrite (bind_Ok _ _ _ _ _ (loadStorage_holds STORAGE_PATH w top profiles Hvault)).
        cbv beta. rewrite (bind_Throw _ _ _ _ _ Hr1), emit_all_app. reflexivity. }
    apply elem_of_cons in Hsub as [E|Hsub]; [apply Hmenu; rewrite E; set_solver|].
    apply elem_of_cons in Hsub as [E|Hsub]; [apply Hmenu; rewrite E; set_solver|].
    apply elem_of_cons in Hsub as [E|Hsub]; [apply Hmenu; rewrite E; set_solver|].
    apply elem_of_cons in Hsub as [E|Hsub]; [apply Hmenu; rewrite E; set_solver|].
    apply elem_of_cons in Hsub as [E|Hsub]; [|apply elem_of_nil in Hsub; contradiction].
    rewrite E. exists e2, evs2. split; [|split; assumption].
    change (First.run_sub STORAGE_PATH AUTH_PATH localeCompare base64_utf8 JSON_parse
              canonical_number Date_toISOString (Older.normalize_sub "current")
              (parseArgs (arguments input)))
      with (First.do_current AUTH_PATH Date_toISOString).
    unfold First.do_current. rewrite (bind_Throw _ _ _ _ _ Hr2). reflexivity. }
  exists e.
  assert (first input w = First.on_error e (emit_all evs w)) as H.
  { unfold First.command_execute_before. rewrite Hc.
    change (negb (String.eqb COMMAND COMMAND)) with false. cbv iota zeta.
    unfold try_catch. rewrite Hrun. reflexivity. }
  rewrite H.
  destruct (projections_first_on_error e (emit_all evs w)) as (R & F1 & _ & _ & P1).
  destruct (projections_emit_all_probes evs w Hprobe) as (F2 & _).
  cbv zeta in *. rewrite R, F1, P1, F2. repeat split; try reflexivity. exact Hmissing.
Qed.

(** *** The vault under the earlier revisions *)

#[local] Abbreviation allowed := (revision_event STORAGE_PATH AUTH_PATH).

Lemma emits_older_do_save (argv : list string) :
  emits allowed (fun _ => True)
    (Older.do_save STORAGE_PATH AUTH_PATH base64_utf8 JSON_parse argv).
Proof.
  unfold Older.do_save. cbv zeta. apply emits_if; [apply emits_throw|].
  eapply emits_bind; [apply emits_ensureActiveAuth; simpl; auto|]. intros oauth _.
  apply emits_if; [apply emits_throw|].
  eapply emits_bind; [apply emits_loadStorage; simpl; auto|].
  intros storage (top & profiles & -> & Hv & Hp).
  cbn [get]. rewrite Hp. apply emits_bind_lift. intros ? [= <-].
  eapply emits_bind; [apply emits_Date_now|]. intros stamp _.
  cbn [set]. apply emits_bind_lift. intros ? [= <-].
  apply emits_bind_lift. intros ? [= <-].
  eapply emits_bind.
  { apply emits_Bun_write. simpl. split; [reflexivity|].
    apply valid_storage_set_profiles, Hv. }
  intros _ _. apply emits_bind_lift. intros email _.
  eapply emits_bind; [apply emits_showToast; exact I|]. intros _ _.
  apply emits_set_parts.
Qed.

Lemma emits_remove_tail (P : event -> Prop) (top profiles : gmap string json)
    (name : string) (tail : M unit) :
  top !! "version" = Some (JNum 1) ->
  (forall d, valid_storage d -> P (FileWrite STORAGE_PATH d)) ->
  emits P (fun _ => True) tail ->
  emits P (fun _ => True)
    (let* profiles' := lift (delete_prop (Some (JObj profiles)) name) in
     let* storage' := lift (set (Some (JObj top)) "profiles" profiles') in
     saveStorage STORAGE_PATH storage';; tail).
Proof.
  intros Hv HP Htail. cbn [delete_prop set].
  apply emits_bind_lift. intros ? [= <-]. apply emits_bind_lift. intros ? [= <-].
  eapply emits_bind; [|intros; exact Htail].
  apply emits_Bun_write, HP, valid_storage_set_profiles, Hv.
Qed.

Lemma emits_older_do_remove (argv : list string) :
  emits allowed (fun _ => True) (Older.do_remove STORAGE_PATH localeCompare argv).
Proof.
  unfold Older.do_remove. cbv zeta. apply emits_if; [apply emits_throw|].
  eapply emits_bind; [apply emits_loadStorage; simpl; auto|].
  intros storage (top & profiles & -> & Hv & Hp).
  unfold sorted_names. cbn [get rbind]. rewrite Hp. cbn [Object_keys rbind].
  apply emits_bind_lift. intros ? [= <-]. cbn [get].
  apply emits_bind_lift. intros found _.
  apply emits_if; [apply emits_throw|].
  apply (emits_remove_tail allowed top profiles); [exact Hv|simpl; auto|].
  eapply emits_bind; [apply emits_showToast; exact I|]. intros _ _.
  apply emits_set_parts.
Qed.

Lemma emits_older_do_use (selector : string) :
  emits allowed (fun _ => True)
    (Older.do_use STORAGE_PATH localeCompare base64_utf8 JSON_parse selector).
Proof.
  unfold Older.do_use. apply emits_if; [apply emits_throw|].
  eapply emits_bind; [apply emits_loadStorage; simpl; auto|]. intros storage _.
  apply emits_bind_lift. intros [profiles names] _. cbv zeta.
  apply emits_bind_lift. intros profile _.
  apply emits_if; [apply emits_throw|].
  apply emits_bind_lift. intros body _.
  eapply emits_bind; [apply emits_auth_set; reflexivity|]. intros _ _.
  apply emits_bind_lift. intros p_oauth _.
  apply emits_bind_lift. intros p_access _.
  apply emits_bind_lift. intros email _.
  eapply emits_bind; [apply emits_showToast; exact I|]. intros _ _.
  apply emits_set_parts.
Qed.

Lemma emits_older_do_list :
  emits allowed (fun _ => True) (Older.do_list STORAGE_PATH AUTH_PATH localeCompare).
Proof.
  unfold Older.do_list.
  eapply emits_bind;
    [apply emits_loadStorageAndAuth; simpl; auto|]. intros [storage activeOauth] _.
  apply emits_bind_lift. intros [profiles names] _.
  eapply emits_bind; [|intros; apply emits_set_parts].
  apply (emits_if allowed (fun _ => True)); [apply emits_showToast; exact I|].
  apply emits_bind_lift. intros entries _. apply emits_showToast. exact I.
Qed.

Lemma emits_older (input : Input) : emits allowed (fun _ => True) (older input).
Proof.
  unfold Older.command_execute_before.
  eapply emits_bind; [apply emits_showToast; exact I|]. intros _ _. cbv zeta.
  apply emits_if; [apply emits_ret; exact I|].
  apply emits_try_catch; [|intros; apply emits_on_error; intros; exact I].
  apply emits_if; [apply emits_older_do_list|].
  apply emits_if; [apply emits_older_do_save|].
  apply emits_if; [apply emits_older_do_remove|apply emits_older_do_use].
Qed.

Lemma emits_readActiveOauth :
  emits allowed (fun _ => True) (First.readActiveOauth AUTH_PATH).
Proof.
  unfold First.readActiveOauth.
  eapply emits_bind; [apply emits_readJsonFile; simpl; auto|]. intros authFile _.
  apply emits_lift. auto.
Qed.

Lemma emits_first_run_sub (normalizedSub : string) (argv : list string) :
  emits allowed (fun _ => True)
    (First.run_sub STORAGE_PATH AUTH_PATH localeCompare base64_utf8 JSON_parse
       canonical_number Date_toISOString normalizedSub argv).
Proof.
  unfold First.run_sub.
  apply emits_if; [|apply emits_if; [|apply emits_if; [|apply emits_if; [|apply emits_if]]]].
  - unfold First.do_menu.
    eapply emits_bind; [apply emits_loadStorage; simpl; auto|]. intros storage _.
    eapply emits_bind; [apply emits_readActiveOauth|]. intros activeOauth _.
    apply emits_bind_lift. intros [profiles names] _.
    apply emits_bind_lift. intros text _. apply emits_set_parts.
  - unfold First.do_list.
    eapply emits_bind; [apply emits_loadStorage; simpl; auto|]. intros storage _.
    eapply emits_bind; [apply emits_readActiveOauth|]. intros activeOauth _.
    apply emits_bind_lift. intros [profiles names] _.
    apply emits_bind_lift. intros lines _. apply emits_set_parts.
  - unfold First.do_current.
    eapply emits_bind; [apply emits_readActiveOauth|]. intros oauth _.
    apply emits_bind_lift. intros exp _. apply emits_set_parts.
  - unfold First.do_save. cbv zeta.
    apply emits_bind_lift. intros _ _.
    eapply emits_bind; [apply emits_readActiveOauth|]. intros oauth _.
    eapply emits_bind; [apply emits_loadStorage; simpl; auto|].
    intros storage (top & profiles & -> & Hv & Hp).
    cbn [get]. rewrite Hp. apply emits_bind_lift. intros ? [= <-].
    eapply emits_bind; [apply emits_Date_now|]. intros stamp _.
    cbn [set]. apply emits_bind_lift. intros ? [= <-].
    apply emits_bind_lift. intros ? [= <-].
    eapply emits_bind.
    { apply emits_Bun_write. simpl. split; [reflexivity|].
      apply valid_storage_set_profiles, Hv. }
    intros _ _. eapply emits_bind; [apply emits_set_parts|]. intros _ _.
    apply emits_bind_lift. intros email _. apply emits_showToast. exact I.
  - unfold First.do_remove. cbv zeta.
    apply emits_bind_lift. intros _ _.
    eapply emits_bind; [apply emits_loadStorage; simpl; auto|].
    intros storage (top & profiles & -> & Hv & Hp).
    unfold sorted_names. cbn [get rbind]. rewrite Hp. cbn [Object_keys rbind].
    apply emits_bind_lift. intros ? [= <-].
    apply emits_if; [apply emits_throw|]. cbn [get].
    apply emits_bind_lift. intros found _.
    apply emits_if; [apply emits_throw|].
    apply (emits_remove_tail allowed top profiles); [exact Hv|simpl; auto|].
    eapply emits_bind; [apply emits_set_parts|]. intros _ _.
    apply emits_showToast. exact I.
  - unfold First.do_activate.
    apply emits_bind_lift. intros _ _.
    eapply emits_bind; [apply emits_loadStorage; simpl; auto|]. intros storage _.
    apply emits_bind_lift. intros [profiles names] _. cbv zeta.
    apply emits_if; [apply emits_throw|].
    apply emits_bind_lift. intros profile _.
    apply emits_if; [apply emits_throw|].
    apply emits_bind_lift. intros body _.
    eapply emits_bind; [apply emits_auth_set; reflexivity|]. intros _ _.
    apply emits_bind_lift. intros p_oauth _.
    apply emits_bind_lift. intros p_access _.
    apply emits_bind_lift. intros email _.
    eapply emits_bind; [apply emits_set_parts|]. intros _ _.
    apply emits_showToast. exact I.
Qed.

Lemma emits_first (input : Input) : emits allowed (fun _ => True) (first input).
Proof.
  unfold First.command_execute_before.
  apply emits_if; [apply emits_ret; exact I|]. cbv zeta.
  apply emits_try_catch; [apply emits_first_run_sub|]. intros e. unfold First.on_error.
  eapply emits_bind; [apply emits_set_parts|]. intros _ _.
  eapply emits_bind; [apply emits_showToast; exact I|]. intros _ _.
  apply emits_throw.
Qed.

Lemma vault_kept (m : M unit) (w : world) :
  emits allowed (fun _ => True) m ->
  (forall path, path <> STORAGE_PATH -> files (m w).2 !! path = files w !! path) /\
  (files (m w).2 !! STORAGE_PATH = files w !! STORAGE_PATH
   \/ exists d, files (m w).2 !! STORAGE_PATH = Some (Holds d) /\ valid_storage d) /\
  (forall s, (loadStorage STORAGE_PATH w).1 = Ok s ->
     exists s', (loadStorage STORAGE_PATH (m w).2).1 = Ok s') /\
  (forall id body, (id, body) ∈ auth_sets (m w).2 ->
     (id, body) ∈ auth_sets w \/ id = PROVIDER_ID).
Proof.
  intros Hm. destruct (Hm w) as (evs & Ht & HP & Hf & _).
  destruct (replay_writes_to STORAGE_PATH valid_storage evs (files w)) as [H1 H2].
  { eapply Forall_impl; [exact HP|]. intros e He p d ->. exact He. }
  rewrite <- Hf in H1, H2. split; [exact H1|]. split; [exact H2|]. split.
  - intros s Hs. rewrite !loadStorage_run in *. destruct H2 as [E|(d & E & Hd)].
    + rewrite E. destruct (files w !! STORAGE_PATH) as [[|j]|]; simpl in *; eauto.
    + rewrite E. simpl. rewrite (valid_storage_check STORAGE_PATH d Hd). eauto.
  - intros id body. unfold auth_sets. rewrite Ht, omap_app, elem_of_app.
    intros [H|H]; [left; exact H|right].
    apply list_elem_of_omap in H as (e & He & Hx).
    rewrite Forall_forall in HP. specialize (HP e He).
    destruct e; try discriminate Hx. injection Hx as -> ->. exact HP.
Qed.

(** X24.  The earlier revisions do not harm the vault either.  Under
    the older and under the first revision of the hook, whatever the
    command and whether it succeeds, fails or (in the first revision)
    throws: every file other than the vault file stays as it was, the
    vault file stays as it was or holds a valid storage afterwards, a
    vault that could be loaded before can be loaded after, and a
    credential is set for the provider [openai] only. *)
Theorem earlier_revisions_keep_vault (input : Input) (w : world) :
  let kept (w' : world) :=
    (forall path, path <> STORAGE_PATH -> files w' !! path = files w !! path) /\
    (files w' !! STORAGE_PATH = files w !! STORAGE_PATH
     \/ exists d, files w' !! STORAGE_PATH = Some (Holds d) /\ valid_storage d) /\
    (forall s, (loadStorage STORAGE_PATH w).1 = Ok s ->
       exists s', (loadStorage STORAGE_PATH w').1 = Ok s') /\
    (forall id body, (id, body) ∈ auth_sets w' ->
       (id, body) ∈ auth_sets w \/ id = PROVIDER_ID) in
  kept (older input w).2 /\ kept (first input w).2.
Proof.
  intros kept. split.
  - apply (vault_kept (older input) w), emits_older.
  - apply (vault_kept (first input) w), emits_first.
Qed.

(** *** [save] under the earlier revisions *)

Lemma live_credential_read (w : world) (o : OAuth) :
  live_credential AUTH_PATH w = Some o ->
  exists auth,
    files w !! AUTH_PATH = Some (Holds auth) /\
    readOpenAiAuthFromAuthFile AUTH_PATH auth = Ok o.
Proof.
  unfold live_credential.
  destruct (files w !! AUTH_PATH) as [[|auth]|]; try discriminate.
  destruct (readOpenAiAuthFromAuthFile AUTH_PATH auth) as [o'|] eqn:E; [|discriminate].
  intros [= ->]. eauto.
Qed.

Lemma older_do_save_run (w : world) (name : string) (rest : list string)
    (top profiles : gmap string json) (o : OAuth) :
  name <> "" ->
  live_credential AUTH_PATH w = Some o ->
  access o <> "" -> refresh o <> "" ->
  vault_holds STORAGE_PATH w top profiles ->
  let stored :=
    with_profiles top
      (<[name := json_of_profile {| name := name; oauth := o; savedAt := now w |}]> profiles) in
  exists t w1,
    Older.do_save STORAGE_PATH AUTH_PATH base64_utf8 JSON_parse ("save" :: name :: rest) w
    = (Ok tt,
       with_parts []
         (emit (ShowToast t) (with_file STORAGE_PATH stored (emit (FileWrite STORAGE_PATH stored) w1)))).
Proof.
  intros Hne Hlive Ha Hr Hvault stored.
  destruct (live_credential_read w o Hlive) as (auth & Hauth & Hread).
  destruct (extractEmail_returns base64_utf8 JSON_parse (access o)) as [email Hemail].
  destruct (vault_holds_members _ _ _ _ Hvault) as [Hv Hp].
  unfold Older.do_save. cbv zeta. change (nth 1 ("save" :: name :: rest) "") with name.
  rewrite (eqb_false_of_ne _ _ Hne).
  rewrite (bind_Ok _ _ _ _ _ (ensureActiveAuth_run AUTH_PATH w auth o Hauth Hread)).
  cbv beta. rewrite (eqb_false_of_ne _ _ Ha), (eqb_false_of_ne _ _ Hr). cbn [orb].
  rewrite (bind_Ok _ _ _ _ _
             (loadStorage_holds STORAGE_PATH (read_auth AUTH_PATH w) top profiles Hvault)).
  cbv beta. unfold bind, lift, Date_now, saveStorage, writeJsonFile, Bun_write, showToast,
    set_parts, log.
  cbn [get set]. rewrite Hp. cbn [get set]. rewrite Hemail. eexists _, _. reflexivity.
Qed.

Lemma first_do_save_run (w : world) (name : string) (rest : list string)
    (top profiles : gmap string json) (o : OAuth) :
  name <> "" -> is_token name ->
  live_credential AUTH_PATH w = Some o ->
  vault_holds STORAGE_PATH w top profiles ->
  let stored :=
    with_profiles top
      (<[name := json_of_profile {| name := name; oauth := o; savedAt := now w |}]> profiles) in
  exists t w1,
    First.do_save STORAGE_PATH AUTH_PATH base64_utf8 JSON_parse ("save" :: name :: rest) w
    = (Ok tt,
       emit (ShowToast t)
         (with_parts ["Saved profile '" +:+ name +:+ "' to " +:+ STORAGE_PATH]
            (with_file STORAGE_PATH stored (emit (FileWrite STORAGE_PATH stored) w1)))).
Proof.
  intros Hne Htok Hlive Hvault stored.
  destruct (live_credential_read w o Hlive) as (auth & Hauth & Hread).
  destruct (extractEmail_returns base64_utf8 JSON_parse (access o)) as [email Hemail].
  destruct (vault_holds_members _ _ _ _ Hvault) as [Hv Hp].
  unfold First.do_save. cbv zeta. change (nth 1 ("save" :: name :: rest) "") with name.
  unfold bind at 1. unfold lift at 1. unfold First.assertNonEmpty.
  rewrite (is_token_trim name Htok).
  assert (First.readActiveOauth AUTH_PATH w = (Ok o, read_auth AUTH_PATH w)) as Hactive.
  { unfold First.readActiveOauth, bind. rewrite readJsonFile_run, Hauth.
    unfold lift. rewrite Hread. reflexivity. }
  rewrite (bind_Ok _ _ _ _ _ Hactive). cbv beta.
  rewrite (bind_Ok _ _ _ _ _
             (loadStorage_holds STORAGE_PATH (read_auth AUTH_PATH w) top profiles Hvault)).
  cbv beta. unfold bind, lift, Date_now, saveStorage, writeJsonFile, Bun_write, showToast,
    set_parts, log.
  cbn [get set]. rewrite Hp. cbn [get set]. rewrite Hemail. eexists _, _. reflexivity.
Qed.

(** X25.  [save] under the earlier revisions replaces.  In the older
    and in the first revision [save NAME], given a live credential,
    writes the vault with the profile of that name set to the live
    credential and the time of the call, whether or not the vault had a
    profile of that name: an existing one is replaced without notice, the
    other profiles are written back as they were.  The older revision
    asks for non-empty tokens first; the first revision saves the
    credential as it is.  ([NAME] is not a member every object
    inherits: an assignment to [__proto__] stores no profile.) *)
Theorem earlier_save_replaces
    (input : Input) (w : world) (name : string) (rest : list string)
    (top profiles : gmap string json) (o : OAuth) :
  parseArgs (arguments input) = "save" :: name :: rest ->
  name ∉ inherited ->
  live_credential AUTH_PATH w = Some o ->
  vault_holds STORAGE_PATH w top profiles ->
  let stored :=
    with_profiles top
      (<[name := json_of_profile {| name := name; oauth := o; savedAt := now w |}]> profiles) in
  (normalize_command (command input) = COMMAND ->
   access o <> "" -> refresh o <> "" ->
   (older input w).1 = Ok tt /\
   files (older input w).2 !! STORAGE_PATH = Some (Holds stored)) /\
  (command input = COMMAND ->
   (first input w).1 = Ok tt /\
   files (first input w).2 !! STORAGE_PATH = Some (Holds stored)).
Proof.
  intros Hargs _ Hlive Hvault stored.
  pose proof (second_token input "save" name rest Hargs) as Htok.
  assert (name <> "") as Hne by apply Htok.
  split.
  - intros Hc Ha Hr.
    destruct (older_do_save_run (emit (ShowToast (Older.debug_toast input)) w) name rest
                top profiles o Hne Hlive Ha Hr Hvault) as (t & w1 & Hrun).
    unfold Older.command_execute_before, bind, showToast, log. rewrite Hc, Hargs.
    change (negb (String.eqb COMMAND COMMAND)) with false. cbv iota zeta.
    change (nth 0 ("save" :: name :: rest) "") with "save".
    change (Older.normalize_sub "save") with "save". cbn [String.eqb Ascii.eqb Bool.eqb orb].
    unfold try_catch. cbv zeta in Hrun. rewrite Hrun.
    split; [reflexivity|]. apply lookup_insert_eq.
  - intros Hc.
    destruct (first_do_save_run w name rest top profiles o Hne Htok Hlive Hvault)
      as (t & w1 & Hrun).
    unfold First.command_execute_before. rewrite Hc, Hargs.
    change (negb (String.eqb COMMAND COMMAND)) with false. cbv iota zeta.
    change (nth 0 ("save" :: name :: rest) "") with "save".
    change (Older.normalize_sub "save") with "save".
    unfold First.run_sub. cbn [String.eqb Ascii.eqb Bool.eqb orb].
    unfold try_catch. cbv zeta in Hrun. rewrite Hrun.
    split; [reflexivity|]. apply lookup_insert_eq.
Qed.

(** *** The numbers of the menu *)





End Earlier.

(** ** Positions as selectors *)

(** X27.  The position of a name in the list is its number.  For
    every position [k] from 1 to the number of names, the decimal
    numeral of [k] stands, in [del] and in [load], for the [k]-th of the
    sorted names, which are the names in the order in which [list] shows
    them. *)
Theorem position_is_the_number (names : list string) (k : nat) (n : string) :
  names !! k = Some n -> resolve_number (pretty (S k)) names = n.
Proof.
  intros Hk. pose proof (lookup_lt_Some _ _ _ Hk) as Hlt.
  unfold resolve_number. rewrite parseInt_pretty.
  destruct (Z.ltb_spec 0 (Z.of_nat (S k))); [|lia].
  destruct (Z.leb_spec (Z.of_nat (S k)) (Z.of_nat (List.length names))); [|lia].
  cbn [andb]. replace (Z.to_nat (Z.of_nat (S k) - 1)) with k by lia.
  rewrite nth_lookup, Hk. reflexivity.
Qed.

Lemma position_is_the_number_witness :
  resolve_number "12" ["a"; "b"; "c"; "d"; "e"; "f"; "g"; "h"; "i"; "j"; "k"; "l"] = "l".
Proof.
  apply (position_is_the_number
           ["a"; "b"; "c"; "d"; "e"; "f"; "g"; "h"; "i"; "j"; "k"; "l"] 11 "l").
  reflexivity.
Defined.

(** ** The padding of a token segment *)

Lemma occurs_replace_all (c d : ascii) (s : string) :
  c <> d -> occurs c (Js.replace_all c d s) = false.
Proof.
  intros Hcd. induction s as [|x s IH]; simpl; [reflexivity|]. rewrite IH.
  destruct (Ascii.eqb_spec x c) as [->|Hx].
  - destruct (Ascii.eqb_spec d c); [congruence|reflexivity].
  - destruct (Ascii.eqb_spec x c); [contradiction|reflexivity].
Qed.

Lemma occurs_replace_other (a c d : ascii) (s : string) :
  a <> d -> occurs a s = false -> occurs a (Js.replace_all c d s) = false.
Proof.
  intros Had. induction s as [|x s IH]; simpl; [reflexivity|].
  intros H. apply orb_false_elim in H as [Hx Hs]. rewrite (IH Hs).
  destruct (Ascii.eqb x c); [|rewrite Hx; reflexivity].
  destruct (Ascii.eqb_spec d a); [congruence|reflexivity].
Qed.

Lemma occurs_app (c : ascii) (s1 s2 : string) :
  occurs c (s1 +:+ s2) = occurs c s1 || occurs c s2.
Proof.
  induction s1 as [|x s1 IH]; [reflexivity|].
  rewrite append_cons. simpl. rewrite IH, orb_assoc. reflexivity.
Qed.

(** X28.  What [base64UrlToUtf8] hands to the decoder.  The segment
    with every [-] turned into [+] and every [_] into [/], followed by
    between zero and three [=] signs: as many as bring the length to a
    multiple of four.  The string decoded has neither [-] nor [_].
    Stated for segments of ASCII characters. *)
Theorem base64UrlToUtf8_padding (decoder : string -> string) (input : string) :
  ascii_only input = true ->
  exists pad,
    let padded := Js.replace_all "_" "/" (Js.replace_all "-" "+" input) +:+ pad in
    base64UrlToUtf8 decoder input = decoder padded /\
    pad ∈ [""; "="; "=="; "==="] /\
    (String.length padded = String.length input + String.length pad)%nat /\
    (String.length padded mod 4 = 0)%nat /\
    occurs "-" padded = false /\ occurs "_" padded = false.
Proof.
  intros _. unfold base64UrlToUtf8. cbv zeta.
  set (normalized := Js.replace_all "_" "/" (Js.replace_all "-" "+" input)).
  assert (String.length normalized = String.length input) as Hlen
    by (unfold normalized; rewrite !length_replace_all; reflexivity).
  assert (occurs "-" normalized = false /\ occurs "_" normalized = false) as [Hd Hu].
  { unfold normalized. split.
    - apply occurs_replace_other; [discriminate|]. apply occurs_replace_all. discriminate.
    - apply occurs_replace_all. discriminate. }
  exists (Js.slice ((String.length normalized + 3) mod 4) "===").
  split; [reflexivity|].
  rewrite length_append, !occurs_app, Hd, Hu, Hlen.
  pose proof (Nat.mod_upper_bound (String.length input + 3) 4 ltac:(discriminate)) as Hk.
  pose proof (Nat.div_mod_eq (String.length input + 3) 4) as Hq.
  destruct ((String.length input + 3) mod 4)%nat as [|[|[|[|k]]]] eqn:Ek; [| | | |lia];
    (split; [set_solver|]); (split; [reflexivity|]); (split; [|split; reflexivity]);
    simpl String.length.
  - replace (String.length input + 3)%nat
      with (((String.length input + 3) / 4) * 4)%nat by lia.
    apply Nat.Div0.mod_mul.
  - replace (String.length input + 2)%nat
      with (((String.length input + 3) / 4) * 4)%nat by lia.
    apply Nat.Div0.mod_mul.
  - replace (String.length input + 1)%nat
      with (((String.length input + 3) / 4) * 4)%nat by lia.
    apply Nat.Div0.mod_mul.
  - replace (String.length input + 0)%nat
      with (((String.length input + 3) / 4) * 4)%nat by lia.
    apply Nat.Div0.mod_mul.
Qed.

(** ** The further properties at work *)

Ltac not_listed :=
  let H := fresh in
  intros H; repeat (apply elem_of_cons in H as [H|H]; [discriminate H|]);
  apply elem_of_nil in H; exact H.

Ltac demo_vault := unfold vault_holds; vm_compute; repeat split; reflexivity.

Lemma readOpenAiAuth_rejects_witness :
  readOpenAiAuthFromAuthFile Demo.AUTH_PATH
    (JObj {[ "openai" := JObj {[ "type" := JStr "api" ]} ]})
  = Throw (Error ("Provider 'openai' auth is not oauth (got 'api'). "
                  +:+ "This plugin supports OAuth accounts.")).
Proof.
  pose proof (readOpenAiAuth_rejects Demo.AUTH_PATH
                {[ "openai" := JObj {[ "type" := JStr "api" ]} ]} eq_refl) as H.
  destruct (readOpenAiAuthFromAuthFile _ _) as [o|err] eqn:E.
  - vm_compute in E. discriminate E.
  - destruct H as [[H _]|[(_ & _ & ->)|[H _]]].
    + vm_compute in H. discriminate H.
    + vm_compute. reflexivity.
    + vm_compute in H. discriminate H.
Defined.

Lemma save_stores_live_credential_witness :
  exists w',
    Demo.run (Demo.oai "save d") Demo.world_abc = (Ok tt, w') /\
    files w' !! Demo.STORAGE_PATH
    = Some (Holds (json_of_storage
                     (<["d" := json_of_profile
                                 {| name := "d"; oauth := Demo.cred "rb" Demo.token_plain None;
                                    savedAt := "2026-02-02T00:00:00.000Z" |}]>
                        Demo.profiles_abc))) /\
    message <$> toasts w' = ["Saved profile 'd'"].
Proof.
  destruct (save_stores_live_credential Demo.STORAGE_PATH Demo.AUTH_PATH Demo.localeCompare
              Demo.base64_utf8 Demo.JSON_parse (Demo.oai "save d") Demo.world_abc
              "save" "d" []
              (<["version" := JNum 1]> (<["profiles" := JObj Demo.profiles_abc]> ∅))
              Demo.profiles_abc (Demo.cred "rb" Demo.token_plain None))
    as (w' & email & Hrun & Hfiles & _ & _ & Hemail & Htoasts & _).
  - reflexivity.
  - reflexivity.
  - reflexivity.
  - not_listed.
  - vm_compute. reflexivity.
  - discriminate.
  - discriminate.
  - demo_vault.
  - vm_compute. reflexivity.
  - exists w'. split; [exact Hrun|]. split.
    + rewrite Hfiles, lookup_insert_eq. vm_compute. reflexivity.
    + rewrite Htoasts. vm_compute in Hemail. injection Hemail as <-. reflexivity.
Defined.

Lemma del_removes_profile_witness :
  exists w',
    Demo.run (Demo.oai "del 2") Demo.world_abc = (Ok tt, w') /\
    files w' !! Demo.STORAGE_PATH
    = Some (Holds (json_of_storage (delete "b" Demo.profiles_abc))) /\
    message <$> toasts w' = ["Removed profile 'b'"].
Proof.
  destruct (del_removes_profile Demo.STORAGE_PATH Demo.AUTH_PATH Demo.localeCompare
              Demo.base64_utf8 Demo.JSON_parse (Demo.oai "del 2") Demo.world_abc
              "del" "2" []
              (<["version" := JNum 1]> (<["profiles" := JObj Demo.profiles_abc]> ∅))
              Demo.profiles_abc)
    as (w' & Hrun & Hfiles & _ & _ & Htoasts & _).
  - reflexivity.
  - reflexivity.
  - reflexivity.
  - demo_vault.
  - vm_compute. reflexivity.
  - exists w'. split; [exact Hrun|]. split.
    + rewrite Hfiles, lookup_insert_eq. vm_compute. reflexivity.
    + rewrite Htoasts. vm_compute. reflexivity.
Defined.

Lemma missing_profile_is_reported_witness :
  exists w',
    Demo.run (Demo.oai "del nobody") Demo.world_abc = (Ok tt, w') /\
    files w' = files Demo.world_abc /\ writes w' = writes Demo.world_abc /\
    message <$> toasts w' = ["Error: Profile 'nobody' not found."].
Proof.
  destruct (missing_profile_is_reported Demo.STORAGE_PATH Demo.AUTH_PATH Demo.localeCompare
              Demo.base64_utf8 Demo.JSON_parse (Demo.oai "del nobody") Demo.world_abc
              "del" "nobody" []
              (<["version" := JNum 1]> (<["profiles" := JObj Demo.profiles_abc]> ∅))
              Demo.profiles_abc)
    as (w' & Hrun & _ & Hfiles & Hwrites & _ & Htoasts & _).
  - reflexivity.
  - reflexivity.
  - left. reflexivity.
  - demo_vault.
  - vm_compute. not_listed.
  - vm_compute. reflexivity.
  - exists w'. split; [exact Hrun|]. split; [exact Hfiles|]. split; [exact Hwrites|].
    rewrite Htoasts. vm_compute. reflexivity.
Defined.

Lemma save_then_load_witness :
  exists w1 w2,
    Demo.run (Demo.oai "save d") Demo.world_abc = (Ok tt, w1) /\
    Demo.run (Demo.oai "load d") w1 = (Ok tt, w2) /\
    auth_sets w2 = [(PROVIDER_ID, live_body (Demo.cred "rb" Demo.token_plain None))].
Proof.
  destruct (save_then_load Demo.STORAGE_PATH Demo.AUTH_PATH Demo.localeCompare
              Demo.base64_utf8 Demo.JSON_parse (Demo.oai "save d") (Demo.oai "load d")
              Demo.world_abc "save" "load" "d" [] []
              (<["version" := JNum 1]> (<["profiles" := JObj Demo.profiles_abc]> ∅))
              Demo.profiles_abc (Demo.cred "rb" Demo.token_plain None))
    as (w1 & w2 & Hsave & Hload & Hsets & _).
  - reflexivity.
  - reflexivity.
  - reflexivity.
  - reflexivity.
  - reflexivity.
  - reflexivity.
  - not_listed.
  - vm_compute. reflexivity.
  - discriminate.
  - discriminate.
  - demo_vault.
  - vm_compute. reflexivity.
  - vm_compute. reflexivity.
  - exists w1, w2. split; [exact Hsave|]. split; [exact Hload|exact Hsets].
Defined.

Lemma save_then_del_witness :
  exists w1 w2,
    Demo.run (Demo.oai "save d") Demo.world_abc = (Ok tt, w1) /\
    Demo.run (Demo.oai "del d") w1 = (Ok tt, w2) /\
    files w2 !! Demo.STORAGE_PATH = files Demo.world_abc !! Demo.STORAGE_PATH.
Proof.
  destruct (save_then_del Demo.STORAGE_PATH Demo.AUTH_PATH Demo.localeCompare
              Demo.base64_utf8 Demo.JSON_parse (Demo.oai "save d") (Demo.oai "del d")
              Demo.world_abc "save" "del" "d" [] []
              (<["version" := JNum 1]> (<["profiles" := JObj Demo.profiles_abc]> ∅))
              Demo.profiles_abc (Demo.cred "rb" Demo.token_plain None))
    as (w1 & w2 & Hsave & Hdel & Hfile & _).
  - reflexivity.
  - reflexivity.
  - reflexivity.
  - reflexivity.
  - reflexivity.
  - reflexivity.
  - not_listed.
  - vm_compute. reflexivity.
  - discriminate.
  - discriminate.
  - demo_vault.
  - vm_compute. reflexivity.
  - vm_compute. reflexivity.
  - exists w1, w2. split; [exact Hsave|]. split; [exact Hdel|].
    rewrite Hfile. vm_compute. reflexivity.
Defined.

Lemma list_shows_profiles_witness :
  exists w',
    Demo.run (Demo.oai "list") Demo.world_abc = (Ok tt, w') /\
    message <$> toasts w' = ["Profiles: a, [b], c. Use '/oai load <name>'."] /\
    files w' = files Demo.world_abc.
Proof.
  destruct (list_shows_profiles Demo.STORAGE_PATH Demo.AUTH_PATH Demo.localeCompare
              Demo.base64_utf8 Demo.JSON_parse (Demo.oai "list") Demo.world_abc
              (<["version" := JNum 1]> (<["profiles" := JObj Demo.profiles_abc]> ∅))
              (<["a" := Demo.profile "a" "ra" Demo.token_ann None]>
                 (<["b" := Demo.profile "b" "rb" Demo.token_plain None]>
                    (<["c" := Demo.profile "c" "rc" "opaque" None]> ∅))))
    as (w' & Hrun & Htoasts & Hfiles & _).
  - reflexivity.
  - reflexivity.
  - demo_vault.
  - exists w'. split; [exact Hrun|]. split; [|exact Hfiles].
    rewrite Htoasts. vm_compute. reflexivity.
Defined.

Lemma save_needs_live_credential_witness :
  exists evs,
    Demo.run (Demo.oai "save d")
      (Demo.world_of (Some (Holds (json_of_storage Demo.profiles_abc))) None)
    = (Ok tt,
       with_parts []
         (emit (ShowToast (error_toast
                             (Error "No active OpenAI login found. Run /connect first.")))
            (emit_all evs
               (Demo.world_of (Some (Holds (json_of_storage Demo.profiles_abc))) None)))) /\
    Forall (fun ev => ev = FileExists Demo.AUTH_PATH \/ ev = FileJson Demo.AUTH_PATH) evs.
Proof.
  destruct (save_needs_live_credential Demo.STORAGE_PATH Demo.AUTH_PATH Demo.localeCompare
              Demo.base64_utf8 Demo.JSON_parse (Demo.oai "save d")
              (Demo.world_of (Some (Holds (json_of_storage Demo.profiles_abc))) None)
              "save" "d" [])
    as (evs & Hrun & Hevs & _).
  - reflexivity.
  - reflexivity.
  - reflexivity.
  - vm_compute. exact I.
  - exists evs. split; [exact Hrun|exact Hevs].
Defined.

Lemma only_two_tokens_count_witness :
  Demo.run (Demo.oai "LOAD b and more") Demo.world_abc
  = Demo.run (Demo.oai "load b") Demo.world_abc.
Proof.
  apply (only_two_tokens_count Demo.STORAGE_PATH Demo.AUTH_PATH Demo.localeCompare
           Demo.base64_utf8 Demo.JSON_parse (Demo.oai "LOAD b and more") (Demo.oai "load b")
           Demo.world_abc); reflexivity.
Defined.

Lemma command_guard_witness :
  normalize_command "  /OAI " = COMMAND /\
  Demo.run {| command := "//oai"; arguments := "list" |} Demo.world_abc
  = (Ok tt, Demo.world_abc).
Proof.
  split.
  - apply (proj1 (command_guard Demo.STORAGE_PATH Demo.AUTH_PATH Demo.localeCompare
                    Demo.base64_utf8 Demo.JSON_parse
                    {| command := "  /OAI "; arguments := "" |} Demo.world_abc eq_refl)).
    vm_compute. set_solver.
  - apply (proj2 (command_guard Demo.STORAGE_PATH Demo.AUTH_PATH Demo.localeCompare
                    Demo.base64_utf8 Demo.JSON_parse
                    {| command := "//oai"; arguments := "list" |} Demo.world_abc eq_refl)).
    vm_compute. not_listed.
Defined.

Lemma use_alias_selects_use_witness :
  toasts (Demo.run_older (Demo.oai "use b") Demo.world_abc).2
  = [Older.debug_toast (Demo.oai "use b");
     error_toast (Error "Profile 'use' not found. Use /oai to list.")] /\
  auth_sets (Demo.run_older (Demo.oai "use b") Demo.world_abc).2 = [].
Proof.
  apply (proj2 (proj2 (use_alias_selects_use Demo.STORAGE_PATH Demo.AUTH_PATH
                         Demo.localeCompare Demo.base64_utf8 Demo.JSON_parse
                         Demo.canonical_number Demo.Date_toISOString
                         (Demo.oai "use b") Demo.world_abc
                         (<["version" := JNum 1]> (<["profiles" := JObj Demo.profiles_abc]> ∅))
                         Demo.profiles_abc eq_refl))).
  - reflexivity.
  - demo_vault.
  - vm_compute. reflexivity.
Defined.

Lemma first_remove_takes_numbers_only_witness :
  (Demo.run_first (Demo.oai "d b") Demo.world_abc).1
  = Throw (Error "Invalid selection 'b'. Use: /oai") /\
  is_Some (Demo.profiles_abc !! "b") /\
  writes (Demo.run_first (Demo.oai "d b") Demo.world_abc).2 = [].
Proof.
  destruct (first_remove_takes_numbers_only Demo.STORAGE_PATH Demo.AUTH_PATH
              Demo.localeCompare Demo.base64_utf8 Demo.JSON_parse Demo.canonical_number
              Demo.Date_toISOString (Demo.oai "d b") Demo.world_abc "d" "b" []
              (<["version" := JNum 1]> (<["profiles" := JObj Demo.profiles_abc]> ∅))
              Demo.profiles_abc)
    as (Hres & _ & Hwrites & _).
  - reflexivity.
  - reflexivity.
  - set_solver.
  - reflexivity.
  - demo_vault.
  - split; [exact Hres|]. split; [vm_compute; eauto|exact Hwrites].
Defined.

Lemma first_menu_needs_live_credential_witness :
  exists e,
    (Demo.run_first (Demo.oai "")
       (Demo.world_of (Some (Holds (json_of_storage Demo.profiles_abc))) None)).1 = Throw e /\
    e = Error ("File not found: " +:+ Demo.AUTH_PATH).
Proof.
  destruct (first_menu_needs_live_credential Demo.STORAGE_PATH Demo.AUTH_PATH
              Demo.localeCompare Demo.base64_utf8 Demo.JSON_parse Demo.canonical_number
              Demo.Date_toISOString (Demo.oai "")
              (Demo.world_of (Some (Holds (json_of_storage Demo.profiles_abc))) None)
              (<["version" := JNum 1]> (<["profiles" := JObj Demo.profiles_abc]> ∅))
              Demo.profiles_abc)
    as (e & Hres & _ & _ & Hmissing).
  - reflexivity.
  - vm_compute. set_solver.
  - demo_vault.
  - vm_compute. reflexivity.
  - exists e. split; [exact Hres|]. apply Hmissing. vm_compute. reflexivity.
Defined.

Lemma base64UrlToUtf8_padding_witness :
  exists pad,
    base64UrlToUtf8 Demo.base64_utf8 "eyJzdWIiOiJ1MSJ9-_a"
    = Demo.base64_utf8 ("eyJzdWIiOiJ1MSJ9+/a" +:+ pad) /\
    pad ∈ [""; "="; "=="; "==="] /\
    (String.length ("eyJzdWIiOiJ1MSJ9+/a" +:+ pad) mod 4 = 0)%nat.
Proof.
  destruct (base64UrlToUtf8_padding Demo.base64_utf8 "eyJzdWIiOiJ1MSJ9-_a" eq_refl)
    as (pad & H1 & H2 & _ & H4 & _).
  exists pad. split; [exact H1|]. split; [exact H2|exact H4].
Defined.

Lemma earlier_revisions_keep_vault_witness :
  (exists s',
     (loadStorage Demo.STORAGE_PATH (Demo.run_older (Demo.oai "save a") Demo.world_abc).2).1
     = Ok s') /\
  files (Demo.run_first (Demo.oai "save a") Demo.world_abc).2 !! Demo.AUTH_PATH
  = files Demo.world_abc !! Demo.AUTH_PATH.
Proof.
  destruct (earlier_revisions_keep_vault Demo.STORAGE_PATH Demo.AUTH_PATH Demo.localeCompare
              Demo.base64_utf8 Demo.JSON_parse Demo.canonical_number Demo.Date_toISOString
              (Demo.oai "save a") Demo.world_abc)
    as [(_ & _ & Hload & _) (Hother & _)].
  split.
  - apply (Hload (json_of_storage Demo.profiles_abc)). vm_compute. reflexivity.
  - apply Hother. discriminate.
Defined.

Lemma earlier_save_replaces_witness :
  let stored :=
    json_of_storage
      (<["a" := json_of_profile
                  {| name := "a"; oauth := Demo.cred "rb" Demo.token_plain None;
                     savedAt := "2026-02-02T00:00:00.000Z" |}]> Demo.profiles_abc) in
  Demo.profiles_abc !! "a"
  = Some (json_of_profile (Demo.profile "a" "ra" Demo.token_ann None)) /\
  files (Demo.run_older (Demo.oai "save a") Demo.world_abc).2 !! Demo.STORAGE_PATH
  = Some (Holds stored) /\
  files (Demo.run_first (Demo.oai "save a") Demo.world_abc).2 !! Demo.STORAGE_PATH
  = Some (Holds stored).
Proof.
  intros stored.
  destruct (earlier_save_replaces Demo.STORAGE_PATH Demo.AUTH_PATH Demo.localeCompare
              Demo.base64_utf8 Demo.JSON_parse Demo.canonical_number Demo.Date_toISOString
              (Demo.oai "save a") Demo.world_abc "a" []
              (<["version" := JNum 1]> (<["profiles" := JObj Demo.profiles_abc]> ∅))
              Demo.profiles_abc (Demo.cred "rb" Demo.token_plain None))
    as [Holder Hfirst].
  - reflexivity.
  - not_listed.
  - vm_compute. reflexivity.
  - demo_vault.
  - split; [vm_compute; reflexivity|]. split.
    + destruct (Holder eq_refl ltac:(discriminate) ltac:(discriminate)) as [_ H].
      etransitivity; [exact H|]. vm_compute. reflexivity.
    + destruct (Hfirst eq_refl) as [_ H].
      etransitivity; [exact H|]. vm_compute. reflexivity.
Defined.

Lemma unloadable_vault_is_left_alone_witness :
  let w := Demo.world_of
             (Some (Holds (JObj (<["version" := JNum 2]> (<["profiles" := JObj ∅]> ∅)))))
             (Some (Holds (Demo.auth_file (Demo.cred "r" "a" None)))) in
  files (Demo.run (Demo.oai "save x") w).2 = files w /\
  toasts (Demo.run (Demo.oai "list") w).2 = [error_toast (CorruptError Demo.STORAGE_PATH)].
Proof.
  intros w. split.
  - apply (unloadable_vault_is_left_alone Demo.STORAGE_PATH Demo.AUTH_PATH Demo.localeCompare
             Demo.base64_utf8 Demo.JSON_parse (Demo.oai "save x") w
             (CorruptError Demo.STORAGE_PATH)).
    vm_compute. reflexivity.
  - apply (unloadable_vault_is_left_alone Demo.STORAGE_PATH Demo.AUTH_PATH Demo.localeCompare
             Demo.base64_utf8 Demo.JSON_parse (Demo.oai "list") w
             (CorruptError Demo.STORAGE_PATH)).
    + vm_compute. reflexivity.
    + reflexivity.
    + left. reflexivity.
Defined.

